(** * InvoiceFlow: the bulk synchronisation engine

    A shallow embedding of [models.py] (the two translators and the
    stored tokens), [quickbooks_api.py] (the remote document client and
    the entity resolver), [bulk_upload.py] (the engine and its statistics
    query) and the token calls of [quickbooks_oauth.py], followed by the
    properties of the specification that were checked against it and by
    further properties of the code.

    Python values are embedded as a JSON-like tree, exceptions as a class
    and the text [str(e)] gives, effectful code as a state-and-exception
    monad over an explicit world (the remote platform, the requests sent,
    the log, the clock, the database session and the rows). *)

From Stdlib Require Import ZArith List String Ascii Bool Lia.
From Stdlib Require Import DecimalString.
From stdpp Require Import base option list gmap strings.

Set Warnings "-register-all".
Local Open Scope string_scope.
Local Open Scope Z_scope.

(** ** Python values *)

(** What [response.json()] can return and what a payload dict can hold.
    [JFloat h] is the float of a two-decimal amount ([h] hundredths), as
    [float(self.amount)] yields for a [Numeric(10, 2)] column. *)
Inductive json : Type :=
| JNull
| JBool (b : bool)
| JInt (n : Z)
| JFloat (hundredths : Z)
| JStr (s : string)
| JList (items : list json)
| JObj (fields : list (string * json)).

(** Exception classes, as far as an [except] clause of the sources tells
    them apart. [Timeout] stands for [requests.exceptions.Timeout],
    [RequestException] for the other [requests] errors. *)
Inductive exc_class : Type :=
| Exception | Timeout | RequestException | JSONDecodeError
| KeyError | IndexError | TypeError | AttributeError | ValueError.

(** A raised exception: its class and [str(e)]. *)
Record exn : Type := Raise { exn_class : exc_class; exn_str : string }.

(** Result of a pure step that may raise. *)
Definition res (A : Type) : Type := exn + A.

Definition type_name (v : json) : string :=
  match v with
  | JNull => "NoneType" | JBool _ => "bool" | JInt _ => "int"
  | JFloat _ => "float" | JStr _ => "str" | JList _ => "list"
  | JObj _ => "dict"
  end.

(** Truth value of [if v:]. *)
Definition py_truthy (v : json) : bool :=
  match v with
  | JNull => false
  | JBool b => b
  | JInt n => negb (n =? 0)
  | JFloat h => negb (h =? 0)
  | JStr s => negb (String.eqb s "")
  | JList l => match l with [] => false | _ => true end
  | JObj kv => match kv with [] => false | _ => true end
  end.

(** Dicts keep insertion order; keys are looked up from the front. *)
Fixpoint dict_lookup (k : string) (kv : list (string * json)) : option json :=
  match kv with
  | [] => None
  | (k', v) :: rest => if String.eqb k k' then Some v else dict_lookup k rest
  end.

(** [d[k] = v]: replaces in place, or appends a new key. *)
Fixpoint dict_set (k : string) (v : json) (kv : list (string * json))
  : list (string * json) :=
  match kv with
  | [] => [(k, v)]
  | (k', v') :: rest =>
      if String.eqb k k' then (k, v) :: rest else (k', v') :: dict_set k v rest
  end.

(** [d.get(k, default)] *)
Definition py_get (d : json) (k : string) (default : json) : res json :=
  match d with
  | JObj kv => inr (from_option id default (dict_lookup k kv))
  | _ => inl (Raise AttributeError
               ("'" +:+ type_name d +:+ "' object has no attribute 'get'"))
  end.

(** The texts of the interpreter's own errors are CPython 3's; nothing
    below depends on a particular text. *)
Definition not_subscriptable (v : json) : exn :=
  Raise TypeError ("'" +:+ type_name v +:+ "' object is not subscriptable").

(** [v[k]] for a string key [k]. *)
Definition py_getitem (v : json) (k : string) : res json :=
  match v with
  | JObj kv =>
      match dict_lookup k kv with
      | Some x => inr x
      | None => inl (Raise KeyError ("'" +:+ k +:+ "'"))
      end
  | JList _ => inl (Raise TypeError "list indices must be integers or slices, not str")
  | JStr _ => inl (Raise TypeError "string indices must be integers, not 'str'")
  | _ => inl (not_subscriptable v)
  end.

(** [v[0]] *)
Definition py_getitem0 (v : json) : res json :=
  match v with
  | JList (x :: _) => inr x
  | JList [] => inl (Raise IndexError "list index out of range")
  | JStr (String c _) => inr (JStr (String c EmptyString))
  | JStr EmptyString => inl (Raise IndexError "string index out of range")
  | JObj _ => inl (Raise KeyError "0")
  | _ => inl (not_subscriptable v)
  end.

Definition is_substring (k s : string) : bool :=
  match String.index 0 k s with Some _ => true | None => false end.

Definition is_the_string (k : string) (v : json) : bool :=
  match v with JStr s => String.eqb k s | _ => false end.

(** [k in v] for a string [k]: key of a dict, element of a list,
    substring of a string. *)
Definition py_contains (k : string) (v : json) : res bool :=
  match v with
  | JObj kv => inr (match dict_lookup k kv with Some _ => true | None => false end)
  | JList l => inr (existsb (is_the_string k) l)
  | JStr s => inr (is_substring k s)
  | _ => inl (Raise TypeError
               ("argument of type '" +:+ type_name v +:+ "' is not iterable"))
  end.

Fixpoint chars (s : string) : list json :=
  match s with
  | EmptyString => []
  | String c rest => JStr (String c EmptyString) :: chars rest
  end.

(** The items [for x in v] runs through. *)
Definition py_iter (v : json) : res (list json) :=
  match v with
  | JList l => inr l
  | JObj kv => inr (map (fun p => JStr (fst p)) kv)
  | JStr s => inr (chars s)
  | _ => inl (Raise TypeError ("'" +:+ type_name v +:+ "' object is not iterable"))
  end.

(** [v[k] = x] for a string key [k]. *)
Definition py_setitem (v : json) (k : string) (x : json) : res json :=
  match v with
  | JObj kv => inr (JObj (dict_set k x kv))
  | JList _ => inl (Raise TypeError "list indices must be integers or slices, not str")
  | _ => inl (Raise TypeError
               ("'" +:+ type_name v +:+ "' object does not support item assignment"))
  end.

(** Decimal rendering of a count or a status code. *)
Definition str_of_nat (n : nat) : string := NilZero.string_of_uint (Nat.to_uint n).
Definition str_of_Z (n : Z) : string := NilZero.string_of_int (Z.to_int n).

(** ** Calendar dates and instants *)

(** [datetime.date]: year 1..9999, month 1..12, day 1..31. *)
Record date : Type := Date { year : nat; month : nat; day : nat }.

Definition digit (n : nat) : ascii := ascii_of_nat (48 + n mod 10).

Definition digits2 (n : nat) : string :=
  String (digit (n / 10)) (String (digit n) EmptyString).

Definition digits4 (n : nat) : string := digits2 (n / 100) +:+ digits2 n.

Definition digits6 (n : nat) : string := digits2 (n / 100 / 100) +:+ digits4 n.

(** [date.isoformat()]: ["%04d-%02d-%02d"] *)
Definition date_isoformat (d : date) : string :=
  digits4 (year d) +:+ "-" +:+ digits2 (month d) +:+ "-" +:+ digits2 (day d).

(** [datetime.datetime], naive UTC. *)
Record datetime : Type := DateTime {
  dt_date : date; hour : nat; minute : nat; second : nat; microsecond : nat }.

(** [datetime.isoformat()]: the fraction is printed only when non-zero. *)
Definition datetime_isoformat (t : datetime) : string :=
  date_isoformat (dt_date t) +:+ "T" +:+ digits2 (hour t) +:+ ":"
  +:+ digits2 (minute t) +:+ ":" +:+ digits2 (second t)
  +:+ (if Nat.eqb (microsecond t) 0 then "" else "." +:+ digits6 (microsecond t)).

(** ** models.py *)

(** The three integration fields of a record, read together. *)
Record sync_state : Type := SyncState {
  remote_id : json;
  last_error : option string;
  stamped_at : option datetime }.

(** [x.isoformat() if x else None]; a date object is always true. *)
Definition isoformat_or_none (d : option date) : json :=
  match d with Some x => JStr (date_isoformat x) | None => JNull end.

Module Invoice.

(** A row of [invoices]. [amount] is the [Numeric(10, 2)] value in
    hundredths; [quickbooks_id] holds whatever [.get('Id')] gave, [JNull]
    being [None]. The two bookkeeping timestamps are not read by the
    engine and are left out. *)
Record t : Type := Make {
  id : Z;
  customer_name : string;
  invoice_date : option date;
  due_date : option date;
  invoice_number : string;
  line_description : string;
  amount : Z;
  tax_code : option string;
  quickbooks_id : json;
  upload_error : option string;
  uploaded_at : option datetime }.

Definition set_quickbooks_id (v : json) (i : t) : t :=
  Make (id i) (customer_name i) (invoice_date i) (due_date i) (invoice_number i)
       (line_description i) (amount i) (tax_code i) v (upload_error i) (uploaded_at i).
Definition set_upload_error (v : option string) (i : t) : t :=
  Make (id i) (customer_name i) (invoice_date i) (due_date i) (invoice_number i)
       (line_description i) (amount i) (tax_code i) (quickbooks_id i) v (uploaded_at i).
Definition set_uploaded_at (v : option datetime) (i : t) : t :=
  Make (id i) (customer_name i) (invoice_date i) (due_date i) (invoice_number i)
       (line_description i) (amount i) (tax_code i) (quickbooks_id i) (upload_error i) v.

Definition state (i : t) : sync_state :=
  SyncState (quickbooks_id i) (upload_error i) (uploaded_at i).

(** [self.tax_code if self.tax_code else "NON"] *)
Definition tax_code_or_NON (i : t) : string :=
  match tax_code i with
  | Some c => if String.eqb c "" then "NON" else c
  | None => "NON"
  end.

Definition to_quickbooks_json (self : t) : json :=
  JObj [
    ("Line", JList [ JObj [
       ("Amount", JFloat (amount self));
       ("DetailType", JStr "SalesItemLineDetail");
       ("SalesItemLineDetail", JObj [
          ("ItemRef", JObj [ ("value", JStr "1"); ("name", JStr "Services") ]);
          ("TaxCodeRef", JObj [ ("value", JStr (tax_code_or_NON self)) ]) ]);
       ("Description", JStr (line_description self)) ] ]);
    ("CustomerRef", JObj [ ("name", JStr (customer_name self)) ]);
    ("DocNumber", JStr (invoice_number self));
    ("TxnDate", isoformat_or_none (invoice_date self));
    ("DueDate", isoformat_or_none (due_date self)) ].

End Invoice.

Module Bill.

(** A row of [bills]; same conventions as [Invoice.t]. *)
Record t : Type := Make {
  id : Z;
  vendor_name : string;
  bill_date : option date;
  due_date : option date;
  bill_number : string;
  line_description : string;
  amount : Z;
  expense_account : string;
  quickbooks_id : json;
  upload_error : option string;
  uploaded_at : option datetime }.

Definition set_quickbooks_id (v : json) (b : t) : t :=
  Make (id b) (vendor_name b) (bill_date b) (due_date b) (bill_number b)
       (line_description b) (amount b) (expense_account b) v (upload_error b) (uploaded_at b).
Definition set_upload_error (v : option string) (b : t) : t :=
  Make (id b) (vendor_name b) (bill_date b) (due_date b) (bill_number b)
       (line_description b) (amount b) (expense_account b) (quickbooks_id b) v (uploaded_at b).
Definition set_uploaded_at (v : option datetime) (b : t) : t :=
  Make (id b) (vendor_name b) (bill_date b) (due_date b) (bill_number b)
       (line_description b) (amount b) (expense_account b) (quickbooks_id b) (upload_error b) v.

Definition state (b : t) : sync_state :=
  SyncState (quickbooks_id b) (upload_error b) (uploaded_at b).

Definition to_quickbooks_json (self : t) : json :=
  JObj [
    ("Line", JList [ JObj [
       ("Amount", JFloat (amount self));
       ("DetailType", JStr "AccountBasedExpenseLineDetail");
       ("AccountBasedExpenseLineDetail", JObj [
          ("AccountRef", JObj [ ("name", JStr (expense_account self)) ]) ]);
       ("Description", JStr (line_description self)) ] ]);
    ("VendorRef", JObj [ ("name", JStr (vendor_name self)) ]);
    ("DocNumber", JStr (bill_number self));
    ("TxnDate", isoformat_or_none (bill_date self));
    ("DueDate", isoformat_or_none (due_date self)) ].

End Bill.

(** ** State and exceptions *)

(** A computation over a state [S] that returns or raises; what it did to
    the state before raising stays done, as in Python. *)
Definition M (S A : Type) : Type := S -> res A * S.

Definition ret {S A} (a : A) : M S A := fun s => (inr a, s).

Definition raise {S A} (e : exn) : M S A := fun s => (inl e, s).

Definition bind {S A B} (m : M S A) (k : A -> M S B) : M S B :=
  fun s => match m s with
           | (inr a, s') => k a s'
           | (inl e, s') => (inl e, s')
           end.

(** [try: m  except Exception as e: h e] *)
Definition try_except {S A} (m : M S A) (h : exn -> M S A) : M S A :=
  fun s => match m s with
           | (inr a, s') => (inr a, s')
           | (inl e, s') => h e s'
           end.

(** A pure step that may raise. *)
Definition eval {S A} (r : res A) : M S A := fun s => (r, s).

Notation "'let*' x ':=' m 'in' k" := (bind m (fun x => k))
  (at level 10, x pattern, m at level 100, k at level 200).
Notation "'do' m 'then' k" := (bind m (fun _ => k))
  (at level 10, m at level 100, k at level 200).

(** Sequencing of pure steps that may raise. *)
Definition and_then {A B} (r : res A) (k : A -> res B) : res B :=
  match r with inl e => inl e | inr a => k a end.

Notation "'let?' x ':=' r 'in' k" := (and_then r (fun x => k))
  (at level 10, x name, r at level 100, k at level 200).

(** The created object out of a reply: under the query envelope or under
    its type name ([kind] is ["Invoice"] or ["Bill"]), as the [if]/[elif]
    of [create_invoice] and [create_bill] reads it. *)
Definition created_object (kind : string) (response : json) : res json :=
  let? in_envelope := py_contains "QueryResponse" response in
  let? enveloped :=
    (if in_envelope : bool
     then let? q := py_getitem response "QueryResponse" in py_contains kind q
     else inr false) in
  if enveloped : bool then
    let? q := py_getitem response "QueryResponse" in
    let? l := py_getitem q kind in
    py_getitem0 l
  else
    let? direct := py_contains kind response in
    if direct : bool then py_getitem response kind
    else inl (Raise Exception "Unexpected response format from QuickBooks").

(** ** The world outside the process *)

Inductive http_method : Type := GET | POST | PUT.

Definition method_name (m : http_method) : string :=
  match m with GET => "GET" | POST => "POST" | PUT => "PUT" end.

(** One call of [requests.get/post/put]; [json_body] is the [json=]
    argument, [JNull] when there is none. *)
Record request : Type := Request {
  method : http_method;
  url : string;
  headers : list (string * string);
  json_body : json;
  timeout : Z }.

(** What came back: [body] is what [response.json()] returns or raises. *)
Record response : Type := Response {
  status_code : Z;
  reason : string;
  text : string;
  body : res json }.

Inductive http_outcome : Type :=
| HttpRaises (e : exn)
| HttpResponds (r : response).

Inductive log_level : Type := INFO | ERROR.

(** [response.raise_for_status()], as the [requests] library defines it. *)
Definition raise_for_status (r : response) (u : string) : res unit :=
  if (400 <=? status_code r) && (status_code r <? 500) then
    inl (Raise RequestException
           (str_of_Z (status_code r) +:+ " Client Error: " +:+ reason r +:+ " for url: " +:+ u))
  else if (500 <=? status_code r) && (status_code r <? 600) then
    inl (Raise RequestException
           (str_of_Z (status_code r) +:+ " Server Error: " +:+ reason r +:+ " for url: " +:+ u))
  else inr tt.

(** How a [db.session.commit()] that reaches the database goes. Its
    flush writes the changed records of the session, and every UPDATE of
    a row reads the clock once, for [updated_at]
    ([onupdate=datetime.utcnow], models.py:36 and :108); then the
    transaction is committed. [FlushRaises] is a failure of the flush (a
    value that cannot be bound, a constraint, a lost connection),
    [CommitRaises] one of the COMMIT that follows a flush that went
    through. *)
Inductive commit_result : Type :=
| Committed
| FlushRaises (msg : string)
| CommitRaises (msg : string).

(** [updates] is the number of UPDATEs the flush got through. *)
Record commit_outcome : Type := CommitOutcome {
  updates : nat;
  outcome : commit_result }.

(** The SQLAlchemy session. A commit that raised leaves it waiting for
    [rollback()]: until then it refuses to talk to the database, and a
    further [commit()] raises. When the failure was in the flush the
    session has rolled the transaction back on its own and has expired
    the records it holds ([expired] is [true]), so that the next read of
    an attribute of one of them has to go to the database; when it was in
    the COMMIT the records are as the code left them. *)
Inductive session_state : Type :=
| Active
| AwaitsRollback (expired : bool) (cause : string).

(** [sqlalchemy.exc.PendingRollbackError], which the session raises while
    it waits; the handlers of the sources look at its class no further than
    [Exception], and at its text only to log it. *)
Definition pending_rollback (expired : bool) (cause : string) : exn :=
  Raise Exception
    (if expired
     then "This Session's transaction has been rolled back due to a previous "
          +:+ "exception during flush. To begin a new transaction with this "
          +:+ "Session, first issue Session.rollback(). Original exception was: "
          +:+ cause
     else "Can't reconnect until invalid transaction is rolled back.  Please "
          +:+ "rollback() fully before proceeding").

Section Engine.

(** The accounting platform is any state machine answering requests. *)
Variable W : Type.
Variable http : request -> W -> http_outcome * W.

(** The successive readings of [datetime.utcnow()]. *)
Variable utcnow : nat -> datetime.

(** How [str()] prints a float, a list or a dict; only names and log
    lines of such shapes would show it, and no translated record has
    one. *)
Variable py_repr : json -> string.

Record world : Type := World {
  remote : W;
  (** requests issued so far, oldest first *)
  sent : list request;
  logged : list (log_level * string);
  clock_reads : nat;
  (** how the coming [db.session.commit()] calls that reach the database
      go; past the end of the list they succeed, with one UPDATE *)
  db_faults : list commit_outcome;
  session : session_state;
  (** the persisted rows, by primary key *)
  invoice_rows : gmap Z Invoice.t;
  bill_rows : gmap Z Bill.t }.

Definition py_str (v : json) : string :=
  match v with
  | JStr s => s
  | JNull => "None"
  | JBool true => "True"
  | JBool false => "False"
  | JInt n => str_of_Z n
  | _ => py_repr v
  end.

Definition logged_line (lvl : log_level) (msg : string) (w : world) : world :=
World (remote w) (sent w) (logged w ++ [(lvl, msg)]) (clock_reads w)
      (db_faults w) (session w) (invoice_rows w) (bill_rows w).

Definition clock_read (w : world) : world :=
World (remote w) (sent w) (logged w) (S (clock_reads w))
      (db_faults w) (session w) (invoice_rows w) (bill_rows w).

(** [logger.info(msg)] / [logger.error(msg)] *)
Definition log (lvl : log_level) (msg : string) : M world unit :=
fun w => (inr tt, logged_line lvl msg w).

(** One blocking call into [requests]. *)
Definition requests_call (req : request) : M world response :=
fun w =>
  let (o, r) := http req (remote w) in
  (match o with HttpRaises e => inl e | HttpResponds resp => inr resp end,
   World r (sent w ++ [req]) (logged w) (clock_reads w)
         (db_faults w) (session w) (invoice_rows w) (bill_rows w)).

Definition datetime_utcnow : M world datetime :=
fun w => (inr (utcnow (clock_reads w)), clock_read w).

(** *** quickbooks_api.py *)

Record QuickBooksAPI : Type := {
  base_url : string;
  api_version : string;
  api_timeout : Z }.

(** [QuickBooksAPI.__init__], given [os.getenv('QUICKBOOKS_BASE_URL')]. *)
Definition QuickBooksAPI_init (env_base_url : option string) : QuickBooksAPI :=
  {| base_url := from_option id "https://sandbox-quickbooks.api.intuit.com" env_base_url;
     api_version := "v3";
     api_timeout := 30 |}.

Definition request_url (self : QuickBooksAPI) (company_id endpoint : string) : string :=
  base_url self +:+ "/" +:+ api_version self +:+ "/company/" +:+ company_id
  +:+ "/" +:+ endpoint.

Definition request_headers (access_token : string) : list (string * string) :=
  [ ("Authorization", "Bearer " +:+ access_token);
    ("Accept", "application/json");
    ("Content-Type", "application/json") ].

(** The request [_make_request] hands to [requests]; a GET carries no
    body. The callers pass the literals ['GET'] and ['POST'] only, so the
    [ValueError] for another method has no counterpart here. *)
Definition build_request (self : QuickBooksAPI) (m : http_method)
    (endpoint access_token company_id : string) (data : json) : request :=
  {| method := m;
     url := request_url self company_id endpoint;
     headers := request_headers access_token;
     json_body := match m with GET => JNull | _ => data end;
     timeout := api_timeout self |}.

Definition _make_request (self : QuickBooksAPI) (m : http_method)
    (endpoint access_token company_id : string) (data : json) : M world json :=
  try_except
    (let url := request_url self company_id endpoint in
     do log INFO ("Making " +:+ method_name m +:+ " request to: " +:+ url) then
     let* response :=
       requests_call (build_request self m endpoint access_token company_id data) in
     do log INFO ("Response status: " +:+ str_of_Z (status_code response)) then
     do (if status_code response =? 200 then ret tt
         else log ERROR ("Response content: " +:+ text response)) then
     do eval (raise_for_status response url) then
     eval (body response))
    (fun e =>
       match exn_class e with
       | Timeout =>
           do log ERROR ("Request timeout for " +:+ endpoint) then
           raise (Raise Exception ("Request timeout: " +:+ endpoint))
       | RequestException =>
           do log ERROR ("Request error for " +:+ endpoint +:+ ": " +:+ exn_str e) then
           raise (Raise Exception ("API request failed: " +:+ exn_str e))
       | JSONDecodeError =>
           do log ERROR ("JSON decode error for " +:+ endpoint +:+ ": " +:+ exn_str e) then
           raise (Raise Exception ("Invalid JSON response: " +:+ exn_str e))
       | _ =>
           do log ERROR ("Unexpected error for " +:+ endpoint +:+ ": " +:+ exn_str e) then
           raise (Raise Exception ("API error: " +:+ exn_str e))
       end).

Definition _get_or_create_customer (self : QuickBooksAPI) (customer_name : json)
    (access_token company_id : string) : M world json :=
  try_except
    (let* response :=
       _make_request self GET
         ("query?query=SELECT * FROM Customer WHERE Name = '" +:+ py_str customer_name +:+ "'")
         access_token company_id JNull in
     let* query_response := eval (py_get response "QueryResponse" (JObj [])) in
     let* customers := eval (py_get query_response "Customer" (JList [])) in
     if py_truthy customers then eval (py_getitem0 customers)
     else
       let customer_data :=
         JObj [ ("Name", customer_name); ("CompanyName", customer_name) ] in
       let* response :=
         _make_request self POST "customer" access_token company_id customer_data in
       eval (py_getitem response "Customer"))
    (fun e =>
       do log ERROR ("Failed to get/create customer " +:+ py_str customer_name
                     +:+ ": " +:+ exn_str e) then
       raise (Raise Exception ("Customer operation failed: " +:+ exn_str e))).

Definition _get_or_create_vendor (self : QuickBooksAPI) (vendor_name : json)
    (access_token company_id : string) : M world json :=
  try_except
    (let* response :=
       _make_request self GET
         ("query?query=SELECT * FROM Vendor WHERE Name = '" +:+ py_str vendor_name +:+ "'")
         access_token company_id JNull in
     let* query_response := eval (py_get response "QueryResponse" (JObj [])) in
     let* vendors := eval (py_get query_response "Vendor" (JList [])) in
     if py_truthy vendors then eval (py_getitem0 vendors)
     else
       let vendor_data :=
         JObj [ ("Name", vendor_name); ("CompanyName", vendor_name) ] in
       let* response :=
         _make_request self POST "vendor" access_token company_id vendor_data in
       eval (py_getitem response "Vendor"))
    (fun e =>
       do log ERROR ("Failed to get/create vendor " +:+ py_str vendor_name
                     +:+ ": " +:+ exn_str e) then
       raise (Raise Exception ("Vendor operation failed: " +:+ exn_str e))).

Definition _get_or_create_account (self : QuickBooksAPI) (account_name : json)
    (access_token company_id : string) : M world json :=
  try_except
    (let* response :=
       _make_request self GET
         ("query?query=SELECT * FROM Account WHERE Name = '" +:+ py_str account_name +:+ "'")
         access_token company_id JNull in
     let* query_response := eval (py_get response "QueryResponse" (JObj [])) in
     let* accounts := eval (py_get query_response "Account" (JList [])) in
     if py_truthy accounts then eval (py_getitem0 accounts)
     else
       let account_data :=
         JObj [ ("Name", account_name);
                ("AccountType", JStr "Expense");
                ("AccountSubType", JStr "OtherMiscellaneousServiceCost") ] in
       let* response :=
         _make_request self POST "account" access_token company_id account_data in
       eval (py_getitem response "Account"))
    (fun e =>
       do log ERROR ("Failed to get/create account " +:+ py_str account_name
                     +:+ ": " +:+ exn_str e) then
       raise (Raise Exception ("Account operation failed: " +:+ exn_str e))).

Definition create_invoice (self : QuickBooksAPI) (invoice_data : json)
    (access_token company_id : string) : M world json :=
  try_except
    (let* doc_number := eval (py_get invoice_data "DocNumber" (JStr "No doc number")) in
     do log INFO ("Creating invoice: " +:+ py_str doc_number) then
     let* customer_ref := eval (py_get invoice_data "CustomerRef" (JObj [])) in
     let* customer_name := eval (py_get customer_ref "name" JNull) in
     let* invoice_data :=
       (if py_truthy customer_name then
          let* customer :=
            _get_or_create_customer self customer_name access_token company_id in
          let* customer_id := eval (py_getitem customer "Id") in
          eval (py_setitem invoice_data "CustomerRef" (JObj [ ("value", customer_id) ]))
        else ret invoice_data) in
     let* response :=
       _make_request self POST "invoice" access_token company_id invoice_data in
     let* created_invoice := eval (created_object "Invoice" response) in
     let* created_id := eval (py_get created_invoice "Id" JNull) in
     do log INFO ("Successfully created invoice with ID: " +:+ py_str created_id) then
     ret created_invoice)
    (fun e =>
       do log ERROR ("Failed to create invoice: " +:+ exn_str e) then
       raise (Raise Exception ("Invoice creation failed: " +:+ exn_str e))).

(** One turn of the loop over [bill_data.get('Line', [])]: the account
    named in the line is resolved and the line's reference rewritten. *)
Definition resolve_line_account (self : QuickBooksAPI)
    (access_token company_id : string) (line : json) : M world json :=
  let* has_detail := eval (py_contains "AccountBasedExpenseLineDetail" line) in
  if has_detail : bool then
    let* detail := eval (py_getitem line "AccountBasedExpenseLineDetail") in
    let* account_ref := eval (py_getitem detail "AccountRef") in
    let* account_name := eval (py_getitem account_ref "name") in
    let* account := _get_or_create_account self account_name access_token company_id in
    let* account_id := eval (py_getitem account "Id") in
    let* detail := eval (py_setitem detail "AccountRef" (JObj [ ("value", account_id) ])) in
    eval (py_setitem line "AccountBasedExpenseLineDetail" detail)
  else ret line.

Fixpoint resolve_lines (self : QuickBooksAPI) (access_token company_id : string)
    (lines : list json) : M world (list json) :=
  match lines with
  | [] => ret []
  | line :: rest =>
      let* line := resolve_line_account self access_token company_id line in
      let* rest := resolve_lines self access_token company_id rest in
      ret (line :: rest)
  end.

(** The lines are rewritten in place: the payload sees them only when
    its ['Line'] is a list (iterating a dict or a string yields fresh
    strings, and the default [[]] is not part of the payload). *)
Definition with_lines (bill_data : json) (lines : list json) : json :=
  match bill_data with
  | JObj kv =>
      match dict_lookup "Line" kv with
      | Some (JList _) => JObj (dict_set "Line" (JList lines) kv)
      | _ => bill_data
      end
  | _ => bill_data
  end.

Definition create_bill (self : QuickBooksAPI) (bill_data : json)
    (access_token company_id : string) : M world json :=
  try_except
    (let* doc_number := eval (py_get bill_data "DocNumber" (JStr "No doc number")) in
     do log INFO ("Creating bill: " +:+ py_str doc_number) then
     let* vendor_ref := eval (py_get bill_data "VendorRef" (JObj [])) in
     let* vendor_name := eval (py_get vendor_ref "name" JNull) in
     let* bill_data :=
       (if py_truthy vendor_name then
          let* vendor :=
            _get_or_create_vendor self vendor_name access_token company_id in
          let* vendor_id := eval (py_getitem vendor "Id") in
          eval (py_setitem bill_data "VendorRef" (JObj [ ("value", vendor_id) ]))
        else ret bill_data) in
     let* line_value := eval (py_get bill_data "Line" (JList [])) in
     let* lines := eval (py_iter line_value) in
     let* lines := resolve_lines self access_token company_id lines in
     let bill_data := with_lines bill_data lines in
     let* response :=
       _make_request self POST "bill" access_token company_id bill_data in
     let* created_bill := eval (created_object "Bill" response) in
     let* created_id := eval (py_get created_bill "Id" JNull) in
     do log INFO ("Successfully created bill with ID: " +:+ py_str created_id) then
     ret created_bill)
    (fun e =>
       do log ERROR ("Failed to create bill: " +:+ exn_str e) then
       raise (Raise Exception ("Bill creation failed: " +:+ exn_str e))).

(** *** The document at hand and the database session *)

(** Code that works on one record mutates it in place: the record is
    part of the state, next to the world. The records of a list are
    distinct objects, as a query returns them. A record handed to the
    engine is loaded, so reading its attributes does not raise; only the
    flush of a commit that failed expires it under the hands of the code
    (see [read_doc]). *)
Definition on_world {D A} (m : M world A) : M (D * world) A :=
  fun s => let (r, w) := m (snd s) in (r, (fst s, w)).

Definition the_doc {D} : M (D * world) D := fun s => (inr (fst s), s).

Definition update_doc {D} (f : D -> D) : M (D * world) unit :=
  fun s => (inr tt, (f (fst s), snd s)).

(** Runs [m] on the record [d] and hands the record back. *)
Definition with_doc {D A} (d : D) (m : M (D * world) A) : M world (A * D) :=
  fun w => match m (d, w) with
           | (inr a, (d', w')) => (inr (a, d'), w')
           | (inl e, (_, w')) => (inl e, w')
           end.

Definition set_db_faults (f : list commit_outcome) (w : world) : world :=
  World (remote w) (sent w) (logged w) (clock_reads w) f (session w)
        (invoice_rows w) (bill_rows w).

Definition set_session (s : session_state) (w : world) : world :=
  World (remote w) (sent w) (logged w) (clock_reads w) (db_faults w) s
        (invoice_rows w) (bill_rows w).

(** [n] readings of the clock. *)
Definition clock_read_times (n : nat) (w : world) : world :=
  World (remote w) (sent w) (logged w) (n + clock_reads w) (db_faults w) (session w)
        (invoice_rows w) (bill_rows w).

Definition store_invoice (i : Invoice.t) (w : world) : world :=
  World (remote w) (sent w) (logged w) (clock_reads w) (db_faults w) (session w)
        (<[Invoice.id i := i]> (invoice_rows w)) (bill_rows w).

Definition store_bill (b : Bill.t) (w : world) : world :=
  World (remote w) (sent w) (logged w) (clock_reads w) (db_faults w) (session w)
        (invoice_rows w) (<[Bill.id b := b]> (bill_rows w)).

(** How the next commit that reaches the database goes. *)
Definition next_commit (w : world) : commit_outcome :=
  match db_faults w with
  | o :: _ => o
  | [] => CommitOutcome 1 Committed
  end.

(** The world once the flush of that commit has run. *)
Definition flushed (w : world) : world :=
  clock_read_times (updates (next_commit w)) (set_db_faults (tail (db_faults w)) w).

(** [db.session.commit()] with the record at hand as the changed record
    whose row the engine reads again. A session that waits for
    [rollback()] raises at once. Otherwise the flush runs; when it and the
    COMMIT go through the row takes the record's state, when either
    raises the row stays and the session waits for [rollback()]. Whether
    they go through is the database's to say, also where the record
    itself is the cause. *)
Definition db_session_commit {D} (store : D -> world -> world) : M (D * world) unit :=
  fun s =>
    match session (snd s) with
    | AwaitsRollback expired cause => (inl (pending_rollback expired cause), s)
    | Active =>
        match outcome (next_commit (snd s)) with
        | Committed => (inr tt, (fst s, store (fst s) (flushed (snd s))))
        | FlushRaises msg =>
            (inl (Raise Exception msg),
             (fst s, set_session (AwaitsRollback true msg) (flushed (snd s))))
        | CommitRaises msg =>
            (inl (Raise Exception msg),
             (fst s, set_session (AwaitsRollback false msg) (flushed (snd s))))
        end
    end.

(** [db.session.rollback()]: the session is usable again, uncommitted
    attribute changes are dropped and the record reads as its row; a record
    that has no row keeps its attributes. *)
Definition db_session_rollback {D} (row : D -> world -> option D) : M (D * world) unit :=
  fun s => (inr tt, (from_option id (fst s) (row (fst s) (snd s)),
                     set_session Active (snd s))).

(** Reading an attribute of the record at hand after a commit was tried:
    a record that a failed flush has expired is loaded again first, and
    the session refuses that until it is rolled back. *)
Definition read_doc {D} : M (D * world) D :=
  fun s =>
    match session (snd s) with
    | AwaitsRollback true cause => (inl (pending_rollback true cause), s)
    | _ => (inr (fst s), s)
    end.

Definition invoice_row (i : Invoice.t) (w : world) : option Invoice.t :=
  invoice_rows w !! Invoice.id i.

Definition bill_row (b : Bill.t) (w : world) : option Bill.t :=
  bill_rows w !! Bill.id b.

(** *** bulk_upload.py *)

Record BulkUploader : Type := { qb_api : QuickBooksAPI }.

(** One of [results['invoices']], [results['bills']]. *)
Record variant_result : Type := VariantResult {
  total : nat;
  successful : nat;
  failed : nat;
  details : list json }.

Record summary : Type := Summary {
  total_processed : nat;
  total_successful : nat;
  total_failed : nat;
  upload_timestamp : string }.

Record report : Type := Report {
  report_invoices : variant_result;
  report_bills : variant_result;
  report_summary : summary }.

Definition record_success (d : json) (r : variant_result) : variant_result :=
  VariantResult (total r) (S (successful r)) (failed r) (details r ++ [d]).

Definition record_failure (d : json) (r : variant_result) : variant_result :=
  VariantResult (total r) (successful r) (S (failed r)) (details r ++ [d]).

Definition invoice_success_detail (invoice : Invoice.t) : json :=
  JObj [ ("id", JInt (Invoice.id invoice));
         ("invoice_number", JStr (Invoice.invoice_number invoice));
         ("customer_name", JStr (Invoice.customer_name invoice));
         ("amount", JFloat (Invoice.amount invoice));
         ("status", JStr "success");
         ("quickbooks_id", Invoice.quickbooks_id invoice);
         ("message", JStr "Successfully uploaded to QuickBooks") ].

Definition invoice_failure_detail (invoice : Invoice.t) (error_message : string) : json :=
  JObj [ ("id", JInt (Invoice.id invoice));
         ("invoice_number", JStr (Invoice.invoice_number invoice));
         ("customer_name", JStr (Invoice.customer_name invoice));
         ("amount", JFloat (Invoice.amount invoice));
         ("status", JStr "failed");
         ("quickbooks_id", JNull);
         ("message", JStr error_message);
         ("error", JStr error_message) ].

(** The first [try]/[except] of the loop body of [_upload_invoices]
    (lines 89-137). [result] is written only where nothing can raise any
    more, so it is passed along instead of being kept in the state.
    [float(invoice.amount)] is total on a [Numeric] column that is not
    nullable, in the handler as in the body. *)
Definition sync_invoice (self : BulkUploader) (result : variant_result)
    (access_token company_id : string) : M (Invoice.t * world) variant_result :=
  try_except
    (let* invoice := the_doc in
     let qb_invoice_data := Invoice.to_quickbooks_json invoice in
     let* qb_response :=
       on_world (create_invoice (qb_api self) qb_invoice_data access_token company_id) in
     let* remote_id := eval (py_get qb_response "Id" JNull) in
     do update_doc (Invoice.set_quickbooks_id remote_id) then
     let* now := on_world datetime_utcnow in
     do update_doc (Invoice.set_uploaded_at (Some now)) then
     do update_doc (Invoice.set_upload_error None) then
     let* invoice := the_doc in
     let result := record_success (invoice_success_detail invoice) result in
     do on_world (log INFO ("Successfully uploaded invoice "
                            +:+ Invoice.invoice_number invoice)) then
     ret result)
    (fun e =>
       let error_message := exn_str e in
       let* invoice := the_doc in
       do on_world (log ERROR ("Failed to upload invoice "
                               +:+ Invoice.invoice_number invoice +:+ ": "
                               +:+ error_message)) then
       do update_doc (Invoice.set_upload_error (Some error_message)) then
       let* invoice := the_doc in
       ret (record_failure (invoice_failure_detail invoice error_message) result)).

(** The second [try]/[except] of the loop body (lines 140-144). The
    handler formats [invoice.invoice_number] into its log line before it
    rolls back (line 143 before line 144), and what that read raises
    leaves the handler: nothing encloses it. *)
Definition commit_invoice : M (Invoice.t * world) unit :=
  try_except
    (db_session_commit store_invoice)
    (fun e =>
       let* invoice := read_doc in
       do on_world (log ERROR ("Database commit error for invoice "
                               +:+ Invoice.invoice_number invoice +:+ ": "
                               +:+ exn_str e)) then
       db_session_rollback invoice_row).

(** One turn of [for invoice in invoices]: the attempt, then the commit. *)
Definition invoice_turn (self : BulkUploader) (result : variant_result)
    (access_token company_id : string) : M (Invoice.t * world) variant_result :=
  let* result := sync_invoice self result access_token company_id in
  do commit_invoice then
  ret result.

Fixpoint for_each_invoice (self : BulkUploader) (access_token company_id : string)
    (invoices : list Invoice.t) (result : variant_result)
  : M world (variant_result * list Invoice.t) :=
  match invoices with
  | [] => ret (result, [])
  | invoice :: rest =>
      let* (result, invoice) :=
        with_doc invoice (invoice_turn self result access_token company_id) in
      let* (result, rest) := for_each_invoice self access_token company_id rest result in
      ret (result, invoice :: rest)
  end.

(** Returns [result]; the records, mutated in place by the source, are
    handed back next to it. *)
Definition _upload_invoices (self : BulkUploader) (invoices : list Invoice.t)
    (access_token company_id : string) : M world (variant_result * list Invoice.t) :=
  for_each_invoice self access_token company_id invoices
    (VariantResult (length invoices) 0 0 []).

Definition bill_success_detail (bill : Bill.t) : json :=
  JObj [ ("id", JInt (Bill.id bill));
         ("bill_number", JStr (Bill.bill_number bill));
         ("vendor_name", JStr (Bill.vendor_name bill));
         ("amount", JFloat (Bill.amount bill));
         ("status", JStr "success");
         ("quickbooks_id", Bill.quickbooks_id bill);
         ("message", JStr "Successfully uploaded to QuickBooks") ].

Definition bill_failure_detail (bill : Bill.t) (error_message : string) : json :=
  JObj [ ("id", JInt (Bill.id bill));
         ("bill_number", JStr (Bill.bill_number bill));
         ("vendor_name", JStr (Bill.vendor_name bill));
         ("amount", JFloat (Bill.amount bill));
         ("status", JStr "failed");
         ("quickbooks_id", JNull);
         ("message", JStr error_message);
         ("error", JStr error_message) ].

(** Lines 158-206 of [_upload_bills]. *)
Definition sync_bill (self : BulkUploader) (result : variant_result)
    (access_token company_id : string) : M (Bill.t * world) variant_result :=
  try_except
    (let* bill := the_doc in
     let qb_bill_data := Bill.to_quickbooks_json bill in
     let* qb_response :=
       on_world (create_bill (qb_api self) qb_bill_data access_token company_id) in
     let* remote_id := eval (py_get qb_response "Id" JNull) in
     do update_doc (Bill.set_quickbooks_id remote_id) then
     let* now := on_world datetime_utcnow in
     do update_doc (Bill.set_uploaded_at (Some now)) then
     do update_doc (Bill.set_upload_error None) then
     let* bill := the_doc in
     let result := record_success (bill_success_detail bill) result in
     do on_world (log INFO ("Successfully uploaded bill " +:+ Bill.bill_number bill)) then
     ret result)
    (fun e =>
       let error_message := exn_str e in
       let* bill := the_doc in
       do on_world (log ERROR ("Failed to upload bill " +:+ Bill.bill_number bill
                               +:+ ": " +:+ error_message)) then
       do update_doc (Bill.set_upload_error (Some error_message)) then
       let* bill := the_doc in
       ret (record_failure (bill_failure_detail bill error_message) result)).

(** Lines 209-213; [bill.bill_number] is read at line 212, the rollback
    is at line 213. *)
Definition commit_bill : M (Bill.t * world) unit :=
  try_except
    (db_session_commit store_bill)
    (fun e =>
       let* bill := read_doc in
       do on_world (log ERROR ("Database commit error for bill "
                               +:+ Bill.bill_number bill +:+ ": " +:+ exn_str e)) then
       db_session_rollback bill_row).

(** One turn of [for bill in bills]. *)
Definition bill_turn (self : BulkUploader) (result : variant_result)
    (access_token company_id : string) : M (Bill.t * world) variant_result :=
  let* result := sync_bill self result access_token company_id in
  do commit_bill then
  ret result.

Fixpoint for_each_bill (self : BulkUploader) (access_token company_id : string)
    (bills : list Bill.t) (result : variant_result)
  : M world (variant_result * list Bill.t) :=
  match bills with
  | [] => ret (result, [])
  | bill :: rest =>
      let* (result, bill) :=
        with_doc bill (bill_turn self result access_token company_id) in
      let* (result, rest) := for_each_bill self access_token company_id rest result in
      ret (result, bill :: rest)
  end.

Definition _upload_bills (self : BulkUploader) (bills : list Bill.t)
    (access_token company_id : string) : M world (variant_result * list Bill.t) :=
  for_each_bill self access_token company_id bills
    (VariantResult (length bills) 0 0 []).

(** [if invoices:] *)
Definition nonempty {A} (l : list A) : bool :=
  match l with [] => false | _ => true end.

(** Returns [results]; the records of both lists are handed back next
    to it, as the calls left them. *)
Definition upload_all (self : BulkUploader) (invoices : list Invoice.t)
    (bills : list Bill.t) (access_token company_id : string)
  : M world (report * (list Invoice.t * list Bill.t)) :=
  let* now := datetime_utcnow in
  let results_invoices := VariantResult (length invoices) 0 0 [] in
  let results_bills := VariantResult (length bills) 0 0 [] in
  let processed := (length invoices + length bills)%nat in
  let* (results_invoices, invoices) :=
    (if nonempty invoices then
       do log INFO ("Starting bulk upload of " +:+ str_of_nat (length invoices)
                    +:+ " invoices") then
       _upload_invoices self invoices access_token company_id
     else ret (results_invoices, invoices)) in
  let* (results_bills, bills) :=
    (if nonempty bills then
       do log INFO ("Starting bulk upload of " +:+ str_of_nat (length bills)
                    +:+ " bills") then
       _upload_bills self bills access_token company_id
     else ret (results_bills, bills)) in
  let results_summary :=
    Summary processed
            (successful results_invoices + successful results_bills)%nat
            (failed results_invoices + failed results_bills)%nat
            (datetime_isoformat now) in
  do log INFO ("Bulk upload completed: "
               +:+ str_of_nat (total_successful results_summary) +:+ " successful, "
               +:+ str_of_nat (total_failed results_summary) +:+ " failed out of "
               +:+ str_of_nat (total_processed results_summary) +:+ " total") then
  ret (Report results_invoices results_bills results_summary, (invoices, bills)).

Definition upload_single_invoice (self : BulkUploader)
    (access_token company_id : string) : M (Invoice.t * world) json :=
  try_except
    (let* invoice := the_doc in
     let qb_invoice_data := Invoice.to_quickbooks_json invoice in
     let* qb_response :=
       on_world (create_invoice (qb_api self) qb_invoice_data access_token company_id) in
     let* remote_id := eval (py_get qb_response "Id" JNull) in
     do update_doc (Invoice.set_quickbooks_id remote_id) then
     let* now := on_world datetime_utcnow in
     do update_doc (Invoice.set_uploaded_at (Some now)) then
     do update_doc (Invoice.set_upload_error None) then
     do db_session_commit store_invoice then
     let* invoice := the_doc in
     ret (JObj [ ("status", JStr "success");
                 ("quickbooks_id", Invoice.quickbooks_id invoice);
                 ("message", JStr "Successfully uploaded to QuickBooks") ]))
    (fun e =>
       let error_message := exn_str e in
       do update_doc (Invoice.set_upload_error (Some error_message)) then
       do db_session_commit store_invoice then
       ret (JObj [ ("status", JStr "failed");
                   ("error", JStr error_message);
                   ("message", JStr ("Upload failed: " +:+ error_message)) ])).

Definition upload_single_bill (self : BulkUploader)
    (access_token company_id : string) : M (Bill.t * world) json :=
  try_except
    (let* bill := the_doc in
     let qb_bill_data := Bill.to_quickbooks_json bill in
     let* qb_response :=
       on_world (create_bill (qb_api self) qb_bill_data access_token company_id) in
     let* remote_id := eval (py_get qb_response "Id" JNull) in
     do update_doc (Bill.set_quickbooks_id remote_id) then
     let* now := on_world datetime_utcnow in
     do update_doc (Bill.set_uploaded_at (Some now)) then
     do update_doc (Bill.set_upload_error None) then
     do db_session_commit store_bill then
     let* bill := the_doc in
     ret (JObj [ ("status", JStr "success");
                 ("quickbooks_id", Bill.quickbooks_id bill);
                 ("message", JStr "Successfully uploaded to QuickBooks") ]))
    (fun e =>
       let error_message := exn_str e in
       do update_doc (Bill.set_upload_error (Some error_message)) then
       do db_session_commit store_bill then
       ret (JObj [ ("status", JStr "failed");
                   ("error", JStr error_message);
                   ("message", JStr ("Upload failed: " +:+ error_message)) ])).

(** [Model.query.filter(pred).count()] over the persisted rows. *)
Definition count_rows {A} (pred : A -> bool) (rows : gmap Z A) : Z :=
  Z.of_nat (length (List.filter (fun kv => pred (snd kv)) (map_to_list rows))).

Definition is_not_none (v : json) : bool :=
  match v with JNull => false | _ => true end.

Definition is_some {A} (o : option A) : bool :=
  match o with Some _ => true | None => false end.

Record counts : Type := Counts {
  count_total : Z;
  count_uploaded : Z;
  count_pending : Z;
  count_failed : Z }.

Record statistics : Type := Statistics {
  stat_invoices : counts;
  stat_bills : counts;
  stat_overall : counts }.

(** Reads the database only. *)
Definition get_upload_statistics (w : world) : statistics :=
  let total_invoices := count_rows (fun _ => true) (invoice_rows w) in
  let uploaded_invoices :=
    count_rows (fun i => is_not_none (Invoice.quickbooks_id i)) (invoice_rows w) in
  let failed_invoices :=
    count_rows (fun i => is_some (Invoice.upload_error i)) (invoice_rows w) in
  let total_bills := count_rows (fun _ => true) (bill_rows w) in
  let uploaded_bills :=
    count_rows (fun b => is_not_none (Bill.quickbooks_id b)) (bill_rows w) in
  let failed_bills :=
    count_rows (fun b => is_some (Bill.upload_error b)) (bill_rows w) in
  Statistics
    (Counts total_invoices uploaded_invoices
            (total_invoices - uploaded_invoices) failed_invoices)
    (Counts total_bills uploaded_bills (total_bills - uploaded_bills) failed_bills)
    (Counts (total_invoices + total_bills)
            (uploaded_invoices + uploaded_bills)
            ((total_invoices - uploaded_invoices) + (total_bills - uploaded_bills))
            (failed_invoices + failed_bills)).

(** *** Vocabulary of the properties *)

(** The two guarded calls of [upload_all], its summary and its last log
    line, named. *)
Definition guarded_invoices (self : BulkUploader) (invoices : list Invoice.t)
    (access_token company_id : string) : M world (variant_result * list Invoice.t) :=
  if nonempty invoices
  then do log INFO ("Starting bulk upload of " +:+ str_of_nat (length invoices)
                    +:+ " invoices")
       then _upload_invoices self invoices access_token company_id
  else ret (VariantResult (length invoices) 0 0 [], invoices).

Definition guarded_bills (self : BulkUploader) (bills : list Bill.t)
    (access_token company_id : string) : M world (variant_result * list Bill.t) :=
  if nonempty bills
  then do log INFO ("Starting bulk upload of " +:+ str_of_nat (length bills)
                    +:+ " bills")
       then _upload_bills self bills access_token company_id
  else ret (VariantResult (length bills) 0 0 [], bills).

Definition summary_of (invoices : list Invoice.t) (bills : list Bill.t)
    (ri rb : variant_result) (now : datetime) : summary :=
  Summary (length invoices + length bills)
          (successful ri + successful rb) (failed ri + failed rb)
          (datetime_isoformat now).

Definition completion_line (s : summary) : string :=
  "Bulk upload completed: "
  +:+ str_of_nat (total_successful s) +:+ " successful, "
  +:+ str_of_nat (total_failed s) +:+ " failed out of "
  +:+ str_of_nat (total_processed s) +:+ " total".

(** The database side of the world. *)
Definition db_of (w : world)
  : list commit_outcome * session_state * gmap Z Invoice.t * gmap Z Bill.t :=
  (db_faults w, session w, invoice_rows w, bill_rows w).

(** A computation that leaves the database and the clock alone. *)
Definition keeps_db {A} (m : M world A) : Prop :=
  forall w, db_of (snd (m w)) = db_of w /\ clock_reads (snd (m w)) = clock_reads w.

(** Two worlds with the same platform, the same requests behind them and
    the same clock; the database and the log may differ. *)
Definition same_platform (w1 w2 : world) : Prop :=
  remote w1 = remote w2 /\ sent w1 = sent w2 /\ clock_reads w1 = clock_reads w2.

(** The three resolvers, by kind. *)
Inductive entity_kind : Type := Customer | Vendor | Account.

Definition kind_name (k : entity_kind) : string :=
  match k with Customer => "Customer" | Vendor => "Vendor" | Account => "Account" end.

Definition resolve (k : entity_kind) (self : QuickBooksAPI) (name : json)
    (access_token company_id : string) : M world json :=
  match k with
  | Customer => _get_or_create_customer self name access_token company_id
  | Vendor => _get_or_create_vendor self name access_token company_id
  | Account => _get_or_create_account self name access_token company_id
  end.

Definition lookup_endpoint (k : entity_kind) (name : json) : string :=
  match k with
  | Customer => "query?query=SELECT * FROM Customer WHERE Name = '" +:+ py_str name +:+ "'"
  | Vendor => "query?query=SELECT * FROM Vendor WHERE Name = '" +:+ py_str name +:+ "'"
  | Account => "query?query=SELECT * FROM Account WHERE Name = '" +:+ py_str name +:+ "'"
  end.

Definition create_endpoint (k : entity_kind) : string :=
  match k with Customer => "customer" | Vendor => "vendor" | Account => "account" end.

Definition create_payload (k : entity_kind) (name : json) : json :=
  match k with
  | Customer | Vendor => JObj [ ("Name", name); ("CompanyName", name) ]
  | Account => JObj [ ("Name", name);
                      ("AccountType", JStr "Expense");
                      ("AccountSubType", JStr "OtherMiscellaneousServiceCost") ]
  end.

(** [response.get('QueryResponse', {}).get(kind, [])] *)
Definition matches (k : entity_kind) (response : json) : res json :=
  let? query_response := py_get response "QueryResponse" (JObj []) in
  py_get query_response (kind_name k) (JList []).

End Engine.

Arguments World {W}.
Arguments remote {W}.
Arguments sent {W}.
Arguments logged {W}.
Arguments clock_reads {W}.
Arguments db_faults {W}.
Arguments session {W}.
Arguments invoice_rows {W}.
Arguments bill_rows {W}.
Arguments logged_line {W}.
Arguments clock_read {W}.
Arguments log {W}.
Arguments requests_call {W}.
Arguments datetime_utcnow {W}.
Arguments _make_request {W}.
Arguments _get_or_create_customer {W}.
Arguments _get_or_create_vendor {W}.
Arguments _get_or_create_account {W}.
Arguments create_invoice {W}.
Arguments resolve_line_account {W}.
Arguments resolve_lines {W}.
Arguments create_bill {W}.
Arguments on_world {W D A}.
Arguments the_doc {W D}.
Arguments update_doc {W D}.
Arguments with_doc {W D A}.
Arguments set_db_faults {W}.
Arguments set_session {W}.
Arguments clock_read_times {W}.
Arguments next_commit {W}.
Arguments flushed {W}.
Arguments read_doc {W D}.
Arguments store_invoice {W}.
Arguments store_bill {W}.
Arguments db_session_commit {W D}.
Arguments db_session_rollback {W D}.
Arguments invoice_row {W}.
Arguments bill_row {W}.
Arguments sync_invoice {W}.
Arguments commit_invoice {W}.
Arguments invoice_turn {W}.
Arguments for_each_invoice {W}.
Arguments _upload_invoices {W}.
Arguments sync_bill {W}.
Arguments commit_bill {W}.
Arguments bill_turn {W}.
Arguments for_each_bill {W}.
Arguments _upload_bills {W}.
Arguments upload_all {W}.
Arguments upload_single_invoice {W}.
Arguments upload_single_bill {W}.
Arguments get_upload_statistics {W}.
Arguments guarded_invoices {W}.
Arguments guarded_bills {W}.
Arguments db_of {W}.
Arguments keeps_db W {A}.
Arguments same_platform {W}.
Arguments resolve {W}.


(** ** Vocabulary of the properties *)

(** What the success branch of an attempt leaves in the record. *)
Definition uploaded_invoice (remote_id : json) (now : datetime) (i : Invoice.t) : Invoice.t :=
  Invoice.set_upload_error None
    (Invoice.set_uploaded_at (Some now) (Invoice.set_quickbooks_id remote_id i)).

Definition uploaded_bill (remote_id : json) (now : datetime) (b : Bill.t) : Bill.t :=
  Bill.set_upload_error None
    (Bill.set_uploaded_at (Some now) (Bill.set_quickbooks_id remote_id b)).

(** [d.get('Id')] of a dict given by its fields. *)
Definition id_of (fields : list (string * json)) : json :=
  from_option id JNull (dict_lookup "Id" fields).

(** The two dicts a single upload returns. *)
Definition single_success (remote_id : json) : json :=
  JObj [ ("status", JStr "success");
         ("quickbooks_id", remote_id);
         ("message", JStr "Successfully uploaded to QuickBooks") ].

Definition single_failure (error_message : string) : json :=
  JObj [ ("status", JStr "failed");
         ("error", JStr error_message);
         ("message", JStr ("Upload failed: " +:+ error_message)) ].

(** The success branch applied: the id taken from the reply, the stamp
    set, the error cleared. *)
Definition success_applied (id_from_reply : json) (after : sync_state) : Prop :=
  remote_id after = id_from_reply
  /\ (exists now, stamped_at after = Some now)
  /\ last_error after = None.

(** The failure branch applied: the error set, the rest as it was. *)
Definition failure_applied (message : string) (before after : sync_state) : Prop :=
  last_error after = Some message
  /\ remote_id after = remote_id before
  /\ stamped_at after = stamped_at before.

(** "quickbooks_id is set and upload_error is null", "upload_error is
    set", and exactly one of the two. *)
Definition uploaded_clean (s : sync_state) : bool :=
  is_not_none (remote_id s) && negb (is_some (last_error s)).

Definition has_error (s : sync_state) : bool := is_some (last_error s).

Definition exactly_one_state (s : sync_state) : bool :=
  xorb (uploaded_clean s) (has_error s).

(** "whenever upload_error is set, quickbooks_id is null" *)
Definition error_only_when_pending (s : sync_state) : bool :=
  implb (has_error s) (negb (is_not_none (remote_id s))).

Definition rows_consistent {W} (w : world W) : Prop :=
  (forall k i, invoice_rows w !! k = Some i ->
               error_only_when_pending (Invoice.state i) = true)
  /\ (forall k b, bill_rows w !! k = Some b ->
                  error_only_when_pending (Bill.state b) = true).

(** Whether the next [db.session.commit()] raises. *)
Definition commit_raises_next {W} (w : world W) : bool :=
  match session w with
  | AwaitsRollback _ _ => true
  | Active => match outcome (next_commit w) with Committed => false | _ => true end
  end.

(** Whether the next commit fails in a way that expires the records, or
    the session has done so already. *)
Definition flush_raises_next {W} (w : world W) : bool :=
  match session w with
  | AwaitsRollback expired _ => expired
  | Active => match outcome (next_commit w) with FlushRaises _ => true | _ => false end
  end.

Definition is_committed (o : commit_outcome) : bool :=
  match outcome o with Committed => true | _ => false end.

Definition is_flush_failure (o : commit_outcome) : bool :=
  match outcome o with FlushRaises _ => true | _ => false end.

(** The UPDATEs of the next [n] commits that reach the database. *)
Fixpoint updates_to_come (n : nat) (faults : list commit_outcome) : nat :=
  match n with
  | O => O
  | S n =>
      match faults with
      | o :: rest => (updates o + updates_to_come n rest)%nat
      | [] => S (updates_to_come n [])
      end
  end.

(** No commit to come raises. *)
Definition no_commit_fails {W} (w : world W) : Prop :=
  session w = Active /\ Forall (fun o => is_committed o = true) (db_faults w).

(** No commit to come fails in its flush, and no record is expired. *)
Definition no_flush_fails {W} (w : world W) : Prop :=
  (forall cause, session w <> AwaitsRollback true cause)
  /\ Forall (fun o => is_flush_failure o = false) (db_faults w).

(** Whether a key occurs anywhere inside a value. *)
Fixpoint mentions_key (k : string) (v : json) : bool :=
  match v with
  | JList l => existsb (mentions_key k) l
  | JObj kv =>
      existsb (fun p => let (k', x) := p : string * json in
                        String.eqb k k' || mentions_key k x) kv
  | _ => false
  end.

Definition is_digit (c : ascii) : bool :=
  (48 <=? nat_of_ascii c)%nat && (nat_of_ascii c <=? 57)%nat.

Definition is_dash (c : ascii) : bool := Ascii.eqb c "-".

(** The shape [YYYY-MM-DD] of an ISO 8601 calendar date. *)
Definition is_iso_date (s : string) : bool :=
  match s with
  | String y1 (String y2 (String y3 (String y4 (String s1
      (String m1 (String m2 (String s2 (String d1 (String d2 EmptyString))))))))) =>
      is_digit y1 && is_digit y2 && is_digit y3 && is_digit y4 && is_dash s1
      && is_digit m1 && is_digit m2 && is_dash s2 && is_digit d1 && is_digit d2
  | _ => false
  end.

Definition digit_value (c : ascii) : nat := (nat_of_ascii c - 48)%nat.

(** The date a string of that shape denotes. *)
Definition read_iso_date (s : string) : option date :=
  match s with
  | String y1 (String y2 (String y3 (String y4 (String s1
      (String m1 (String m2 (String s2 (String d1 (String d2 EmptyString))))))))) =>
      if is_iso_date s then
        Some (Date (1000 * digit_value y1 + 100 * digit_value y2
                    + 10 * digit_value y3 + digit_value y4)
                   (10 * digit_value m1 + digit_value m2)
                   (10 * digit_value d1 + digit_value d2))
      else None
  | _ => None
  end.

(** ** A scripted platform for the closed examples *)

Module Sample.

(** The platform answers with the next outcome of a script, and times out
    when the script is over. *)
Definition timed_out : http_outcome := HttpRaises (Raise Timeout "read timed out").

Definition scripted (req : request) (script : list http_outcome)
  : http_outcome * list http_outcome :=
  match script with
  | o :: rest => (o, rest)
  | [] => (timed_out, [])
  end.

Definition ok (v : json) : http_outcome := HttpResponds (Response 200 "OK" "" (inr v)).

Definition clock (n : nat) : datetime := DateTime (Date 2024 1 2) 3 4 5 0.

Definition repr (v : json) : string := "".

Definition uploader : BulkUploader := {| qb_api := QuickBooksAPI_init None |}.

Definition start (script : list http_outcome) (faults : list commit_outcome)
  : world (list http_outcome) :=
  World script [] [] 0 faults Active ∅ ∅.

Definition acme : Invoice.t :=
  Invoice.Make 1 "Acme" (Some (Date 2024 3 9)) None "INV-1" "Consulting" 10000 None
               JNull None None.

Definition rent : Bill.t :=
  Bill.Make 1 "Landlord" (Some (Date 2024 3 1)) (Some (Date 2024 3 31)) "BILL-1"
            "Office rent" 250000 "Rent" JNull None None.

(** Replies of the platform. *)
Definition no_match : http_outcome := ok (JObj [ ("QueryResponse", JObj []) ]).

Definition customer_found : http_outcome :=
  ok (JObj [ ("QueryResponse",
              JObj [ ("Customer", JList [ JObj [ ("Id", JStr "7") ];
                                          JObj [ ("Id", JStr "8") ] ]) ]) ]).

Definition customer_created : http_outcome :=
  ok (JObj [ ("Customer", JObj [ ("Id", JStr "9") ]) ]).

Definition invoice_created : http_outcome :=
  ok (JObj [ ("Invoice", JObj [ ("Id", JStr "42") ]) ]).

Definition invoice_created_without_id : http_outcome :=
  ok (JObj [ ("Invoice", JObj [ ("DocNumber", JStr "INV-1") ]) ]).

Definition fresh_result : variant_result := VariantResult 1 0 0 [].




(** The customer is found and the invoice created, with its id. *)
Definition created_with_id : world (list http_outcome) :=
  start [customer_found; invoice_created] [].

Definition after_created_with_id : world (list http_outcome) :=
  Eval vm_compute in
    snd (create_invoice scripted repr (qb_api uploader)
           (Invoice.to_quickbooks_json acme) "tok" "cid" created_with_id).

(** The customer is found and the invoice created; the reply has no 'Id'. *)
Definition created_without_id : world (list http_outcome) :=
  start [customer_found; invoice_created_without_id] [].

Definition after_created_without_id : world (list http_outcome) :=
  Eval vm_compute in
    snd (create_invoice scripted repr (qb_api uploader)
           (Invoice.to_quickbooks_json acme) "tok" "cid" created_without_id).

(** A first single upload that succeeds, and a second one on the same
    record that finds the platform silent. *)
Definition first_upload : res json * (Invoice.t * world (list http_outcome)) :=
  Eval vm_compute in
    upload_single_invoice scripted clock repr uploader "tok" "cid" (acme, created_with_id).

Definition second_upload : res json * (Invoice.t * world (list http_outcome)) :=
  Eval vm_compute in
    upload_single_invoice scripted clock repr uploader "tok" "cid" (snd first_upload).

(** The record [acme] once uploaded as invoice 42. *)
Definition acme_uploaded : Invoice.t := uploaded_invoice (JStr "42") (clock 0) acme.

Definition silent : world (list http_outcome) := start [] [].

Definition after_silence : world (list http_outcome) :=
  Eval vm_compute in
    snd (create_invoice scripted repr (qb_api uploader)
           (Invoice.to_quickbooks_json acme_uploaded) "tok" "cid" silent).

Definition silence_message : string :=
  "Invoice creation failed: Customer operation failed: Request timeout: "
  +:+ "query?query=SELECT * FROM Customer WHERE Name = 'Acme'".

End Sample.

(** ** Vocabulary of the further properties *)

(** The message [_make_request] gives to whatever went wrong, by the
    class of the cause. *)
Definition collapsed_message (endpoint : string) (cause : exn) : string :=
  match exn_class cause with
  | Timeout => "Request timeout: " +:+ endpoint
  | RequestException => "API request failed: " +:+ exn_str cause
  | JSONDecodeError => "Invalid JSON response: " +:+ exn_str cause
  | _ => "API error: " +:+ exn_str cause
  end.

(** What a request comes to, given what the platform did with it. *)
Definition request_result (endpoint url : string) (o : http_outcome) : res json :=
  match o with
  | HttpRaises cause => inl (Raise Exception (collapsed_message endpoint cause))
  | HttpResponds r =>
      match raise_for_status r url with
      | inl cause => inl (Raise Exception (collapsed_message endpoint cause))
      | inr _ =>
          match body r with
          | inl cause => inl (Raise Exception (collapsed_message endpoint cause))
          | inr v => inr v
          end
      end
  end.


(** A computation that sends at most [n] requests, and drops none of
    those sent before it. *)
Definition sends_at_most {W A} (n : nat) (m : M (world W) A) : Prop :=
  forall w, exists l, sent (snd (m w)) = (sent w ++ l)%list /\ (length l <= n)%nat.

(** The number of lines the loop of [create_bill] runs through. *)
Definition lines_of (bill_data : json) : nat :=
  match py_get bill_data "Line" (JList []) with
  | inr v => match py_iter v with inr l => length l | inl _ => 0%nat end
  | inl _ => 0%nat
  end.

(** What of a record is not one of the three integration fields. *)
Definition invoice_business (i : Invoice.t) :=
  (Invoice.id i, Invoice.customer_name i, Invoice.invoice_date i, Invoice.due_date i,
   Invoice.invoice_number i, Invoice.line_description i, Invoice.amount i,
   Invoice.tax_code i).

Definition bill_business (b : Bill.t) :=
  (Bill.id b, Bill.vendor_name b, Bill.bill_date b, Bill.due_date b,
   Bill.bill_number b, Bill.line_description b, Bill.amount b,
   Bill.expense_account b).

(** The status a detail of the report carries. *)
Definition detail_status (d : json) : res json := py_getitem d "status".

Definition is_status (s : string) (d : json) : bool :=
  match detail_status d with
  | inr (JStr s') => String.eqb s s'
  | _ => false
  end.

(** The ['id'] a detail of the report carries. *)
Definition detail_id (d : json) : res json := py_getitem d "id".

(** Counts that make sense together. *)
Definition counts_in_range (c : counts) : Prop :=
  0 <= count_uploaded c <= count_total c
  /\ 0 <= count_pending c <= count_total c
  /\ 0 <= count_failed c <= count_total c
  /\ count_uploaded c + count_pending c = count_total c.

(** ** The rest of the client and the authentication side *)

Section Probes.

Variable W : Type.
Variable http : request -> W -> http_outcome * W.

(** [QuickBooksAPI.get_company_info] *)
Definition get_company_info (self : QuickBooksAPI) (access_token company_id : string)
  : M (world W) json :=
  try_except
    (let* response :=
       _make_request http self GET ("companyinfo/" +:+ company_id)
         access_token company_id JNull in
     let* query_response := eval (py_get response "QueryResponse" (JObj [])) in
     let* infos := eval (py_get query_response "CompanyInfo" (JList [ JObj [] ])) in
     eval (py_getitem0 infos))
    (fun e =>
       do log ERROR ("Failed to get company info: " +:+ exn_str e) then
       raise (Raise Exception ("Company info retrieval failed: " +:+ exn_str e))).

(** The request [QuickBooksOAuth.validate_token] hands to
    [requests.get]; the address is written out in the source. *)
Definition validation_request (access_token company_id : string) : request :=
  {| method := GET;
     url := "https://sandbox-quickbooks.api.intuit.com/v3/company/" +:+ company_id
            +:+ "/companyinfo/" +:+ company_id;
     headers := [ ("Authorization", "Bearer " +:+ access_token);
                  ("Accept", "application/json") ];
     json_body := JNull;
     timeout := 10 |}.

(** [QuickBooksOAuth.validate_token]; it reads nothing of [self]. *)
Definition validate_token (access_token company_id : string) : M (world W) bool :=
  try_except
    (let* response := requests_call http (validation_request access_token company_id) in
     ret (status_code response =? 200))
    (fun e =>
       do log ERROR ("Token validation error: " +:+ exn_str e) then
       ret false).

End Probes.

Arguments get_company_info {W}.
Arguments validate_token {W}.

(** *** models.py: the stored tokens *)

(** [a > b] on naive datetimes: field by field, the date first. *)
Definition datetime_key (t : datetime) : list nat :=
  [ year (dt_date t); month (dt_date t); day (dt_date t);
    hour t; minute t; second t; microsecond t ].

Fixpoint key_compare (a b : list nat) : comparison :=
  match a, b with
  | [], [] => Eq
  | [], _ :: _ => Lt
  | _ :: _, [] => Gt
  | x :: a', y :: b' =>
      match Nat.compare x y with
      | Eq => key_compare a' b'
      | c => c
      end
  end.

Definition datetime_gt (a b : datetime) : bool :=
  match key_compare (datetime_key a) (datetime_key b) with Gt => true | _ => false end.

Definition datetime_or_none (t : option datetime) : json :=
  match t with Some x => JStr (datetime_isoformat x) | None => JNull end.

Definition str_or_none (s : option string) : json :=
  match s with Some x => JStr x | None => JNull end.

Module QuickBooksToken.

(** A row of [quickbooks_tokens]; [id] is [None] until the row is
    flushed. *)
Record t : Type := Make {
  id : option Z;
  access_token : string;
  refresh_token : string;
  company_id : string;
  token_expires_at : option datetime;
  scope : option string;
  created_at : option datetime;
  updated_at : option datetime }.

(** [bool(s)] of a string. *)
Definition nonempty_str (s : string) : bool := negb (String.eqb s "").

Definition to_dict (self : t) : json :=
  JObj [ ("id", match id self with Some n => JInt n | None => JNull end);
         ("company_id", JStr (company_id self));
         ("has_access_token", JBool (nonempty_str (access_token self)));
         ("has_refresh_token", JBool (nonempty_str (refresh_token self)));
         ("token_expires_at", datetime_or_none (token_expires_at self));
         ("scope", str_or_none (scope self));
         ("created_at", datetime_or_none (created_at self));
         ("updated_at", datetime_or_none (updated_at self)) ].

End QuickBooksToken.

(** [QuickBooksToken.is_expired]: the clock is read only when there is an
    expiry to compare with. *)
Definition is_expired {W} (utcnow : nat -> datetime) (self : QuickBooksToken.t)
  : M (world W) bool :=
  match QuickBooksToken.token_expires_at self with
  | None => ret false
  | Some expires =>
      let* now := datetime_utcnow utcnow in
      ret (datetime_gt now expires)
  end.

(** *** quickbooks_oauth.py: the token endpoint *)

(** One call of [requests.post(url, data=..., auth=..., headers=...)]:
    a form, with basic authentication and no timeout. *)
Record token_request : Type := TokenRequest {
  tr_url : string;
  tr_data : list (string * string);
  tr_auth : option string * option string;
  tr_headers : list (string * string) }.

Record QuickBooksOAuth : Type := {
  authorization_base_url : string;
  token_url : string;
  client_id : option string;
  client_secret : option string;
  redirect_uri : string;
  oauth_scope : string }.

(** [QuickBooksOAuth.__init__], given the three environment variables. *)
Definition QuickBooksOAuth_init (env_client_id env_client_secret env_redirect_uri
                                 : option string) : QuickBooksOAuth :=
  {| authorization_base_url := "https://appcenter.intuit.com/connect/oauth2";
     token_url := "https://oauth.platform.intuit.com/oauth2/v1/tokens/bearer";
     client_id := env_client_id;
     client_secret := env_client_secret;
     redirect_uri := from_option id "http://localhost:5000/auth/callback" env_redirect_uri;
     oauth_scope := "com.intuit.quickbooks.accounting" |}.

Section OAuth.

(** The identity provider is any state machine answering token requests. *)
Variable T : Type.
Variable token_endpoint : token_request -> T -> http_outcome * T.

Record idp_world : Type := IdpWorld {
  idp : T;
  posted : list token_request;
  idp_logged : list (log_level * string) }.

Definition idp_log (lvl : log_level) (msg : string) : M idp_world unit :=
fun w => (inr tt, IdpWorld (idp w) (posted w) (idp_logged w ++ [(lvl, msg)])).

Definition requests_post (req : token_request) : M idp_world response :=
fun w =>
  let (o, r) := token_endpoint req (idp w) in
  (match o with HttpRaises e => inl e | HttpResponds resp => inr resp end,
   IdpWorld r (posted w ++ [req]) (idp_logged w)).

Definition token_headers : list (string * string) :=
  [ ("Content-Type", "application/x-www-form-urlencoded");
    ("Accept", "application/json") ].

Definition exchange_request (self : QuickBooksOAuth) (authorization_code : string)
  : token_request :=
  {| tr_url := token_url self;
     tr_data := [ ("grant_type", "authorization_code");
                  ("code", authorization_code);
                  ("redirect_uri", redirect_uri self) ];
     tr_auth := (client_id self, client_secret self);
     tr_headers := token_headers |}.

Definition refresh_request (self : QuickBooksOAuth) (refresh_token : string)
  : token_request :=
  {| tr_url := token_url self;
     tr_data := [ ("grant_type", "refresh_token");
                  ("refresh_token", refresh_token) ];
     tr_auth := (client_id self, client_secret self);
     tr_headers := token_headers |}.

(** [QuickBooksOAuth.get_access_token]; [company_id] is the [realmId] of
    the callback, [None] when the callback had none. *)
Definition get_access_token (self : QuickBooksOAuth) (authorization_code : string)
    (company_id : option string) : M idp_world json :=
  try_except
    (let* response := requests_post (exchange_request self authorization_code) in
     do eval (raise_for_status response (token_url self)) then
     let* token_data := eval (body response) in
     let* access_token := eval (py_get token_data "access_token" JNull) in
     let* refresh_token := eval (py_get token_data "refresh_token" JNull) in
     let* expires_in := eval (py_get token_data "expires_in" (JInt 3600)) in
     if negb (py_truthy access_token)
     then raise (Raise Exception "Access token not received from QuickBooks")
     else
       match company_id with
       | Some (String c rest) =>
           let company := String c rest in
           do idp_log INFO ("Successfully obtained access token for company: "
                            +:+ company) then
           let* token_type := eval (py_get token_data "token_type" (JStr "Bearer")) in
           ret (JObj [ ("access_token", access_token);
                       ("refresh_token", refresh_token);
                       ("company_id", JStr company);
                       ("expires_in", expires_in);
                       ("token_type", token_type) ])
       | _ => raise (Raise Exception "Company ID (realmId) not provided")
       end)
    (fun e =>
       match exn_class e with
       | Timeout | RequestException =>
           do idp_log ERROR ("HTTP error during token exchange: " +:+ exn_str e) then
           raise (Raise Exception ("Token exchange failed: " +:+ exn_str e))
       | _ =>
           do idp_log ERROR ("Token exchange error: " +:+ exn_str e) then
           raise (Raise Exception ("Token exchange failed: " +:+ exn_str e))
       end).

(** [QuickBooksOAuth.refresh_access_token] *)
Definition refresh_access_token (self : QuickBooksOAuth) (refresh_token : string)
  : M idp_world json :=
  try_except
    (let* response := requests_post (refresh_request self refresh_token) in
     do eval (raise_for_status response (token_url self)) then
     let* token_data := eval (body response) in
     let* access_token := eval (py_get token_data "access_token" JNull) in
     let* new_refresh_token :=
       eval (py_get token_data "refresh_token" (JStr refresh_token)) in
     let* expires_in := eval (py_get token_data "expires_in" (JInt 3600)) in
     if negb (py_truthy access_token)
     then raise (Raise Exception "New access token not received")
     else
       do idp_log INFO "Successfully refreshed access token" then
       let* token_type := eval (py_get token_data "token_type" (JStr "Bearer")) in
       ret (JObj [ ("access_token", access_token);
                   ("refresh_token", new_refresh_token);
                   ("expires_in", expires_in);
                   ("token_type", token_type) ]))
    (fun e =>
       match exn_class e with
       | Timeout | RequestException =>
           do idp_log ERROR ("HTTP error during token refresh: " +:+ exn_str e) then
           raise (Raise Exception ("Token refresh failed: " +:+ exn_str e))
       | _ =>
           do idp_log ERROR ("Token refresh error: " +:+ exn_str e) then
           raise (Raise Exception ("Token refresh failed: " +:+ exn_str e))
       end).

End OAuth.

Arguments IdpWorld {T}.
Arguments idp {T}.
Arguments posted {T}.
Arguments idp_logged {T}.
Arguments idp_log {T}.
Arguments requests_post {T}.
Arguments get_access_token {T}.
Arguments refresh_access_token {T}.

(** A request of the client [api], made for the company [company_id]
    with the token [access_token]. *)
Definition addressed_to (api : QuickBooksAPI) (access_token company_id : string)
    (req : request) : Prop :=
  headers req = request_headers access_token
  /\ timeout req = api_timeout api
  /\ (method req = GET -> json_body req = JNull)
  /\ exists endpoint, url req = request_url api company_id endpoint.

(** A computation whose requests all satisfy [P], and that drops none of
    those sent before it. *)
Definition sends_only {W A} (P : request -> Prop) (m : M (world W) A) : Prop :=
  forall w, exists l, sent (snd (m w)) = (sent w ++ l)%list /\ Forall P l.

(** ** Further scripted cases *)

Module Cases.

Import Sample.

(** A reply with status 201. *)
Definition created_body : json := JObj [ ("Invoice", JObj [ ("Id", JStr "42") ]) ].

Definition created_201 : http_outcome :=
  HttpResponds (Response 201 "Created" "created" (inr created_body)).

(** An invoice without a customer name. *)
Definition nameless : Invoice.t :=
  Invoice.Make 2 "" (Some (Date 2024 3 9)) None "INV-2" "Consulting" 5000 None
               JNull None None.

(** The world of [created_with_id] once the customer has been looked
    up. *)
Definition after_customer_lookup : world (list http_outcome) :=
  Eval vm_compute in
    snd (resolve scripted repr Customer (qb_api uploader) (JStr "Acme") "tok" "cid"
           (logged_line INFO "Creating invoice: INV-1" created_with_id)).

(** The vendor and the account of [rent] are found, and the bill is
    created. *)
Definition vendor_found : http_outcome :=
  ok (JObj [ ("QueryResponse", JObj [ ("Vendor", JList [ JObj [ ("Id", JStr "3") ] ]) ]) ]).

Definition account_found : http_outcome :=
  ok (JObj [ ("QueryResponse", JObj [ ("Account", JList [ JObj [ ("Id", JStr "5") ] ]) ]) ]).

Definition bill_created : http_outcome :=
  ok (JObj [ ("Bill", JObj [ ("Id", JStr "77") ]) ]).

Definition bill_goes_through : world (list http_outcome) :=
  start [vendor_found; account_found; bill_created] [].

Definition after_vendor_lookup : world (list http_outcome) :=
  Eval vm_compute in
    snd (resolve scripted repr Vendor (qb_api uploader) (JStr "Landlord") "tok" "cid"
           (logged_line INFO "Creating bill: BILL-1" bill_goes_through)).

Definition after_account_lookup : world (list http_outcome) :=
  Eval vm_compute in
    snd (resolve scripted repr Account (qb_api uploader) (JStr "Rent") "tok" "cid"
           after_vendor_lookup).

(** The invoice is created, and the commit that follows fails in its
    flush: the UPDATE of the row is refused. *)
Definition created_then_disk_full : world (list http_outcome) :=
  start [customer_found; invoice_created] [CommitOutcome 1 (FlushRaises "disk full")].

(** The invoice is created, the UPDATE goes through and the COMMIT is
    refused. *)
Definition created_then_locked : world (list http_outcome) :=
  start [customer_found; invoice_created]
        [CommitOutcome 1 (CommitRaises "database is locked")].

(** The platform is silent, and the commit that follows fails in its
    flush. *)
Definition silent_then_disk_full : world (list http_outcome) :=
  start [] [CommitOutcome 1 (FlushRaises "disk full")].

Definition after_silence_then_disk_full : world (list http_outcome) :=
  Eval vm_compute in
    snd (create_invoice scripted repr (qb_api uploader)
           (Invoice.to_quickbooks_json acme) "tok" "cid" silent_then_disk_full).

(** The world after the lookup of a customer timed out. *)
Definition after_lookup_timeout : world (list http_outcome) :=
  Eval vm_compute in
    snd (_make_request scripted (qb_api uploader) GET
           "query?query=SELECT * FROM Customer WHERE Name = 'Acme'" "tok" "cid" JNull
           silent).

(** Two stored tokens that differ in their secrets only. *)
Definition stored_token (access refresh : string) : QuickBooksToken.t :=
  QuickBooksToken.Make (Some 1) access refresh "4620816365" None
    (Some "com.intuit.quickbooks.accounting") None None.

(** A token that expired before the clock of the examples. *)
Definition old_token : QuickBooksToken.t :=
  QuickBooksToken.Make (Some 1) "a" "r" "4620816365"
    (Some (DateTime (Date 2023 12 31) 23 59 59 0)) None None None.

(** An identity provider that answers from a script. *)
Definition scripted_idp (req : token_request) (script : list http_outcome)
  : http_outcome * list http_outcome :=
  match script with
  | o :: rest => (o, rest)
  | [] => (timed_out, [])
  end.

Definition oauth : QuickBooksOAuth := QuickBooksOAuth_init (Some "id") (Some "secret") None.

Definition token_reply : response :=
  Response 200 "OK" "" (inr (JObj [ ("access_token", JStr "at-1");
                                    ("expires_in", JInt 1800) ])).

Definition idp_start (script : list http_outcome) : idp_world (list http_outcome) :=
  IdpWorld script [] [].

End Cases.
Arguments String.append : simpl never.

(** ** Properties of the translators *)

Lemma digit_is_digit n :
  is_digit (digit n) = true /\ digit_value (digit n) = (n mod 10)%nat.
Proof.
  unfold digit.
  assert (H : (n mod 10 < 10)%nat) by (apply Nat.mod_upper_bound; discriminate).
  destruct (n mod 10)%nat as [| [| [| [| [| [| [| [| [| [| k]]]]]]]]]];
    try (split; reflexivity). lia.
Qed.

Lemma date_isoformat_shape d : is_iso_date (date_isoformat d) = true.
Proof.
  unfold date_isoformat, digits4, digits2.
  cbv [String.append]. unfold is_iso_date.
  rewrite !(proj1 (digit_is_digit _)). reflexivity.
Qed.

Lemma two_digits_value n :
  (n <= 99)%nat -> (10 * ((n / 10) mod 10) + n mod 10 = n)%nat.
Proof.
  intros H.
  pose proof (Nat.div_mod_eq n 10). pose proof (Nat.mod_upper_bound n 10).
  assert (n / 10 < 10)%nat by (apply Nat.Div0.div_lt_upper_bound; lia).
  rewrite (Nat.mod_small (n / 10) 10) by lia. lia.
Qed.

Lemma four_digits_value n :
  Z.of_nat n <= 9999 ->
  (1000 * ((n / 100 / 10) mod 10) + 100 * ((n / 100) mod 10)
   + 10 * ((n / 10) mod 10) + n mod 10 = n)%nat.
Proof.
  intros H.
  pose proof (Nat.div_mod_eq n 100). pose proof (Nat.mod_upper_bound n 100).
  assert (Hq : (n / 100 <= 99)%nat).
  { assert (n / 100 < 100)%nat by (apply Nat.Div0.div_lt_upper_bound; lia). lia. }
  pose proof (two_digits_value (n / 100) Hq).
  assert (Hr : (n mod 100 <= 99)%nat) by lia.
  pose proof (two_digits_value (n mod 100) Hr) as H3.
  assert (Hd : ((n / 10) mod 10 = (n mod 100) / 10)%nat).
  { pose proof (Nat.div_mod_eq n 10). pose proof (Nat.mod_upper_bound n 10).
    pose proof (Nat.div_mod_eq (n / 10) 10). pose proof (Nat.mod_upper_bound (n / 10) 10).
    assert (E : (n mod 100 = 10 * ((n / 10) mod 10) + n mod 10)%nat).
    { assert (n / 10 / 10 = n / 100)%nat by (rewrite Nat.Div0.div_div; reflexivity).
      lia. }
    rewrite E. symmetry.
    rewrite Nat.mul_comm, Nat.div_add_l by discriminate.
    rewrite (Nat.div_small (n mod 10) 10) by lia. lia. }
  assert (Hm : ((n mod 100) mod 10 = n mod 10)%nat).
  { replace 100%nat with (10 * 10)%nat by reflexivity.
    rewrite Nat.Div0.mod_mul_r. rewrite Nat.mul_comm, Nat.Div0.mod_add.
    apply Nat.Div0.mod_mod. }
  assert (Hs : ((n mod 100 / 10) mod 10 = n mod 100 / 10)%nat).
  { apply Nat.mod_small. apply Nat.Div0.div_lt_upper_bound. lia. }
  rewrite Hs, Hm in H3. lia.
Qed.

Lemma date_isoformat_reads_back d :
  Z.of_nat (year d) <= 9999 -> (month d <= 99)%nat -> (day d <= 99)%nat ->
  read_iso_date (date_isoformat d) = Some d.
Proof.
  intros Hy Hm Hd.
  pose proof (date_isoformat_shape d) as Hs. revert Hs.
  unfold date_isoformat, digits4, digits2.
  cbv [String.append]. unfold read_iso_date. intros ->.
  rewrite !(proj2 (digit_is_digit _)).
  destruct d as [y m dd]; cbn [year month day] in *.
  rewrite (four_digits_value y Hy), (two_digits_value m Hm), (two_digits_value dd Hd).
  reflexivity.
Qed.

(** C5. The payload of an invoice has one line, with the amount, the
    placeholder item, and a tax code that is 'NON' when the record has
    none or an empty one and the record's own otherwise; the customer by
    name only; the document number; and both dates in ISO 8601 calendar
    form, null when absent. The payload of a bill has one line whose
    detail names the expense account, the vendor by name only, and no item
    or tax code anywhere. An ISO date has the shape YYYY-MM-DD and reads
    back as the date it was made from. *)
Theorem translators_follow_the_wire_schema :
  (forall i : Invoice.t,
     exists line detail,
       py_getitem (Invoice.to_quickbooks_json i) "Line" = inr (JList [line])
       /\ py_getitem line "Amount" = inr (JFloat (Invoice.amount i))
       /\ py_getitem line "DetailType" = inr (JStr "SalesItemLineDetail")
       /\ py_getitem line "Description" = inr (JStr (Invoice.line_description i))
       /\ py_getitem line "SalesItemLineDetail" = inr detail
       /\ py_getitem detail "ItemRef"
          = inr (JObj [ ("value", JStr "1"); ("name", JStr "Services") ])
       /\ (Invoice.tax_code i = None \/ Invoice.tax_code i = Some "" ->
           py_getitem detail "TaxCodeRef" = inr (JObj [ ("value", JStr "NON") ]))
       /\ (forall c, Invoice.tax_code i = Some c -> c <> "" ->
                     py_getitem detail "TaxCodeRef" = inr (JObj [ ("value", JStr c) ]))
       /\ py_getitem (Invoice.to_quickbooks_json i) "CustomerRef"
          = inr (JObj [ ("name", JStr (Invoice.customer_name i)) ])
       /\ py_getitem (Invoice.to_quickbooks_json i) "DocNumber"
          = inr (JStr (Invoice.invoice_number i))
       /\ py_getitem (Invoice.to_quickbooks_json i) "TxnDate"
          = inr (match Invoice.invoice_date i with
                 | Some d => JStr (date_isoformat d)
                 | None => JNull
                 end)
       /\ py_getitem (Invoice.to_quickbooks_json i) "DueDate"
          = inr (match Invoice.due_date i with
                 | Some d => JStr (date_isoformat d)
                 | None => JNull
                 end))
  /\ (forall b : Bill.t,
        exists line detail,
          py_getitem (Bill.to_quickbooks_json b) "Line" = inr (JList [line])
          /\ py_getitem line "Amount" = inr (JFloat (Bill.amount b))
          /\ py_getitem line "DetailType" = inr (JStr "AccountBasedExpenseLineDetail")
          /\ py_getitem line "Description" = inr (JStr (Bill.line_description b))
          /\ py_getitem line "AccountBasedExpenseLineDetail" = inr detail
          /\ py_getitem detail "AccountRef"
             = inr (JObj [ ("name", JStr (Bill.expense_account b)) ])
          /\ mentions_key "ItemRef" (Bill.to_quickbooks_json b) = false
          /\ mentions_key "TaxCodeRef" (Bill.to_quickbooks_json b) = false
          /\ py_getitem (Bill.to_quickbooks_json b) "VendorRef"
             = inr (JObj [ ("name", JStr (Bill.vendor_name b)) ])
          /\ py_getitem (Bill.to_quickbooks_json b) "DocNumber"
             = inr (JStr (Bill.bill_number b))
          /\ py_getitem (Bill.to_quickbooks_json b) "TxnDate"
             = inr (match Bill.bill_date b with
                    | Some d => JStr (date_isoformat d)
                    | None => JNull
                    end)
          /\ py_getitem (Bill.to_quickbooks_json b) "DueDate"
             = inr (match Bill.due_date b with
                    | Some d => JStr (date_isoformat d)
                    | None => JNull
                    end))
  /\ (forall d, is_iso_date (date_isoformat d) = true)
  /\ (forall d, Z.of_nat (year d) <= 9999 -> (month d <= 99)%nat -> (day d <= 99)%nat ->
                read_iso_date (date_isoformat d) = Some d).
Proof.
  split; [| split; [| split]].
  - intros i. do 2 eexists.
    do 6 (split; [reflexivity |]).
    split; [| split; [| do 3 (split; [reflexivity |]); reflexivity]].
    + intros [H | H]; simpl; unfold Invoice.tax_code_or_NON; rewrite H; reflexivity.
    + intros c H Hc; simpl; unfold Invoice.tax_code_or_NON; rewrite H.
      destruct (String.eqb_spec c ""); [contradiction | reflexivity].
  - intros b. do 2 eexists. do 6 (split; [reflexivity |]).
    do 2 (split; [unfold Bill.to_quickbooks_json;
                  destruct (Bill.bill_date b), (Bill.due_date b); reflexivity |]).
    do 3 (split; [reflexivity |]). reflexivity.
  - apply date_isoformat_shape.
  - apply date_isoformat_reads_back.
Qed.

(** ** Properties *)

Section Properties.

Variable W : Type.
Variable http : request -> W -> http_outcome * W.
Variable utcnow : nat -> datetime.
Variable py_repr : json -> string.

Local Abbreviation world := (world W).
Local Abbreviation keeps_db := (keeps_db W).
Local Abbreviation log := (log (W:=W)).
Local Abbreviation _make_request := (_make_request http).
Local Abbreviation create_invoice := (create_invoice http py_repr).
Local Abbreviation create_bill := (create_bill http py_repr).
Local Abbreviation sync_invoice := (sync_invoice http utcnow py_repr).
Local Abbreviation sync_bill := (sync_bill http utcnow py_repr).
Local Abbreviation invoice_turn := (invoice_turn http utcnow py_repr).
Local Abbreviation bill_turn := (bill_turn http utcnow py_repr).
Local Abbreviation for_each_invoice := (for_each_invoice http utcnow py_repr).
Local Abbreviation for_each_bill := (for_each_bill http utcnow py_repr).
Local Abbreviation _upload_invoices := (_upload_invoices http utcnow py_repr).
Local Abbreviation _upload_bills := (_upload_bills http utcnow py_repr).
Local Abbreviation guarded_invoices := (guarded_invoices http utcnow py_repr).
Local Abbreviation guarded_bills := (guarded_bills http utcnow py_repr).
Local Abbreviation resolve := (resolve http py_repr).
Local Abbreviation lookup_endpoint := (lookup_endpoint py_repr).
Local Abbreviation upload_all := (upload_all http utcnow py_repr).
Local Abbreviation upload_single_invoice := (upload_single_invoice http utcnow py_repr).
Local Abbreviation upload_single_bill := (upload_single_bill http utcnow py_repr).

(** *** The monad *)

Lemma bind_returns {S A B} (m : M S A) (k : A -> M S B) s b s' :
  bind m k s = (inr b, s') ->
  exists a s1, m s = (inr a, s1) /\ k a s1 = (inr b, s').
Proof.
  unfold bind. destruct (m s) as [[e | a] s1]; intros H.
  - discriminate.
  - eauto.
Qed.

Lemma try_except_returns {S A} (m : M S A) (h : exn -> M S A) s a s' :
  try_except m h s = (inr a, s') ->
  m s = (inr a, s') \/ exists e s1, m s = (inl e, s1) /\ h e s1 = (inr a, s').
Proof.
  unfold try_except. destruct (m s) as [[e | x] s1]; intros H.
  - right. eauto.
  - left. exact H.
Qed.

Lemma py_get_returns_of_dict d k dflt v :
  py_get d k dflt = inr v -> exists kv, d = JObj kv.
Proof. destruct d; simpl; intros H; try discriminate. eauto. Qed.

Ltac peel H :=
  repeat match type of H with
         | (let _ := _ in _) _ = _ => cbv zeta in H
         | bind _ _ _ = (inr _, _) =>
             let a := fresh "a" in let s := fresh "s" in
             let H1 := fresh "Hstep" in
             apply bind_returns in H; destruct H as (a & s & H1 & H)
         end.

(** Whatever [create_invoice] returns answers [.get]. *)
Lemma create_invoice_returns_dict api data tok cid (w w' : world) v :
  create_invoice api data tok cid w = (inr v, w') -> exists kv, v = JObj kv.
Proof.
  intros H. apply try_except_returns in H. destruct H as [H | (e & s1 & _ & H)].
  - peel H. unfold ret in H. injection H as <- _.
    match goal with
    | Hg : eval (py_get _ "Id" _) _ = _ |- _ =>
        unfold eval in Hg; injection Hg as Hg _;
        eapply py_get_returns_of_dict; exact Hg
    end.
  - unfold bind, log, raise in H. discriminate.
Qed.


Lemma create_bill_returns_dict api data tok cid (w w' : world) v :
  create_bill api data tok cid w = (inr v, w') -> exists kv, v = JObj kv.
Proof.
  intros H. apply try_except_returns in H. destruct H as [H | (e & s1 & _ & H)].
  - peel H. unfold ret in H. injection H as <- _.
    match goal with
    | Hg : eval (py_get _ "Id" _) _ = _ |- _ =>
        unfold eval in Hg; injection Hg as Hg _;
        eapply py_get_returns_of_dict; exact Hg
    end.
  - unfold bind, log, raise in H. discriminate.
Qed.

(** *** One attempt inside a batch *)

Lemma sync_invoice_uploaded self result tok cid i (w w1 : world) fields :
  create_invoice (qb_api self) (Invoice.to_quickbooks_json i) tok cid w
  = (inr (JObj fields), w1) ->
  sync_invoice self result tok cid (i, w)
  = (inr (record_success
            (invoice_success_detail
               (uploaded_invoice (id_of fields) (utcnow (clock_reads w1)) i)) result),
     (uploaded_invoice (id_of fields) (utcnow (clock_reads w1)) i,
      logged_line INFO ("Successfully uploaded invoice " +:+ Invoice.invoice_number i)
        (clock_read w1))).
Proof.
  intros Hc.
  unfold sync_invoice, try_except, bind, on_world, the_doc, update_doc, eval; simpl.
  rewrite Hc; simpl. reflexivity.
Qed.

Lemma sync_invoice_failed self result tok cid i (w w1 : world) e :
  create_invoice (qb_api self) (Invoice.to_quickbooks_json i) tok cid w = (inl e, w1) ->
  sync_invoice self result tok cid (i, w)
  = (inr (record_failure (invoice_failure_detail i (exn_str e)) result),
     (Invoice.set_upload_error (Some (exn_str e)) i,
      logged_line ERROR ("Failed to upload invoice " +:+ Invoice.invoice_number i
                         +:+ ": " +:+ exn_str e) w1)).
Proof.
  intros Hc.
  unfold sync_invoice, try_except, bind, on_world, the_doc, update_doc, eval; simpl.
  rewrite Hc; simpl. reflexivity.
Qed.

Lemma sync_bill_uploaded self result tok cid b (w w1 : world) fields :
  create_bill (qb_api self) (Bill.to_quickbooks_json b) tok cid w
  = (inr (JObj fields), w1) ->
  sync_bill self result tok cid (b, w)
  = (inr (record_success
            (bill_success_detail
               (uploaded_bill (id_of fields) (utcnow (clock_reads w1)) b)) result),
     (uploaded_bill (id_of fields) (utcnow (clock_reads w1)) b,
      logged_line INFO ("Successfully uploaded bill " +:+ Bill.bill_number b)
        (clock_read w1))).
Proof.
  intros Hc.
  unfold sync_bill, try_except, bind, on_world, the_doc, update_doc, eval; simpl.
  rewrite Hc; simpl. reflexivity.
Qed.

Lemma sync_bill_failed self result tok cid b (w w1 : world) e :
  create_bill (qb_api self) (Bill.to_quickbooks_json b) tok cid w = (inl e, w1) ->
  sync_bill self result tok cid (b, w)
  = (inr (record_failure (bill_failure_detail b (exn_str e)) result),
     (Bill.set_upload_error (Some (exn_str e)) b,
      logged_line ERROR ("Failed to upload bill " +:+ Bill.bill_number b
                         +:+ ": " +:+ exn_str e) w1)).
Proof.
  intros Hc.
  unfold sync_bill, try_except, bind, on_world, the_doc, update_doc, eval; simpl.
  rewrite Hc; simpl. reflexivity.
Qed.


(** Every attempt ends normally, in one of the two outcomes. *)
Lemma sync_invoice_outcome self result tok cid i (w : world) :
  exists result' i' w',
    sync_invoice self result tok cid (i, w) = (inr result', (i', w'))
    /\ exists d, result' = record_success d result \/ result' = record_failure d result.
Proof.
  destruct (create_invoice (qb_api self) (Invoice.to_quickbooks_json i) tok cid w)
    as [[e | resp] w1] eqn:Hc.
  - rewrite (sync_invoice_failed _ _ _ _ _ _ _ _ Hc). eauto 8.
  - destruct (create_invoice_returns_dict _ _ _ _ _ _ _ Hc) as [fields ->].
    rewrite (sync_invoice_uploaded _ _ _ _ _ _ _ _ Hc). eauto 8.
Qed.

Lemma sync_bill_outcome self result tok cid b (w : world) :
  exists result' b' w',
    sync_bill self result tok cid (b, w) = (inr result', (b', w'))
    /\ exists d, result' = record_success d result \/ result' = record_failure d result.
Proof.
  destruct (create_bill (qb_api self) (Bill.to_quickbooks_json b) tok cid w)
    as [[e | resp] w1] eqn:Hc.
  - rewrite (sync_bill_failed _ _ _ _ _ _ _ _ Hc). eauto 8.
  - destruct (create_bill_returns_dict _ _ _ _ _ _ _ Hc) as [fields ->].
    rewrite (sync_bill_uploaded _ _ _ _ _ _ _ _ Hc). eauto 8.
Qed.

(** *** The commit after each document *)

Lemma commit_invoice_stored i (w : world) :
  commit_raises_next w = false ->
  commit_invoice (i, w) = (inr tt, (i, store_invoice i (flushed w))).
Proof.
  unfold commit_raises_next, commit_invoice, try_except, db_session_commit; simpl.
  destruct (session w); [| discriminate].
  destruct (outcome (next_commit w)); [reflexivity | discriminate | discriminate].
Qed.

Lemma commit_invoice_rolled_back i (w : world) msg :
  session w = Active -> outcome (next_commit w) = CommitRaises msg ->
  commit_invoice (i, w)
  = (inr tt,
     (from_option id i (invoice_rows w !! Invoice.id i),
      set_session Active
        (logged_line ERROR ("Database commit error for invoice "
                            +:+ Invoice.invoice_number i +:+ ": " +:+ msg)
           (set_session (AwaitsRollback false msg) (flushed w))))).
Proof.
  intros Hs Ho.
  unfold commit_invoice, try_except, db_session_commit; simpl.
  rewrite Hs, Ho. reflexivity.
Qed.

(** A commit that fails in its flush: the handler raises where it reads
    the number of the invoice, before the rollback. *)
Lemma commit_invoice_aborts i (w : world) msg :
  session w = Active -> outcome (next_commit w) = FlushRaises msg ->
  commit_invoice (i, w)
  = (inl (pending_rollback true msg),
     (i, set_session (AwaitsRollback true msg) (flushed w))).
Proof.
  intros Hs Ho.
  unfold commit_invoice, try_except, db_session_commit; simpl.
  rewrite Hs, Ho. reflexivity.
Qed.

Lemma commit_invoice_waiting i (w : world) cause :
  session w = AwaitsRollback false cause ->
  commit_invoice (i, w)
  = (inr tt,
     (from_option id i (invoice_rows w !! Invoice.id i),
      set_session Active
        (logged_line ERROR ("Database commit error for invoice "
                            +:+ Invoice.invoice_number i +:+ ": "
                            +:+ exn_str (pending_rollback false cause)) w))).
Proof.
  intros Hs.
  unfold commit_invoice, try_except, db_session_commit, bind, read_doc; simpl.
  rewrite Hs. simpl. rewrite Hs. reflexivity.
Qed.

Lemma commit_invoice_expired i (w : world) cause :
  session w = AwaitsRollback true cause ->
  commit_invoice (i, w) = (inl (pending_rollback true cause), (i, w)).
Proof.
  intros Hs.
  unfold commit_invoice, try_except, db_session_commit, bind, read_doc; simpl.
  rewrite Hs. simpl. rewrite Hs. reflexivity.
Qed.

Lemma commit_bill_stored b (w : world) :
  commit_raises_next w = false ->
  commit_bill (b, w) = (inr tt, (b, store_bill b (flushed w))).
Proof.
  unfold commit_raises_next, commit_bill, try_except, db_session_commit; simpl.
  destruct (session w); [| discriminate].
  destruct (outcome (next_commit w)); [reflexivity | discriminate | discriminate].
Qed.

Lemma commit_bill_rolled_back b (w : world) msg :
  session w = Active -> outcome (next_commit w) = CommitRaises msg ->
  commit_bill (b, w)
  = (inr tt,
     (from_option id b (bill_rows w !! Bill.id b),
      set_session Active
        (logged_line ERROR ("Database commit error for bill "
                            +:+ Bill.bill_number b +:+ ": " +:+ msg)
           (set_session (AwaitsRollback false msg) (flushed w))))).
Proof.
  intros Hs Ho.
  unfold commit_bill, try_except, db_session_commit; simpl.
  rewrite Hs, Ho. reflexivity.
Qed.

Lemma commit_bill_aborts b (w : world) msg :
  session w = Active -> outcome (next_commit w) = FlushRaises msg ->
  commit_bill (b, w)
  = (inl (pending_rollback true msg),
     (b, set_session (AwaitsRollback true msg) (flushed w))).
Proof.
  intros Hs Ho.
  unfold commit_bill, try_except, db_session_commit; simpl.
  rewrite Hs, Ho. reflexivity.
Qed.

Lemma commit_bill_waiting b (w : world) cause :
  session w = AwaitsRollback false cause ->
  commit_bill (b, w)
  = (inr tt,
     (from_option id b (bill_rows w !! Bill.id b),
      set_session Active
        (logged_line ERROR ("Database commit error for bill "
                            +:+ Bill.bill_number b +:+ ": "
                            +:+ exn_str (pending_rollback false cause)) w))).
Proof.
  intros Hs.
  unfold commit_bill, try_except, db_session_commit, bind, read_doc; simpl.
  rewrite Hs. simpl. rewrite Hs. reflexivity.
Qed.

Lemma commit_bill_expired b (w : world) cause :
  session w = AwaitsRollback true cause ->
  commit_bill (b, w) = (inl (pending_rollback true cause), (b, w)).
Proof.
  intros Hs.
  unfold commit_bill, try_except, db_session_commit, bind, read_doc; simpl.
  rewrite Hs. simpl. rewrite Hs. reflexivity.
Qed.

(** What a commit and its handler do, whatever the commit meets. *)
Lemma commit_invoice_cases i1 (w1 : world) :
  exists res i2 w2,
    commit_invoice (i1, w1) = (res, (i2, w2))
    /\ sent w2 = sent w1 /\ remote w2 = remote w1 /\ bill_rows w2 = bill_rows w1
    /\ (db_faults w2 = db_faults w1 \/ db_faults w2 = tail (db_faults w1))
    /\ (session w1 = Active ->
        db_faults w2 = tail (db_faults w1)
        /\ clock_reads w2 = (updates (next_commit w1) + clock_reads w1)%nat)
    /\ match res with
       | inr _ =>
           flush_raises_next w1 = false /\ session w2 = Active
           /\ (if commit_raises_next w1
               then invoice_rows w2 = invoice_rows w1
                    /\ i2 = from_option id i1 (invoice_rows w1 !! Invoice.id i1)
               else invoice_rows w2 = <[Invoice.id i1 := i1]> (invoice_rows w1)
                    /\ i2 = i1)
       | inl e =>
           flush_raises_next w1 = true /\ invoice_rows w2 = invoice_rows w1 /\ i2 = i1
           /\ exists cause, session w2 = AwaitsRollback true cause
                            /\ e = pending_rollback true cause
       end.
Proof.
  unfold commit_raises_next, flush_raises_next.
  destruct (session w1) as [| [|] cause] eqn:Hs.
  - destruct (outcome (next_commit w1)) as [| msg | msg] eqn:Ho.
    + rewrite commit_invoice_stored
        by (unfold commit_raises_next; rewrite Hs, Ho; reflexivity).
      do 3 eexists. split; [reflexivity |]. simpl. repeat split; auto.
    + rewrite (commit_invoice_aborts _ _ msg Hs Ho).
      do 3 eexists. split; [reflexivity |]. simpl. repeat split; eauto.
    + rewrite (commit_invoice_rolled_back _ _ msg Hs Ho).
      do 3 eexists. split; [reflexivity |]. simpl. repeat split; auto.
  - rewrite (commit_invoice_expired _ _ cause Hs).
    do 3 eexists. split; [reflexivity |]. repeat split; eauto; discriminate.
  - rewrite (commit_invoice_waiting _ _ cause Hs).
    do 3 eexists. split; [reflexivity |]. simpl. repeat split; auto; discriminate.
Qed.

Lemma commit_bill_cases b1 (w1 : world) :
  exists res b2 w2,
    commit_bill (b1, w1) = (res, (b2, w2))
    /\ sent w2 = sent w1 /\ remote w2 = remote w1 /\ invoice_rows w2 = invoice_rows w1
    /\ (db_faults w2 = db_faults w1 \/ db_faults w2 = tail (db_faults w1))
    /\ (session w1 = Active ->
        db_faults w2 = tail (db_faults w1)
        /\ clock_reads w2 = (updates (next_commit w1) + clock_reads w1)%nat)
    /\ match res with
       | inr _ =>
           flush_raises_next w1 = false /\ session w2 = Active
           /\ (if commit_raises_next w1
               then bill_rows w2 = bill_rows w1
                    /\ b2 = from_option id b1 (bill_rows w1 !! Bill.id b1)
               else bill_rows w2 = <[Bill.id b1 := b1]> (bill_rows w1)
                    /\ b2 = b1)
       | inl e =>
           flush_raises_next w1 = true /\ bill_rows w2 = bill_rows w1 /\ b2 = b1
           /\ exists cause, session w2 = AwaitsRollback true cause
                            /\ e = pending_rollback true cause
       end.
Proof.
  unfold commit_raises_next, flush_raises_next.
  destruct (session w1) as [| [|] cause] eqn:Hs.
  - destruct (outcome (next_commit w1)) as [| msg | msg] eqn:Ho.
    + rewrite commit_bill_stored
        by (unfold commit_raises_next; rewrite Hs, Ho; reflexivity).
      do 3 eexists. split; [reflexivity |]. simpl. repeat split; auto.
    + rewrite (commit_bill_aborts _ _ msg Hs Ho).
      do 3 eexists. split; [reflexivity |]. simpl. repeat split; eauto.
    + rewrite (commit_bill_rolled_back _ _ msg Hs Ho).
      do 3 eexists. split; [reflexivity |]. simpl. repeat split; auto.
  - rewrite (commit_bill_expired _ _ cause Hs).
    do 3 eexists. split; [reflexivity |]. repeat split; eauto; discriminate.
  - rewrite (commit_bill_waiting _ _ cause Hs).
    do 3 eexists. split; [reflexivity |]. simpl. repeat split; auto; discriminate.
Qed.

(** The script of the commits and the session, from one world to the
    next. *)
Lemma no_flush_fails_next (w : world) :
  no_flush_fails w -> flush_raises_next w = false.
Proof.
  unfold no_flush_fails, flush_raises_next, next_commit, is_flush_failure.
  intros [Hs Hf]. destruct (session w) as [| [|] cause].
  - destruct (db_faults w) as [| o rest]; [reflexivity |].
    inversion Hf as [| ? ? Ho _]; subst. exact Ho.
  - exfalso. exact (Hs cause eq_refl).
  - reflexivity.
Qed.

Lemma no_flush_fails_same_db (w w' : world) :
  db_of w' = db_of w -> no_flush_fails w -> no_flush_fails w'.
Proof.
  unfold db_of, no_flush_fails. intros H. injection H as Hf Hs _ _.
  rewrite Hf, Hs. auto.
Qed.

Lemma no_flush_fails_after (w w' : world) :
  session w' = Active ->
  db_faults w' = db_faults w \/ db_faults w' = tail (db_faults w) ->
  no_flush_fails w -> no_flush_fails w'.
Proof.
  unfold no_flush_fails. intros Hs Hf [_ H]. split.
  - intros cause. rewrite Hs. discriminate.
  - destruct Hf as [-> | ->]; [exact H |].
    destruct (db_faults w) as [| o rest]; [constructor |].
    inversion H; assumption.
Qed.

Lemma no_commit_fails_next (w : world) :
  no_commit_fails w -> commit_raises_next w = false /\ flush_raises_next w = false.
Proof.
  unfold no_commit_fails, commit_raises_next, flush_raises_next, next_commit, is_committed.
  intros [-> Hf]. destruct (db_faults w) as [| o rest]; [split; reflexivity |].
  inversion Hf as [| ? ? Ho _]; subst.
  destruct (outcome o); [split; reflexivity | discriminate | discriminate].
Qed.

Lemma no_commit_fails_same_db (w w' : world) :
  db_of w' = db_of w -> no_commit_fails w -> no_commit_fails w'.
Proof.
  unfold db_of, no_commit_fails. intros H. injection H as Hf Hs _ _.
  rewrite Hf, Hs. auto.
Qed.

Lemma no_commit_fails_after (w w' : world) :
  session w' = Active ->
  db_faults w' = db_faults w \/ db_faults w' = tail (db_faults w) ->
  no_commit_fails w -> no_commit_fails w'.
Proof.
  unfold no_commit_fails. intros Hs Hf [_ H]. split; [exact Hs |].
  destruct Hf as [-> | ->]; [exact H |].
  destruct (db_faults w) as [| o rest]; [constructor |].
  inversion H; assumption.
Qed.

(** *** What the client leaves alone *)

Lemma keeps_ret {A} (a : A) : keeps_db (ret a : M world A).
Proof. intros w. split; reflexivity. Qed.

Lemma keeps_raise {A} e : keeps_db (@raise world A e).
Proof. intros w. split; reflexivity. Qed.

Lemma keeps_eval {A} (r : res A) : keeps_db (eval r : M world A).
Proof. intros w. split; reflexivity. Qed.

Lemma keeps_log lvl msg : keeps_db (log lvl msg).
Proof. intros w. split; reflexivity. Qed.

Lemma keeps_requests_call req : keeps_db (requests_call http req).
Proof.
  intros w. unfold requests_call. destruct (http req (remote w)). split; reflexivity.
Qed.

Lemma keeps_bind {A B} (m : M world A) (k : A -> M world B) :
  keeps_db m -> (forall a, keeps_db (k a)) -> keeps_db (bind m k).
Proof.
  intros Hm Hk w. unfold bind. specialize (Hm w).
  destruct (m w) as [[e | a] w1]; simpl in *.
  - exact Hm.
  - destruct (Hk a w1) as [H1 H2]. destruct Hm as [H3 H4]. split; congruence.
Qed.

Lemma keeps_try_except {A} (m : M world A) (h : exn -> M world A) :
  keeps_db m -> (forall e, keeps_db (h e)) -> keeps_db (try_except m h).
Proof.
  intros Hm Hh w. unfold try_except. specialize (Hm w).
  destruct (m w) as [[e | a] w1]; simpl in *.
  - destruct (Hh e w1) as [H1 H2]. destruct Hm as [H3 H4]. split; congruence.
  - exact Hm.
Qed.

Ltac keeps :=
  repeat first
    [ match goal with H : context [keeps_db] |- _ => apply H end
    | apply keeps_ret | apply keeps_raise | apply keeps_eval | apply keeps_log
    | apply keeps_requests_call
    | apply keeps_bind; [| intros ?]
    | apply keeps_try_except; [| intros ?]
    | match goal with
      | |- keeps_db (if ?b then _ else _) => destruct b
      | |- keeps_db (match ?x with _ => _ end) => destruct x
      | |- keeps_db (let _ := _ in _) => cbv zeta
      end ].

Lemma keeps_make_request self m endpoint tok cid data :
  keeps_db (_make_request self m endpoint tok cid data).
Proof. unfold _make_request. keeps. Qed.

Lemma keeps_get_or_create_customer self name tok cid :
  keeps_db (_get_or_create_customer http py_repr self name tok cid).
Proof. unfold _get_or_create_customer. pose proof keeps_make_request. keeps. Qed.

Lemma keeps_get_or_create_vendor self name tok cid :
  keeps_db (_get_or_create_vendor http py_repr self name tok cid).
Proof. unfold _get_or_create_vendor. pose proof keeps_make_request. keeps. Qed.

Lemma keeps_get_or_create_account self name tok cid :
  keeps_db (_get_or_create_account http py_repr self name tok cid).
Proof. unfold _get_or_create_account. pose proof keeps_make_request. keeps. Qed.

Lemma keeps_create_invoice self data tok cid :
  keeps_db (create_invoice self data tok cid).
Proof.
  unfold create_invoice.
  pose proof keeps_make_request. pose proof keeps_get_or_create_customer. keeps.
Qed.

Lemma keeps_resolve_lines self tok cid lines :
  keeps_db (resolve_lines http py_repr self tok cid lines).
Proof.
  induction lines as [| line rest IH]; simpl.
  - keeps.
  - unfold resolve_line_account. pose proof keeps_get_or_create_account. keeps.
Qed.

Lemma keeps_create_bill self data tok cid :
  keeps_db (create_bill self data tok cid).
Proof.
  unfold create_bill.
  pose proof keeps_make_request. pose proof keeps_get_or_create_vendor.
  pose proof keeps_resolve_lines. keeps.
Qed.


(** *** Counting rows *)

Lemma filter_split_length {A} (p : A -> bool) (l : list A) :
  (length (List.filter (fun _ => true) l)
   = length (List.filter p l) + length (List.filter (fun a => negb (p a)) l))%nat.
Proof.
  induction l as [| a l IH]; simpl; [reflexivity |].
  destruct (p a); simpl; lia.
Qed.

Lemma filter_length_le {A} (p q : A -> bool) (l : list A) :
  (forall a, In a l -> p a = true -> q a = true) ->
  (length (List.filter p l) <= length (List.filter q l))%nat.
Proof.
  induction l as [| a l IH]; simpl; intros H; [lia |].
  assert (IH' := IH (fun x Hx => H x (or_intror Hx))).
  destruct (p a) eqn:Hp.
  - rewrite (H a (or_introl eq_refl) Hp). simpl. lia.
  - destruct (q a); simpl; lia.
Qed.

(** [pending] of the statistics counts the rows that have no remote id. *)
Lemma pending_counts_rows {A} (p : A -> bool) (rows : gmap Z A) :
  count_rows (fun _ => true) rows - count_rows p rows
  = count_rows (fun a => negb (p a)) rows.
Proof.
  unfold count_rows.
  rewrite (filter_split_length (fun kv => p (snd kv)) (map_to_list rows)). lia.
Qed.

Lemma count_rows_member {A} (p : A -> bool) (rows : gmap Z A) k a :
  rows !! k = Some a -> p a = true -> 1 <= count_rows p rows.
Proof.
  intros Hk Hp. unfold count_rows.
  assert (Hin : In (k, a) (List.filter (fun kv => p (snd kv)) (map_to_list rows))).
  { apply filter_In. split; [| exact Hp].
    apply list_elem_of_In, elem_of_map_to_list. exact Hk. }
  destruct (List.filter (fun kv => p (snd kv)) (map_to_list rows)); [destruct Hin |].
  simpl. lia.
Qed.

Lemma count_rows_le {A} (p q : A -> bool) (rows : gmap Z A) :
  (forall k a, rows !! k = Some a -> p a = true -> q a = true) ->
  count_rows p rows <= count_rows q rows.
Proof.
  intros H. unfold count_rows. apply inj_le. apply filter_length_le.
  intros [k a] Hin. apply (H k a).
  apply elem_of_map_to_list, list_elem_of_In. exact Hin.
Qed.


(** *** Requests *)

(** [_make_request] sends exactly one request, the one built from its
    arguments, whatever comes back. *)
Lemma make_request_sends self m endpoint tok cid data (w : world) :
  sent (snd (_make_request self m endpoint tok cid data w))
  = (sent w ++ [build_request self m endpoint tok cid data])%list.
Proof.
  unfold _make_request, try_except, bind, log, requests_call, eval; simpl.
  destruct (http (build_request self m endpoint tok cid data) (remote w)) as [[e | r] x];
    simpl.
  - destruct (exn_class e); reflexivity.
  - destruct (status_code r =? 200); simpl;
      (destruct (raise_for_status r (request_url self cid endpoint)) as [e | []]; simpl;
       [ destruct (exn_class e); reflexivity
       | destruct (body r) as [e | v]; simpl;
         [ destruct (exn_class e); reflexivity | reflexivity ] ]).
Qed.


(** *** The resolvers *)

Lemma resolve_hit k self name tok cid (w w1 : world) response first rest :
  _make_request self GET (lookup_endpoint k name) tok cid JNull w = (inr response, w1) ->
  matches k response = inr (JList (first :: rest)) ->
  resolve k self name tok cid w = (inr first, w1).
Proof.
  intros Hl Hm. unfold matches, and_then in Hm.
  destruct (py_get response "QueryResponse" (JObj [])) as [e | q] eqn:Hq;
    [discriminate |].
  destruct k; simpl in *;
    [ unfold _get_or_create_customer
    | unfold _get_or_create_vendor
    | unfold _get_or_create_account ];
    unfold try_except, bind, eval; rewrite Hl, Hq, Hm; reflexivity.
Qed.

Lemma resolve_miss k self name tok cid (w w1 w2 : world) response reply :
  _make_request self GET (lookup_endpoint k name) tok cid JNull w = (inr response, w1) ->
  matches k response = inr (JList []) ->
  _make_request self POST (create_endpoint k) tok cid (create_payload k name) w1
  = (reply, w2) ->
  sent (snd (resolve k self name tok cid w)) = sent w2
  /\ forall created ref,
       reply = inr created -> py_getitem created (kind_name k) = inr ref ->
       resolve k self name tok cid w = (inr ref, w2).
Proof.
  intros Hl Hm Hc. unfold matches, and_then in Hm.
  destruct (py_get response "QueryResponse" (JObj [])) as [e | q] eqn:Hq;
    [discriminate |].
  destruct k; simpl in *;
    [ unfold _get_or_create_customer
    | unfold _get_or_create_vendor
    | unfold _get_or_create_account ];
    unfold try_except, bind, eval, log, raise; rewrite Hl, Hq, Hm; simpl; rewrite Hc;
    (split;
     [ destruct reply as [e | created]; simpl;
       [ reflexivity
       | match goal with
         | |- context [py_getitem created ?key] => destruct (py_getitem created key)
         end; reflexivity ]
     | intros created ref -> Hr; rewrite Hr; reflexivity ]).
Qed.


(** *** A single upload *)

(** The creation call raised: the handler sets the error and commits. *)
Lemma upload_single_invoice_failed self tok cid i (w u : world) e :
  create_invoice (qb_api self) (Invoice.to_quickbooks_json i) tok cid w = (inl e, u) ->
  upload_single_invoice self tok cid (i, w)
  = let i' := Invoice.set_upload_error (Some (exn_str e)) i in
    match session u with
    | AwaitsRollback expired cause => (inl (pending_rollback expired cause), (i', u))
    | Active =>
        match outcome (next_commit u) with
        | Committed => (inr (single_failure (exn_str e)), (i', store_invoice i' (flushed u)))
        | FlushRaises msg =>
            (inl (Raise Exception msg),
             (i', set_session (AwaitsRollback true msg) (flushed u)))
        | CommitRaises msg =>
            (inl (Raise Exception msg),
             (i', set_session (AwaitsRollback false msg) (flushed u)))
        end
    end.
Proof.
  intros Hc.
  unfold upload_single_invoice, try_except, bind, on_world, the_doc, update_doc,
    eval, db_session_commit, ret; simpl. rewrite Hc; simpl.
  destruct (session u); [| reflexivity].
  destruct (outcome (next_commit u)); reflexivity.
Qed.

(** The creation call returned: the record takes the success branch and
    the commit decides; after a commit that raised, the commit of the
    handler finds a session that waits for its rollback. *)
Lemma upload_single_invoice_created self tok cid i (w u : world) fields :
  create_invoice (qb_api self) (Invoice.to_quickbooks_json i) tok cid w
  = (inr (JObj fields), u) ->
  upload_single_invoice self tok cid (i, w)
  = let up := uploaded_invoice (id_of fields) (utcnow (clock_reads u)) i in
    match session u with
    | AwaitsRollback expired cause =>
        (inl (pending_rollback expired cause),
         (Invoice.set_upload_error (Some (exn_str (pending_rollback expired cause))) up,
          clock_read u))
    | Active =>
        match outcome (next_commit u) with
        | Committed =>
            (inr (single_success (id_of fields)),
             (up, store_invoice up (flushed (clock_read u))))
        | FlushRaises msg =>
            (inl (pending_rollback true msg),
             (Invoice.set_upload_error (Some msg) up,
              set_session (AwaitsRollback true msg) (flushed (clock_read u))))
        | CommitRaises msg =>
            (inl (pending_rollback false msg),
             (Invoice.set_upload_error (Some msg) up,
              set_session (AwaitsRollback false msg) (flushed (clock_read u))))
        end
    end.
Proof.
  intros Hc.
  unfold upload_single_invoice, try_except, bind, on_world, the_doc, update_doc,
    eval, db_session_commit, ret; simpl. rewrite Hc; simpl.
  destruct (session u) eqn:Hs; simpl; [| rewrite Hs; reflexivity].
  unfold next_commit; simpl. fold (next_commit u).
  destruct (outcome (next_commit u)); reflexivity.
Qed.

Lemma upload_single_invoice_uploaded self tok cid i (w u : world) fields :
  create_invoice (qb_api self) (Invoice.to_quickbooks_json i) tok cid w
  = (inr (JObj fields), u) ->
  commit_raises_next u = false ->
  upload_single_invoice self tok cid (i, w)
  = (inr (single_success (id_of fields)),
     (uploaded_invoice (id_of fields) (utcnow (clock_reads u)) i,
      store_invoice (uploaded_invoice (id_of fields) (utcnow (clock_reads u)) i)
        (flushed (clock_read u)))).
Proof.
  intros Hc Hno. rewrite (upload_single_invoice_created _ _ _ _ _ _ _ Hc). cbv zeta.
  unfold commit_raises_next in Hno.
  destruct (session u); [| discriminate].
  destruct (outcome (next_commit u)); [reflexivity | discriminate | discriminate].
Qed.

Lemma upload_single_bill_failed self tok cid b (w u : world) e :
  create_bill (qb_api self) (Bill.to_quickbooks_json b) tok cid w = (inl e, u) ->
  upload_single_bill self tok cid (b, w)
  = let b' := Bill.set_upload_error (Some (exn_str e)) b in
    match session u with
    | AwaitsRollback expired cause => (inl (pending_rollback expired cause), (b', u))
    | Active =>
        match outcome (next_commit u) with
        | Committed => (inr (single_failure (exn_str e)), (b', store_bill b' (flushed u)))
        | FlushRaises msg =>
            (inl (Raise Exception msg),
             (b', set_session (AwaitsRollback true msg) (flushed u)))
        | CommitRaises msg =>
            (inl (Raise Exception msg),
             (b', set_session (AwaitsRollback false msg) (flushed u)))
        end
    end.
Proof.
  intros Hc.
  unfold upload_single_bill, try_except, bind, on_world, the_doc, update_doc,
    eval, db_session_commit, ret; simpl. rewrite Hc; simpl.
  destruct (session u); [| reflexivity].
  destruct (outcome (next_commit u)); reflexivity.
Qed.

Lemma upload_single_bill_created self tok cid b (w u : world) fields :
  create_bill (qb_api self) (Bill.to_quickbooks_json b) tok cid w
  = (inr (JObj fields), u) ->
  upload_single_bill self tok cid (b, w)
  = let up := uploaded_bill (id_of fields) (utcnow (clock_reads u)) b in
    match session u with
    | AwaitsRollback expired cause =>
        (inl (pending_rollback expired cause),
         (Bill.set_upload_error (Some (exn_str (pending_rollback expired cause))) up,
          clock_read u))
    | Active =>
        match outcome (next_commit u) with
        | Committed =>
            (inr (single_success (id_of fields)),
             (up, store_bill up (flushed (clock_read u))))
        | FlushRaises msg =>
            (inl (pending_rollback true msg),
             (Bill.set_upload_error (Some msg) up,
              set_session (AwaitsRollback true msg) (flushed (clock_read u))))
        | CommitRaises msg =>
            (inl (pending_rollback false msg),
             (Bill.set_upload_error (Some msg) up,
              set_session (AwaitsRollback false msg) (flushed (clock_read u))))
        end
    end.
Proof.
  intros Hc.
  unfold upload_single_bill, try_except, bind, on_world, the_doc, update_doc,
    eval, db_session_commit, ret; simpl. rewrite Hc; simpl.
  destruct (session u) eqn:Hs; simpl; [| rewrite Hs; reflexivity].
  unfold next_commit; simpl. fold (next_commit u).
  destruct (outcome (next_commit u)); reflexivity.
Qed.

Lemma upload_single_bill_uploaded self tok cid b (w u : world) fields :
  create_bill (qb_api self) (Bill.to_quickbooks_json b) tok cid w
  = (inr (JObj fields), u) ->
  commit_raises_next u = false ->
  upload_single_bill self tok cid (b, w)
  = (inr (single_success (id_of fields)),
     (uploaded_bill (id_of fields) (utcnow (clock_reads u)) b,
      store_bill (uploaded_bill (id_of fields) (utcnow (clock_reads u)) b)
        (flushed (clock_read u)))).
Proof.
  intros Hc Hno. rewrite (upload_single_bill_created _ _ _ _ _ _ _ Hc). cbv zeta.
  unfold commit_raises_next in Hno.
  destruct (session u); [| discriminate].
  destruct (outcome (next_commit u)); [reflexivity | discriminate | discriminate].
Qed.

(** A single upload, whatever it meets: the record it leaves, what it
    returns and the rows it writes. A call that returns has written the
    row of its record, a call that raises has written none. *)
Lemma upload_single_invoice_outcome self tok cid i (w : world) r i' w' :
  upload_single_invoice self tok cid (i, w) = (r, (i', w')) ->
  bill_rows w' = bill_rows w
  /\ match r with
     | inr _ => invoice_rows w' = <[Invoice.id i := i']> (invoice_rows w)
     | inl _ => invoice_rows w' = invoice_rows w
     end
  /\ match create_invoice (qb_api self) (Invoice.to_quickbooks_json i) tok cid w with
     | (inl e, w1) =>
         i' = Invoice.set_upload_error (Some (exn_str e)) i
         /\ forall out, r = inr out -> out = single_failure (exn_str e)
     | (inr created, w1) =>
         exists fields, created = JObj fields
         /\ let up := uploaded_invoice (id_of fields) (utcnow (clock_reads w1)) i in
            if commit_raises_next w1
            then exists msg e, i' = Invoice.set_upload_error (Some msg) up /\ r = inl e
            else i' = up /\ r = inr (single_success (id_of fields))
     end.
Proof.
  intros H.
  destruct (keeps_create_invoice (qb_api self) (Invoice.to_quickbooks_json i) tok cid w)
    as [Hdb _].
  destruct (create_invoice (qb_api self) (Invoice.to_quickbooks_json i) tok cid w)
    as [[e | created] w1] eqn:Hc; simpl in Hdb;
    unfold db_of in Hdb; injection Hdb as _ _ Hi Hb.
  - rewrite (upload_single_invoice_failed _ _ _ _ _ _ _ Hc) in H. cbv zeta in H.
    destruct (session w1).
    + destruct (outcome (next_commit w1)); injection H as <- <- <-; simpl;
        rewrite ?Hi, ?Hb;
        (split; [reflexivity |]); (split; [reflexivity |]);
        (split; [reflexivity |]); intros out Ho;
        first [discriminate | injection Ho as <-; reflexivity].
    + injection H as <- <- <-. rewrite Hi, Hb.
      split; [reflexivity |]. split; [reflexivity |]. split; [reflexivity |].
      intros out Ho. discriminate.
  - destruct (create_invoice_returns_dict _ _ _ _ _ _ _ Hc) as [fields ->].
    rewrite (upload_single_invoice_created _ _ _ _ _ _ _ Hc) in H. cbv zeta in H.
    unfold commit_raises_next.
    destruct (session w1).
    + destruct (outcome (next_commit w1)); injection H as <- <- <-; simpl;
        rewrite ?Hi, ?Hb;
        (split; [reflexivity |]); (split; [reflexivity |]);
        exists fields; (split; [reflexivity |]); eauto.
    + injection H as <- <- <-. simpl. rewrite Hi, Hb.
      split; [reflexivity |]. split; [reflexivity |].
      exists fields. split; [reflexivity |]. eauto.
Qed.

Lemma upload_single_bill_outcome self tok cid b (w : world) r b' w' :
  upload_single_bill self tok cid (b, w) = (r, (b', w')) ->
  invoice_rows w' = invoice_rows w
  /\ match r with
     | inr _ => bill_rows w' = <[Bill.id b := b']> (bill_rows w)
     | inl _ => bill_rows w' = bill_rows w
     end
  /\ match create_bill (qb_api self) (Bill.to_quickbooks_json b) tok cid w with
     | (inl e, w1) =>
         b' = Bill.set_upload_error (Some (exn_str e)) b
         /\ forall out, r = inr out -> out = single_failure (exn_str e)
     | (inr created, w1) =>
         exists fields, created = JObj fields
         /\ let up := uploaded_bill (id_of fields) (utcnow (clock_reads w1)) b in
            if commit_raises_next w1
            then exists msg e, b' = Bill.set_upload_error (Some msg) up /\ r = inl e
            else b' = up /\ r = inr (single_success (id_of fields))
     end.
Proof.
  intros H.
  destruct (keeps_create_bill (qb_api self) (Bill.to_quickbooks_json b) tok cid w)
    as [Hdb _].
  destruct (create_bill (qb_api self) (Bill.to_quickbooks_json b) tok cid w)
    as [[e | created] w1] eqn:Hc; simpl in Hdb;
    unfold db_of in Hdb; injection Hdb as _ _ Hi Hb.
  - rewrite (upload_single_bill_failed _ _ _ _ _ _ _ Hc) in H. cbv zeta in H.
    destruct (session w1).
    + destruct (outcome (next_commit w1)); injection H as <- <- <-; simpl;
        rewrite ?Hi, ?Hb;
        (split; [reflexivity |]); (split; [reflexivity |]);
        (split; [reflexivity |]); intros out Ho;
        first [discriminate | injection Ho as <-; reflexivity].
    + injection H as <- <- <-. rewrite Hi, Hb.
      split; [reflexivity |]. split; [reflexivity |]. split; [reflexivity |].
      intros out Ho. discriminate.
  - destruct (create_bill_returns_dict _ _ _ _ _ _ _ Hc) as [fields ->].
    rewrite (upload_single_bill_created _ _ _ _ _ _ _ Hc) in H. cbv zeta in H.
    unfold commit_raises_next.
    destruct (session w1).
    + destruct (outcome (next_commit w1)); injection H as <- <- <-; simpl;
        rewrite ?Hi, ?Hb;
        (split; [reflexivity |]); (split; [reflexivity |]);
        exists fields; (split; [reflexivity |]); eauto.
    + injection H as <- <- <-. simpl. rewrite Hi, Hb.
      split; [reflexivity |]. split; [reflexivity |].
      exists fields. split; [reflexivity |]. eauto.
Qed.

(** *** Replies behind a created object *)

(** [_make_request] returns only what a reply of the platform carried. *)
Lemma make_request_returns self m endpoint tok cid data (w w' : world) v :
  _make_request self m endpoint tok cid data w = (inr v, w') ->
  exists r, fst (http (build_request self m endpoint tok cid data) (remote w))
            = HttpResponds r
            /\ raise_for_status r (request_url self cid endpoint) = inr tt
            /\ body r = inr v.
Proof.
  unfold _make_request, try_except, bind, log, requests_call, eval; simpl.
  destruct (http (build_request self m endpoint tok cid data) (remote w)) as [[e | r] x];
    simpl.
  - destruct (exn_class e); discriminate.
  - intros H. exists r. split; [reflexivity |].
    destruct (status_code r =? 200); simpl in H;
      (destruct (raise_for_status r (request_url self cid endpoint)) as [e | []];
       simpl in H;
       [ destruct (exn_class e); discriminate
       | destruct (body r) as [e | v0]; simpl in H;
         [ destruct (exn_class e); discriminate
         | injection H as -> _; auto ] ]).
Qed.

(** [create_invoice] returns only the object found in the reply to its
    POST to the invoice endpoint. *)
Lemma create_invoice_returns_reply api data tok cid (w w' : world) v :
  create_invoice api data tok cid w = (inr v, w') ->
  exists payload u u' response,
    _make_request api POST "invoice" tok cid payload u = (inr response, u')
    /\ created_object "Invoice" response = inr v.
Proof.
  intros H. apply try_except_returns in H. destruct H as [H | (e & s1 & _ & H)].
  - peel H. unfold ret in H. injection H as <- _.
    match goal with
    | Hm : _make_request _ POST "invoice" _ _ ?p ?u = (inr ?r, ?u'),
      Ho : eval (created_object "Invoice" ?r) _ = _ |- _ =>
        exists p, u, u', r; split; [exact Hm |];
        unfold eval in Ho; injection Ho as Ho _; exact Ho
    end.
  - unfold bind, log, raise in H. discriminate.
Qed.

Lemma create_bill_returns_reply api data tok cid (w w' : world) v :
  create_bill api data tok cid w = (inr v, w') ->
  exists payload u u' response,
    _make_request api POST "bill" tok cid payload u = (inr response, u')
    /\ created_object "Bill" response = inr v.
Proof.
  intros H. apply try_except_returns in H. destruct H as [H | (e & s1 & _ & H)].
  - peel H. unfold ret in H. injection H as <- _.
    match goal with
    | Hm : _make_request _ POST "bill" _ _ ?p ?u = (inr ?r, ?u'),
      Ho : eval (created_object "Bill" ?r) _ = _ |- _ =>
        exists p, u, u', r; split; [exact Hm |];
        unfold eval in Ho; injection Ho as Ho _; exact Ho
    end.
  - unfold bind, log, raise in H. discriminate.
Qed.

(** *** The database during an attempt *)

Lemma sync_invoice_keeps_db self result tok cid i (w : world) :
  db_of (snd (snd (sync_invoice self result tok cid (i, w)))) = db_of w.
Proof.
  destruct (keeps_create_invoice (qb_api self) (Invoice.to_quickbooks_json i) tok cid w)
    as [Hdb _].
  destruct (create_invoice (qb_api self) (Invoice.to_quickbooks_json i) tok cid w)
    as [[e | resp] w1] eqn:Hc; simpl in Hdb.
  - rewrite (sync_invoice_failed _ _ _ _ _ _ _ _ Hc). exact Hdb.
  - destruct (create_invoice_returns_dict _ _ _ _ _ _ _ Hc) as [fields ->].
    rewrite (sync_invoice_uploaded _ _ _ _ _ _ _ _ Hc). exact Hdb.
Qed.

Lemma sync_bill_keeps_db self result tok cid b (w : world) :
  db_of (snd (snd (sync_bill self result tok cid (b, w)))) = db_of w.
Proof.
  destruct (keeps_create_bill (qb_api self) (Bill.to_quickbooks_json b) tok cid w)
    as [Hdb _].
  destruct (create_bill (qb_api self) (Bill.to_quickbooks_json b) tok cid w)
    as [[e | resp] w1] eqn:Hc; simpl in Hdb.
  - rewrite (sync_bill_failed _ _ _ _ _ _ _ _ Hc). exact Hdb.
  - destruct (create_bill_returns_dict _ _ _ _ _ _ _ Hc) as [fields ->].
    rewrite (sync_bill_uploaded _ _ _ _ _ _ _ _ Hc). exact Hdb.
Qed.

(** *** One attempt and one commit, case by case *)

Lemma drop_tail {A} n (l : list A) : drop n (tail l) = drop (S n) l.
Proof. destruct l; simpl; [destruct n; reflexivity | reflexivity]. Qed.

Lemma rows_consistent_same_rows (w w' : world) :
  invoice_rows w' = invoice_rows w -> bill_rows w' = bill_rows w ->
  rows_consistent w -> rows_consistent w'.
Proof. unfold rows_consistent. intros -> -> H. exact H. Qed.

Lemma rows_consistent_insert_invoice (w w' : world) k i :
  invoice_rows w' = <[k := i]> (invoice_rows w) -> bill_rows w' = bill_rows w ->
  error_only_when_pending (Invoice.state i) = true ->
  rows_consistent w -> rows_consistent w'.
Proof.
  unfold rows_consistent. intros -> -> Hi [Hinv Hbill]. split; [| exact Hbill].
  intros k' row. rewrite lookup_insert. case_decide.
  - intros [= <-]. exact Hi.
  - apply Hinv.
Qed.

Lemma rows_consistent_insert_bill (w w' : world) k b :
  bill_rows w' = <[k := b]> (bill_rows w) -> invoice_rows w' = invoice_rows w ->
  error_only_when_pending (Bill.state b) = true ->
  rows_consistent w -> rows_consistent w'.
Proof.
  unfold rows_consistent. intros -> -> Hb [Hinv Hbill]. split; [exact Hinv |].
  intros k' row. rewrite lookup_insert. case_decide.
  - intros [= <-]. exact Hb.
  - apply Hbill.
Qed.

Lemma sync_invoice_cases self result tok cid i (w : world) :
  exists r i1 w1,
    sync_invoice self result tok cid (i, w) = (inr r, (i1, w1))
    /\ (db_faults w1 = db_faults w /\ session w1 = session w
        /\ invoice_rows w1 = invoice_rows w /\ bill_rows w1 = bill_rows w)
    /\ sent w1
       = sent (snd (create_invoice (qb_api self) (Invoice.to_quickbooks_json i) tok cid w))
    /\ invoice_business i1 = invoice_business i
    /\ ((r = record_success (invoice_success_detail i1) result
         /\ Invoice.upload_error i1 = None
         /\ clock_reads w1 = S (clock_reads w))
        \/ (exists msg, r = record_failure (invoice_failure_detail i1 msg) result
                        /\ i1 = Invoice.set_upload_error (Some msg) i
                        /\ clock_reads w1 = clock_reads w)).
Proof.
  destruct (keeps_create_invoice (qb_api self) (Invoice.to_quickbooks_json i) tok cid w)
    as [Hdb Hclock].
  destruct (create_invoice (qb_api self) (Invoice.to_quickbooks_json i) tok cid w)
    as [[e | resp] u] eqn:Hc; simpl in Hdb, Hclock;
    unfold db_of in Hdb; injection Hdb as Hf Hs Hi Hb.
  - rewrite (sync_invoice_failed _ _ _ _ _ _ _ _ Hc).
    do 3 eexists. split; [reflexivity |].
    split; [simpl; repeat split; assumption |].
    split; [reflexivity |]. split; [reflexivity |].
    right. exists (exn_str e). simpl. repeat split. exact Hclock.
  - destruct (create_invoice_returns_dict _ _ _ _ _ _ _ Hc) as [fields ->].
    rewrite (sync_invoice_uploaded _ _ _ _ _ _ _ _ Hc).
    do 3 eexists. split; [reflexivity |].
    split; [simpl; repeat split; assumption |].
    split; [reflexivity |]. split; [reflexivity |].
    left. simpl. repeat split. rewrite Hclock. reflexivity.
Qed.

(** One turn, from its attempt and its commit. *)
Lemma invoice_turn_steps self result tok cid i (w w1 w2 : world) r i1 res i2 :
  sync_invoice self result tok cid (i, w) = (inr r, (i1, w1)) ->
  commit_invoice (i1, w1) = (res, (i2, w2)) ->
  invoice_turn self result tok cid (i, w)
  = (match res with inr _ => inr r | inl e => inl e end, (i2, w2)).
Proof.
  intros Hs Hc. unfold invoice_turn. unfold bind at 1. rewrite Hs.
  unfold bind at 1. rewrite Hc. destruct res; reflexivity.
Qed.

Lemma invoice_turn_returns self result tok cid i (w w1 w2 : world) r i1 i2 :
  sync_invoice self result tok cid (i, w) = (inr r, (i1, w1)) ->
  commit_invoice (i1, w1) = (inr tt, (i2, w2)) ->
  invoice_turn self result tok cid (i, w) = (inr r, (i2, w2)).
Proof. intros Hs Hc. rewrite (invoice_turn_steps _ _ _ _ _ _ _ _ _ _ _ _ Hs Hc). reflexivity. Qed.

Lemma invoice_doc_turn self result tok cid i (w w1 w2 : world) r i1 res i2 :
  sync_invoice self result tok cid (i, w) = (inr r, (i1, w1)) ->
  commit_invoice (i1, w1) = (res, (i2, w2)) ->
  with_doc i (invoice_turn self result tok cid) w
  = (match res with inr _ => inr (r, i2) | inl e => inl e end, w2).
Proof.
  intros Hs Hc. unfold with_doc.
  rewrite (invoice_turn_steps _ _ _ _ _ _ _ _ _ _ _ _ Hs Hc). destruct res; reflexivity.
Qed.

(** The loop, one turn unfolded: a turn that raises ends the loop. *)
Lemma for_each_invoice_step self tok cid i rest result (w w1 w2 : world) r i1 res i2 :
  sync_invoice self result tok cid (i, w) = (inr r, (i1, w1)) ->
  commit_invoice (i1, w1) = (res, (i2, w2)) ->
  for_each_invoice self tok cid (i :: rest) result w
  = match res with
    | inr _ =>
        match for_each_invoice self tok cid rest r w2 with
        | (inr (r', docs), w3) => (inr (r', i2 :: docs), w3)
        | (inl e, w3) => (inl e, w3)
        end
    | inl e => (inl e, w2)
    end.
Proof.
  intros Hs Hc. simpl. unfold bind at 1.
  rewrite (invoice_doc_turn _ _ _ _ _ _ _ _ _ _ _ _ Hs Hc).
  destruct res as [e | []]; [reflexivity |].
  unfold bind, ret.
  destruct (for_each_invoice self tok cid rest r w2) as [[e | [r' docs]] w3]; reflexivity.
Qed.

(** What a turn leaves in the database, whether it returns or raises:
    the rows as they were, or the row of its document rewritten. *)
Lemma invoice_turn_final self result tok cid i (w : world) :
  bill_rows (snd (with_doc i (invoice_turn self result tok cid) w)) = bill_rows w
  /\ (invoice_rows (snd (with_doc i (invoice_turn self result tok cid) w))
      = invoice_rows w
      \/ exists i1,
           (Invoice.quickbooks_id i = JNull ->
            error_only_when_pending (Invoice.state i1) = true)
           /\ invoice_rows (snd (with_doc i (invoice_turn self result tok cid) w))
              = <[Invoice.id i := i1]> (invoice_rows w)).
Proof.
  destruct (sync_invoice_cases self result tok cid i w)
    as (r & i1 & w1 & Hs & (_ & _ & Hown & Hother) & _ & Hbus & Hr).
  destruct (commit_invoice_cases i1 w1)
    as (res & i2 & w2 & Hc & _ & _ & Hother2 & _ & _ & Hres).
  rewrite (invoice_doc_turn _ _ _ _ _ _ _ _ _ _ _ _ Hs Hc).
  assert (Hid : Invoice.id i1 = Invoice.id i)
    by (unfold invoice_business in Hbus; congruence).
  cbn [snd]. split; [congruence |].
  destruct res as [e | []].
  - left. destruct Hres as (_ & Hrows & _). congruence.
  - destruct Hres as (_ & _ & Hrows). destruct (commit_raises_next w1).
    + left. destruct Hrows as [Hrows _]. congruence.
    + right. exists i1. destruct Hrows as [Hrows _]. split; [| congruence].
      intros Hnull. destruct Hr as [(_ & Herr & _) | (msg & _ & -> & _)].
      * unfold error_only_when_pending, has_error. simpl. rewrite Herr. reflexivity.
      * unfold error_only_when_pending, has_error. simpl. rewrite Hnull. reflexivity.
Qed.

(** A property of the world that every turn keeps holds after the loop,
    however the loop ends. *)
Lemma for_each_invoice_invariant (P : world -> Prop) self tok cid invoices :
  (forall i result w, i ∈ invoices -> P w ->
     P (snd (with_doc i (invoice_turn self result tok cid) w))) ->
  forall result w, P w -> P (snd (for_each_invoice self tok cid invoices result w)).
Proof.
  induction invoices as [| i rest IH]; intros Hturn result w Hw.
  - exact Hw.
  - simpl. unfold bind at 1.
    pose proof (Hturn i result w (list_elem_of_here _ _) Hw) as H1.
    destruct (with_doc i (invoice_turn self result tok cid) w) as [[e | [r i']] w1];
      simpl in H1 |- *; [exact H1 |].
    assert (H2 := IH (fun j res u Hj => Hturn j res u (list_elem_of_further _ _ _ Hj))
                     r w1 H1).
    unfold bind, ret.
    destruct (for_each_invoice self tok cid rest r w1) as [[e | [r' docs]] w2];
      exact H2.
Qed.

(** A loop that returns: what its result and the world say. *)
Lemma for_each_invoice_returned self tok cid invoices :
  forall result (w : world) r docs w',
    for_each_invoice self tok cid invoices result w = (inr (r, docs), w') ->
    exists ds,
      details r = (details result ++ ds)%list
      /\ total r = total result
      /\ map detail_id ds = map (fun i => inr (JInt (Invoice.id i))) invoices
      /\ successful r
         = (successful result + length (List.filter (is_status "success") ds))%nat
      /\ failed r = (failed result + length (List.filter (is_status "failed") ds))%nat
      /\ (successful r + failed r
          = successful result + failed result + length invoices)%nat
      /\ length docs = length invoices
      /\ (session w = Active ->
          session w' = Active
          /\ db_faults w' = drop (length invoices) (db_faults w)
          /\ clock_reads w'
             = (clock_reads w + (successful r - successful result)
                + updates_to_come (length invoices) (db_faults w))%nat).
Proof.
  induction invoices as [| i rest IH]; intros result w r docs w' H.
  - simpl in H. unfold ret in H. injection H as <- <- <-. exists [].
    simpl. rewrite app_nil_r. repeat split; try lia. assumption.
  - destruct (sync_invoice_cases self result tok cid i w)
      as (r1 & i1 & w1 & Hs & (Hf & Hses & _ & _) & _ & Hbus & Hr).
    destruct (commit_invoice_cases i1 w1)
      as (res & i2 & w2 & Hc & _ & _ & _ & _ & Hact & Hres).
    rewrite (for_each_invoice_step _ _ _ _ _ _ _ _ _ _ _ _ _ Hs Hc) in H.
    destruct res as [e | []]; [discriminate |].
    destruct (for_each_invoice self tok cid rest r1 w2) as [[e | [r' docs']] w3] eqn:Hrest;
      [discriminate |].
    injection H as <- <- <-.
    destruct (IH _ _ _ _ _ Hrest) as (ds & Hd & Ht & Hid & Hok & Hko & Hsum & Hlen & Hrun).
    destruct Hres as (_ & Hses2 & _).
    assert (Hi1 : Invoice.id i1 = Invoice.id i)
      by (unfold invoice_business in Hbus; congruence).
    assert (Hnext : next_commit w1 = next_commit w)
      by (unfold next_commit; rewrite Hf; reflexivity).
    assert (Hupd : updates_to_come (S (length rest)) (db_faults w)
                   = (updates (next_commit w)
                      + updates_to_come (length rest) (tail (db_faults w)))%nat)
      by (unfold next_commit; destruct (db_faults w); reflexivity).
    destruct Hr as [(-> & _ & Hclock) | (msg & -> & _ & Hclock)].
    + exists (invoice_success_detail i1 :: ds).
      split; [rewrite Hd; simpl; rewrite <- app_assoc; reflexivity |].
      split; [rewrite Ht; reflexivity |].
      split; [simpl; rewrite Hid; unfold detail_id; simpl; rewrite Hi1; reflexivity |].
      split; [rewrite Hok; simpl; lia |].
      split; [rewrite Hko; simpl; lia |].
      split; [rewrite Hsum; simpl; lia |].
      split; [simpl; lia |].
      intros Ha. rewrite <- Hses in Ha. destruct (Hact Ha) as [Htail Hclock2].
      destruct (Hrun Hses2) as (Hs3 & Hf3 & Hc3).
      split; [exact Hs3 |].
      split; [rewrite Hf3, Htail, Hf; apply drop_tail |].
      rewrite Hc3, Hclock2, Hclock, Htail, Hf, Hnext. simpl length. rewrite Hupd.
      rewrite Hok. simpl. lia.
    + exists (invoice_failure_detail i1 msg :: ds).
      split; [rewrite Hd; simpl; rewrite <- app_assoc; reflexivity |].
      split; [rewrite Ht; reflexivity |].
      split; [simpl; rewrite Hid; unfold detail_id; simpl; rewrite Hi1; reflexivity |].
      split; [rewrite Hok; simpl; lia |].
      split; [rewrite Hko; simpl; lia |].
      split; [rewrite Hsum; simpl; lia |].
      split; [simpl; lia |].
      intros Ha. rewrite <- Hses in Ha. destruct (Hact Ha) as [Htail Hclock2].
      destruct (Hrun Hses2) as (Hs3 & Hf3 & Hc3).
      split; [exact Hs3 |].
      split; [rewrite Hf3, Htail, Hf; apply drop_tail |].
      rewrite Hc3, Hclock2, Hclock, Htail, Hf, Hnext. simpl length. rewrite Hupd.
      rewrite Hok. simpl. lia.
Qed.

(** When no commit fails in its flush, the loop returns. *)
Lemma for_each_invoice_runs self tok cid invoices :
  forall result (w : world),
    no_flush_fails w ->
    exists r docs w',
      for_each_invoice self tok cid invoices result w = (inr (r, docs), w')
      /\ no_flush_fails w'.
Proof.
  induction invoices as [| i rest IH]; intros result w Hno.
  - exists result, [], w. split; [reflexivity | exact Hno].
  - destruct (sync_invoice_cases self result tok cid i w)
      as (r1 & i1 & w1 & Hs & (Hf & Hses & Hown & Hother) & _).
    destruct (commit_invoice_cases i1 w1)
      as (res & i2 & w2 & Hc & _ & _ & _ & Hf2 & _ & Hres).
    assert (Hno1 : no_flush_fails w1)
      by (apply (no_flush_fails_same_db w); [unfold db_of; congruence | exact Hno]).
    rewrite (for_each_invoice_step _ _ _ _ _ _ _ _ _ _ _ _ _ Hs Hc).
    destruct res as [e | []].
    + destruct Hres as (Hraise & _).
      rewrite (no_flush_fails_next w1 Hno1) in Hraise. discriminate.
    + destruct Hres as (_ & Hses2 & _).
      destruct (IH r1 w2 (no_flush_fails_after w1 w2 Hses2 Hf2 Hno1))
        as (r' & docs & w3 & -> & Hno3).
      eauto.
Qed.

(** When no commit raises at all, every record handed back is what its
    row holds. *)
Lemma for_each_invoice_persisted self tok cid invoices :
  forall result (w : world),
    no_commit_fails w ->
    exists r docs w',
      for_each_invoice self tok cid invoices result w = (inr (r, docs), w')
      /\ no_commit_fails w'
      /\ bill_rows w' = bill_rows w
      /\ map invoice_business docs = map invoice_business invoices
      /\ (forall k, k ∉ map Invoice.id invoices ->
                    invoice_rows w' !! k = invoice_rows w !! k)
      /\ (NoDup (map Invoice.id invoices) ->
          Forall (fun i => invoice_rows w' !! Invoice.id i = Some i) docs).
Proof.
  induction invoices as [| i rest IH]; intros result w Hno.
  - exists result, [], w. split; [reflexivity |]. split; [exact Hno |].
    split; [reflexivity |]. split; [reflexivity |]. split; [reflexivity |].
    intros _. constructor.
  - destruct (sync_invoice_cases self result tok cid i w)
      as (r1 & i1 & w1 & Hs & (Hf & Hses & Hown & Hother) & _ & Hbus & _).
    destruct (commit_invoice_cases i1 w1)
      as (res & i2 & w2 & Hc & _ & _ & Hother2 & Hf2 & _ & Hres).
    assert (Hno1 : no_commit_fails w1)
      by (apply (no_commit_fails_same_db w); [unfold db_of; congruence | exact Hno]).
    destruct (no_commit_fails_next w1 Hno1) as [Hcommits Hflushes].
    rewrite (for_each_invoice_step _ _ _ _ _ _ _ _ _ _ _ _ _ Hs Hc).
    destruct res as [e | []].
    + destruct Hres as (Hraise & _). rewrite Hflushes in Hraise. discriminate.
    + destruct Hres as (_ & Hses2 & Hrows). rewrite Hcommits in Hrows.
      destruct Hrows as [Hrows ->].
      destruct (IH r1 w2 (no_commit_fails_after w1 w2 Hses2 Hf2 Hno1))
        as (r' & docs & w3 & -> & Hno3 & Hother3 & Hbus3 & Hout & Hgood).
      assert (Hi1 : Invoice.id i1 = Invoice.id i)
        by (unfold invoice_business in Hbus; congruence).
      do 3 eexists. split; [reflexivity |]. split; [exact Hno3 |].
      split; [congruence |].
      split; [simpl; rewrite Hbus3, Hbus; reflexivity |].
      split.
      * intros k Hk. simpl in Hk. apply not_elem_of_cons in Hk as [Hne Hk].
        rewrite (Hout k Hk), Hrows, lookup_insert, Hi1, Hown.
        case_decide; [congruence | reflexivity].
      * intros Hnd. simpl in Hnd. apply NoDup_cons in Hnd as [Hnotin Hnd].
        constructor; [| exact (Hgood Hnd)].
        assert (Hni : Invoice.id i1 ∉ map Invoice.id rest)
          by (rewrite Hi1; exact Hnotin).
        rewrite (Hout _ Hni), Hrows, lookup_insert.
        case_decide; [reflexivity | congruence].
Qed.

(** The rows a loop leaves, however it ends: those of other documents
    as they were, none deleted, none added but for its documents. *)
Lemma for_each_invoice_rows self tok cid invoices result (w : world) :
  bill_rows (snd (for_each_invoice self tok cid invoices result w)) = bill_rows w
  /\ (forall k, k ∉ map Invoice.id invoices ->
        invoice_rows (snd (for_each_invoice self tok cid invoices result w)) !! k
        = invoice_rows w !! k)
  /\ (forall k, is_Some (invoice_rows w !! k) ->
        is_Some (invoice_rows (snd (for_each_invoice self tok cid invoices result w))
                 !! k)).
Proof.
  apply (for_each_invoice_invariant
           (fun u => bill_rows u = bill_rows w
                     /\ (forall k, k ∉ map Invoice.id invoices ->
                                   invoice_rows u !! k = invoice_rows w !! k)
                     /\ (forall k, is_Some (invoice_rows w !! k) ->
                                   is_Some (invoice_rows u !! k)))).
  - intros i res u Hi (Hother & Hout & Hkeep).
    destruct (invoice_turn_final self res tok cid i u) as [Hother' Hown'].
    split; [congruence |].
    destruct Hown' as [-> | (i1 & _ & ->)]; [split; assumption |].
    split.
    + intros k Hk. rewrite lookup_insert. case_decide as Hkey; [| apply Hout, Hk].
      exfalso. apply Hk. rewrite <- Hkey. apply list_elem_of_fmap. eauto.
    + intros k Hk. rewrite lookup_insert. case_decide; [eauto | apply Hkeep, Hk].
  - auto.
Qed.

(** Pending documents and consistent rows stay so. *)
Lemma invoice_turn_consistent self result tok cid i (w : world) :
  Invoice.quickbooks_id i = JNull ->
  rows_consistent w ->
  rows_consistent (snd (with_doc i (invoice_turn self result tok cid) w)).
Proof.
  intros Hnull Hw.
  destruct (invoice_turn_final self result tok cid i w) as [Hother Hown].
  destruct Hown as [Hsame | (i1 & Hi1 & Hins)].
  - apply (rows_consistent_same_rows w); assumption.
  - apply (rows_consistent_insert_invoice w _ (Invoice.id i) i1);
      [exact Hins | exact Hother | exact (Hi1 Hnull) | exact Hw].
Qed.

Lemma for_each_invoice_consistent self tok cid invoices result (w : world) :
  Forall (fun i => Invoice.quickbooks_id i = JNull) invoices ->
  rows_consistent w ->
  rows_consistent (snd (for_each_invoice self tok cid invoices result w)).
Proof.
  intros Hp Hrows. apply for_each_invoice_invariant; [| exact Hrows].
  intros i res u Hi Hu. rewrite Forall_forall in Hp.
  apply invoice_turn_consistent; [exact (Hp i Hi) | exact Hu].
Qed.

(** The records a loop over pending documents hands back. *)
Lemma for_each_invoice_docs self tok cid invoices :
  Forall (fun i => Invoice.quickbooks_id i = JNull) invoices ->
  forall result (w : world) r docs w',
    rows_consistent w ->
    for_each_invoice self tok cid invoices result w = (inr (r, docs), w') ->
    Forall (fun i => error_only_when_pending (Invoice.state i) = true) docs.
Proof.
  induction 1 as [| i rest Hnull _ IH]; intros result w r docs w' Hrows H.
  - simpl in H. unfold ret in H. injection H as <- <- <-. constructor.
  - pose proof (invoice_turn_consistent self result tok cid i w Hnull Hrows) as Hrows1.
    destruct (sync_invoice_cases self result tok cid i w)
      as (r1 & i1 & w1 & Hs & (_ & _ & Hown & Hother) & _ & _ & Hr).
    destruct (commit_invoice_cases i1 w1)
      as (res & i2 & w2 & Hc & _ & _ & _ & _ & _ & Hres).
    rewrite (invoice_doc_turn _ _ _ _ _ _ _ _ _ _ _ _ Hs Hc) in Hrows1.
    rewrite (for_each_invoice_step _ _ _ _ _ _ _ _ _ _ _ _ _ Hs Hc) in H.
    destruct res as [e | []]; [discriminate |].
    simpl in Hrows1.
    destruct (for_each_invoice self tok cid rest r1 w2) as [[e | [r' docs']] w3] eqn:Hrest;
      [discriminate |].
    injection H as <- <- <-.
    constructor; [| exact (IH _ _ _ _ _ Hrows1 Hrest)].
    assert (Hi1 : error_only_when_pending (Invoice.state i1) = true).
    { destruct Hr as [(_ & Herr & _) | (msg & _ & -> & _)];
        unfold error_only_when_pending, has_error; simpl;
        [rewrite Herr | rewrite Hnull]; reflexivity. }
    destruct Hres as (_ & _ & Hi2). destruct (commit_raises_next w1).
    + destruct Hi2 as [_ ->].
      destruct (invoice_rows w1 !! Invoice.id i1) as [row |] eqn:Hrow; simpl;
        [| exact Hi1].
      rewrite Hown in Hrow. destruct Hrows as [Hinv Hbill].
      first [exact (Hinv _ _ Hrow) | exact (Hbill _ _ Hrow)].
    + destruct Hi2 as [_ ->]. exact Hi1.
Qed.

(** The guarded call of [upload_all]. *)
Lemma guarded_invoices_eq self invoices tok cid (w : world) :
  guarded_invoices self invoices tok cid w
  = match invoices with
    | [] => (inr (VariantResult 0 0 0 [], []), w)
    | _ =>
        for_each_invoice self tok cid invoices (VariantResult (length invoices) 0 0 [])
          (logged_line INFO ("Starting bulk upload of " +:+ str_of_nat (length invoices)
                             +:+ " invoices") w)
    end.
Proof. destruct invoices; reflexivity. Qed.

Lemma guarded_invoices_returned self invoices tok cid (w : world) r docs w' :
  guarded_invoices self invoices tok cid w = (inr (r, docs), w') ->
  total r = length invoices
  /\ map detail_id (details r) = map (fun i => inr (JInt (Invoice.id i))) invoices
  /\ successful r = length (List.filter (is_status "success") (details r))
  /\ failed r = length (List.filter (is_status "failed") (details r))
  /\ (successful r + failed r = length invoices)%nat
  /\ length docs = length invoices
  /\ (session w = Active ->
      session w' = Active
      /\ db_faults w' = drop (length invoices) (db_faults w)
      /\ clock_reads w'
         = (clock_reads w + successful r
            + updates_to_come (length invoices) (db_faults w))%nat).
Proof.
  rewrite guarded_invoices_eq. destruct invoices as [| i rest] eqn:E.
  - intros H. injection H as <- <- <-. simpl. repeat split; try lia. assumption.
  - rewrite <- E. intros H.
    apply for_each_invoice_returned in H.
    destruct H as (ds & Hd & Ht & Hid & Hok & Hko & Hsum & Hlen & Hrun).
    simpl in Hd, Ht, Hok, Hko, Hsum, Hrun. subst ds.
    split; [exact Ht |]. split; [exact Hid |]. split; [exact Hok |].
    split; [exact Hko |]. split; [exact Hsum |]. split; [exact Hlen |].
    intros Ha. destruct (Hrun Ha) as (H1 & H2 & H3).
    split; [exact H1 |]. split; [exact H2 |]. lia.
Qed.

Lemma guarded_invoices_invariant (P : world -> Prop) self invoices tok cid :
  (forall i result w, i ∈ invoices -> P w ->
     P (snd (with_doc i (invoice_turn self result tok cid) w))) ->
  (forall lvl msg w, P w -> P (logged_line lvl msg w)) ->
  forall w, P w -> P (snd (guarded_invoices self invoices tok cid w)).
Proof.
  intros Hturn Hlog w Hw. rewrite guarded_invoices_eq.
  destruct invoices as [| i rest] eqn:E; [exact Hw |]. rewrite <- E in *.
  apply for_each_invoice_invariant; [exact Hturn |]. apply Hlog, Hw.
Qed.

Lemma guarded_invoices_runs self invoices tok cid (w : world) :
  no_flush_fails w ->
  exists r docs w',
    guarded_invoices self invoices tok cid w = (inr (r, docs), w')
    /\ no_flush_fails w'.
Proof.
  intros Hno. rewrite guarded_invoices_eq.
  destruct invoices as [| i rest] eqn:E; [eauto |]. rewrite <- E.
  apply for_each_invoice_runs.
  apply (no_flush_fails_same_db w); [reflexivity | exact Hno].
Qed.

Lemma guarded_invoices_persisted self invoices tok cid (w : world) :
  no_commit_fails w ->
  exists r docs w',
    guarded_invoices self invoices tok cid w = (inr (r, docs), w')
    /\ no_commit_fails w'
    /\ bill_rows w' = bill_rows w
    /\ map invoice_business docs = map invoice_business invoices
    /\ (forall k, k ∉ map Invoice.id invoices ->
                  invoice_rows w' !! k = invoice_rows w !! k)
    /\ (NoDup (map Invoice.id invoices) ->
        Forall (fun i => invoice_rows w' !! Invoice.id i = Some i) docs).
Proof.
  intros Hno. rewrite guarded_invoices_eq.
  destruct invoices as [| i rest] eqn:E.
  - do 3 eexists. split; [reflexivity |]. split; [exact Hno |].
    split; [reflexivity |]. split; [reflexivity |]. split; [reflexivity |].
    intros _. constructor.
  - rewrite <- E.
    apply (for_each_invoice_persisted self tok cid invoices
             (VariantResult (length invoices) 0 0 [])
             (logged_line INFO ("Starting bulk upload of "
                                +:+ str_of_nat (length invoices) +:+ " invoices") w)).
    apply (no_commit_fails_same_db w); [reflexivity | exact Hno].
Qed.

Lemma guarded_invoices_docs self invoices tok cid (w : world) r docs w' :
  Forall (fun i => Invoice.quickbooks_id i = JNull) invoices ->
  rows_consistent w ->
  guarded_invoices self invoices tok cid w = (inr (r, docs), w') ->
  Forall (fun i => error_only_when_pending (Invoice.state i) = true) docs.
Proof.
  intros Hp Hrows. rewrite guarded_invoices_eq.
  destruct invoices as [| i rest] eqn:E.
  - intros H. injection H as <- <- <-. constructor.
  - rewrite <- E in *. intros H.
    eapply (for_each_invoice_docs self tok cid invoices Hp); [| exact H].
    apply (rows_consistent_same_rows w); [reflexivity | reflexivity | exact Hrows].
Qed.

Lemma sync_bill_cases self result tok cid i (w : world) :
  exists r i1 w1,
    sync_bill self result tok cid (i, w) = (inr r, (i1, w1))
    /\ (db_faults w1 = db_faults w /\ session w1 = session w
        /\ bill_rows w1 = bill_rows w /\ invoice_rows w1 = invoice_rows w)
    /\ sent w1
       = sent (snd (create_bill (qb_api self) (Bill.to_quickbooks_json i) tok cid w))
    /\ bill_business i1 = bill_business i
    /\ ((r = record_success (bill_success_detail i1) result
         /\ Bill.upload_error i1 = None
         /\ clock_reads w1 = S (clock_reads w))
        \/ (exists msg, r = record_failure (bill_failure_detail i1 msg) result
                        /\ i1 = Bill.set_upload_error (Some msg) i
                        /\ clock_reads w1 = clock_reads w)).
Proof.
  destruct (keeps_create_bill (qb_api self) (Bill.to_quickbooks_json i) tok cid w)
    as [Hdb Hclock].
  destruct (create_bill (qb_api self) (Bill.to_quickbooks_json i) tok cid w)
    as [[e | resp] u] eqn:Hc; simpl in Hdb, Hclock;
    unfold db_of in Hdb; injection Hdb as Hf Hs Hi Hb.
  - rewrite (sync_bill_failed _ _ _ _ _ _ _ _ Hc).
    do 3 eexists. split; [reflexivity |].
    split; [simpl; repeat split; assumption |].
    split; [reflexivity |]. split; [reflexivity |].
    right. exists (exn_str e). simpl. repeat split. exact Hclock.
  - destruct (create_bill_returns_dict _ _ _ _ _ _ _ Hc) as [fields ->].
    rewrite (sync_bill_uploaded _ _ _ _ _ _ _ _ Hc).
    do 3 eexists. split; [reflexivity |].
    split; [simpl; repeat split; assumption |].
    split; [reflexivity |]. split; [reflexivity |].
    left. simpl. repeat split. rewrite Hclock. reflexivity.
Qed.

(** One turn, from its attempt and its commit. *)
Lemma bill_turn_steps self result tok cid i (w w1 w2 : world) r i1 res i2 :
  sync_bill self result tok cid (i, w) = (inr r, (i1, w1)) ->
  commit_bill (i1, w1) = (res, (i2, w2)) ->
  bill_turn self result tok cid (i, w)
  = (match res with inr _ => inr r | inl e => inl e end, (i2, w2)).
Proof.
  intros Hs Hc. unfold bill_turn. unfold bind at 1. rewrite Hs.
  unfold bind at 1. rewrite Hc. destruct res; reflexivity.
Qed.

Lemma bill_turn_returns self result tok cid i (w w1 w2 : world) r i1 i2 :
  sync_bill self result tok cid (i, w) = (inr r, (i1, w1)) ->
  commit_bill (i1, w1) = (inr tt, (i2, w2)) ->
  bill_turn self result tok cid (i, w) = (inr r, (i2, w2)).
Proof. intros Hs Hc. rewrite (bill_turn_steps _ _ _ _ _ _ _ _ _ _ _ _ Hs Hc). reflexivity. Qed.

Lemma bill_doc_turn self result tok cid i (w w1 w2 : world) r i1 res i2 :
  sync_bill self result tok cid (i, w) = (inr r, (i1, w1)) ->
  commit_bill (i1, w1) = (res, (i2, w2)) ->
  with_doc i (bill_turn self result tok cid) w
  = (match res with inr _ => inr (r, i2) | inl e => inl e end, w2).
Proof.
  intros Hs Hc. unfold with_doc.
  rewrite (bill_turn_steps _ _ _ _ _ _ _ _ _ _ _ _ Hs Hc). destruct res; reflexivity.
Qed.

(** The loop, one turn unfolded: a turn that raises ends the loop. *)
Lemma for_each_bill_step self tok cid i rest result (w w1 w2 : world) r i1 res i2 :
  sync_bill self result tok cid (i, w) = (inr r, (i1, w1)) ->
  commit_bill (i1, w1) = (res, (i2, w2)) ->
  for_each_bill self tok cid (i :: rest) result w
  = match res with
    | inr _ =>
        match for_each_bill self tok cid rest r w2 with
        | (inr (r', docs), w3) => (inr (r', i2 :: docs), w3)
        | (inl e, w3) => (inl e, w3)
        end
    | inl e => (inl e, w2)
    end.
Proof.
  intros Hs Hc. simpl. unfold bind at 1.
  rewrite (bill_doc_turn _ _ _ _ _ _ _ _ _ _ _ _ Hs Hc).
  destruct res as [e | []]; [reflexivity |].
  unfold bind, ret.
  destruct (for_each_bill self tok cid rest r w2) as [[e | [r' docs]] w3]; reflexivity.
Qed.

(** What a turn leaves in the database, whether it returns or raises:
    the rows as they were, or the row of its document rewritten. *)
Lemma bill_turn_final self result tok cid i (w : world) :
  invoice_rows (snd (with_doc i (bill_turn self result tok cid) w)) = invoice_rows w
  /\ (bill_rows (snd (with_doc i (bill_turn self result tok cid) w))
      = bill_rows w
      \/ exists i1,
           (Bill.quickbooks_id i = JNull ->
            error_only_when_pending (Bill.state i1) = true)
           /\ bill_rows (snd (with_doc i (bill_turn self result tok cid) w))
              = <[Bill.id i := i1]> (bill_rows w)).
Proof.
  destruct (sync_bill_cases self result tok cid i w)
    as (r & i1 & w1 & Hs & (_ & _ & Hown & Hother) & _ & Hbus & Hr).
  destruct (commit_bill_cases i1 w1)
    as (res & i2 & w2 & Hc & _ & _ & Hother2 & _ & _ & Hres).
  rewrite (bill_doc_turn _ _ _ _ _ _ _ _ _ _ _ _ Hs Hc).
  assert (Hid : Bill.id i1 = Bill.id i)
    by (unfold bill_business in Hbus; congruence).
  cbn [snd]. split; [congruence |].
  destruct res as [e | []].
  - left. destruct Hres as (_ & Hrows & _). congruence.
  - destruct Hres as (_ & _ & Hrows). destruct (commit_raises_next w1).
    + left. destruct Hrows as [Hrows _]. congruence.
    + right. exists i1. destruct Hrows as [Hrows _]. split; [| congruence].
      intros Hnull. destruct Hr as [(_ & Herr & _) | (msg & _ & -> & _)].
      * unfold error_only_when_pending, has_error. simpl. rewrite Herr. reflexivity.
      * unfold error_only_when_pending, has_error. simpl. rewrite Hnull. reflexivity.
Qed.

(** A property of the world that every turn keeps holds after the loop,
    however the loop ends. *)
Lemma for_each_bill_invariant (P : world -> Prop) self tok cid bills :
  (forall i result w, i ∈ bills -> P w ->
     P (snd (with_doc i (bill_turn self result tok cid) w))) ->
  forall result w, P w -> P (snd (for_each_bill self tok cid bills result w)).
Proof.
  induction bills as [| i rest IH]; intros Hturn result w Hw.
  - exact Hw.
  - simpl. unfold bind at 1.
    pose proof (Hturn i result w (list_elem_of_here _ _) Hw) as H1.
    destruct (with_doc i (bill_turn self result tok cid) w) as [[e | [r i']] w1];
      simpl in H1 |- *; [exact H1 |].
    assert (H2 := IH (fun j res u Hj => Hturn j res u (list_elem_of_further _ _ _ Hj))
                     r w1 H1).
    unfold bind, ret.
    destruct (for_each_bill self tok cid rest r w1) as [[e | [r' docs]] w2];
      exact H2.
Qed.

(** A loop that returns: what its result and the world say. *)
Lemma for_each_bill_returned self tok cid bills :
  forall result (w : world) r docs w',
    for_each_bill self tok cid bills result w = (inr (r, docs), w') ->
    exists ds,
      details r = (details result ++ ds)%list
      /\ total r = total result
      /\ map detail_id ds = map (fun i => inr (JInt (Bill.id i))) bills
      /\ successful r
         = (successful result + length (List.filter (is_status "success") ds))%nat
      /\ failed r = (failed result + length (List.filter (is_status "failed") ds))%nat
      /\ (successful r + failed r
          = successful result + failed result + length bills)%nat
      /\ length docs = length bills
      /\ (session w = Active ->
          session w' = Active
          /\ db_faults w' = drop (length bills) (db_faults w)
          /\ clock_reads w'
             = (clock_reads w + (successful r - successful result)
                + updates_to_come (length bills) (db_faults w))%nat).
Proof.
  induction bills as [| i rest IH]; intros result w r docs w' H.
  - simpl in H. unfold ret in H. injection H as <- <- <-. exists [].
    simpl. rewrite app_nil_r. repeat split; try lia. assumption.
  - destruct (sync_bill_cases self result tok cid i w)
      as (r1 & i1 & w1 & Hs & (Hf & Hses & _ & _) & _ & Hbus & Hr).
    destruct (commit_bill_cases i1 w1)
      as (res & i2 & w2 & Hc & _ & _ & _ & _ & Hact & Hres).
    rewrite (for_each_bill_step _ _ _ _ _ _ _ _ _ _ _ _ _ Hs Hc) in H.
    destruct res as [e | []]; [discriminate |].
    destruct (for_each_bill self tok cid rest r1 w2) as [[e | [r' docs']] w3] eqn:Hrest;
      [discriminate |].
    injection H as <- <- <-.
    destruct (IH _ _ _ _ _ Hrest) as (ds & Hd & Ht & Hid & Hok & Hko & Hsum & Hlen & Hrun).
    destruct Hres as (_ & Hses2 & _).
    assert (Hi1 : Bill.id i1 = Bill.id i)
      by (unfold bill_business in Hbus; congruence).
    assert (Hnext : next_commit w1 = next_commit w)
      by (unfold next_commit; rewrite Hf; reflexivity).
    assert (Hupd : updates_to_come (S (length rest)) (db_faults w)
                   = (updates (next_commit w)
                      + updates_to_come (length rest) (tail (db_faults w)))%nat)
      by (unfold next_commit; destruct (db_faults w); reflexivity).
    destruct Hr as [(-> & _ & Hclock) | (msg & -> & _ & Hclock)].
    + exists (bill_success_detail i1 :: ds).
      split; [rewrite Hd; simpl; rewrite <- app_assoc; reflexivity |].
      split; [rewrite Ht; reflexivity |].
      split; [simpl; rewrite Hid; unfold detail_id; simpl; rewrite Hi1; reflexivity |].
      split; [rewrite Hok; simpl; lia |].
      split; [rewrite Hko; simpl; lia |].
      split; [rewrite Hsum; simpl; lia |].
      split; [simpl; lia |].
      intros Ha. rewrite <- Hses in Ha. destruct (Hact Ha) as [Htail Hclock2].
      destruct (Hrun Hses2) as (Hs3 & Hf3 & Hc3).
      split; [exact Hs3 |].
      split; [rewrite Hf3, Htail, Hf; apply drop_tail |].
      rewrite Hc3, Hclock2, Hclock, Htail, Hf, Hnext. simpl length. rewrite Hupd.
      rewrite Hok. simpl. lia.
    + exists (bill_failure_detail i1 msg :: ds).
      split; [rewrite Hd; simpl; rewrite <- app_assoc; reflexivity |].
      split; [rewrite Ht; reflexivity |].
      split; [simpl; rewrite Hid; unfold detail_id; simpl; rewrite Hi1; reflexivity |].
      split; [rewrite Hok; simpl; lia |].
      split; [rewrite Hko; simpl; lia |].
      split; [rewrite Hsum; simpl; lia |].
      split; [simpl; lia |].
      intros Ha. rewrite <- Hses in Ha. destruct (Hact Ha) as [Htail Hclock2].
      destruct (Hrun Hses2) as (Hs3 & Hf3 & Hc3).
      split; [exact Hs3 |].
      split; [rewrite Hf3, Htail, Hf; apply drop_tail |].
      rewrite Hc3, Hclock2, Hclock, Htail, Hf, Hnext. simpl length. rewrite Hupd.
      rewrite Hok. simpl. lia.
Qed.

(** When no commit fails in its flush, the loop returns. *)
Lemma for_each_bill_runs self tok cid bills :
  forall result (w : world),
    no_flush_fails w ->
    exists r docs w',
      for_each_bill self tok cid bills result w = (inr (r, docs), w')
      /\ no_flush_fails w'.
Proof.
  induction bills as [| i rest IH]; intros result w Hno.
  - exists result, [], w. split; [reflexivity | exact Hno].
  - destruct (sync_bill_cases self result tok cid i w)
      as (r1 & i1 & w1 & Hs & (Hf & Hses & Hown & Hother) & _).
    destruct (commit_bill_cases i1 w1)
      as (res & i2 & w2 & Hc & _ & _ & _ & Hf2 & _ & Hres).
    assert (Hno1 : no_flush_fails w1)
      by (apply (no_flush_fails_same_db w); [unfold db_of; congruence | exact Hno]).
    rewrite (for_each_bill_step _ _ _ _ _ _ _ _ _ _ _ _ _ Hs Hc).
    destruct res as [e | []].
    + destruct Hres as (Hraise & _).
      rewrite (no_flush_fails_next w1 Hno1) in Hraise. discriminate.
    + destruct Hres as (_ & Hses2 & _).
      destruct (IH r1 w2 (no_flush_fails_after w1 w2 Hses2 Hf2 Hno1))
        as (r' & docs & w3 & -> & Hno3).
      eauto.
Qed.

(** When no commit raises at all, every record handed back is what its
    row holds. *)
Lemma for_each_bill_persisted self tok cid bills :
  forall result (w : world),
    no_commit_fails w ->
    exists r docs w',
      for_each_bill self tok cid bills result w = (inr (r, docs), w')
      /\ no_commit_fails w'
      /\ invoice_rows w' = invoice_rows w
      /\ map bill_business docs = map bill_business bills
      /\ (forall k, k ∉ map Bill.id bills ->
                    bill_rows w' !! k = bill_rows w !! k)
      /\ (NoDup (map Bill.id bills) ->
          Forall (fun i => bill_rows w' !! Bill.id i = Some i) docs).
Proof.
  induction bills as [| i rest IH]; intros result w Hno.
  - exists result, [], w. split; [reflexivity |]. split; [exact Hno |].
    split; [reflexivity |]. split; [reflexivity |]. split; [reflexivity |].
    intros _. constructor.
  - destruct (sync_bill_cases self result tok cid i w)
      as (r1 & i1 & w1 & Hs & (Hf & Hses & Hown & Hother) & _ & Hbus & _).
    destruct (commit_bill_cases i1 w1)
      as (res & i2 & w2 & Hc & _ & _ & Hother2 & Hf2 & _ & Hres).
    assert (Hno1 : no_commit_fails w1)
      by (apply (no_commit_fails_same_db w); [unfold db_of; congruence | exact Hno]).
    destruct (no_commit_fails_next w1 Hno1) as [Hcommits Hflushes].
    rewrite (for_each_bill_step _ _ _ _ _ _ _ _ _ _ _ _ _ Hs Hc).
    destruct res as [e | []].
    + destruct Hres as (Hraise & _). rewrite Hflushes in Hraise. discriminate.
    + destruct Hres as (_ & Hses2 & Hrows). rewrite Hcommits in Hrows.
      destruct Hrows as [Hrows ->].
      destruct (IH r1 w2 (no_commit_fails_after w1 w2 Hses2 Hf2 Hno1))
        as (r' & docs & w3 & -> & Hno3 & Hother3 & Hbus3 & Hout & Hgood).
      assert (Hi1 : Bill.id i1 = Bill.id i)
        by (unfold bill_business in Hbus; congruence).
      do 3 eexists. split; [reflexivity |]. split; [exact Hno3 |].
      split; [congruence |].
      split; [simpl; rewrite Hbus3, Hbus; reflexivity |].
      split.
      * intros k Hk. simpl in Hk. apply not_elem_of_cons in Hk as [Hne Hk].
        rewrite (Hout k Hk), Hrows, lookup_insert, Hi1, Hown.
        case_decide; [congruence | reflexivity].
      * intros Hnd. simpl in Hnd. apply NoDup_cons in Hnd as [Hnotin Hnd].
        constructor; [| exact (Hgood Hnd)].
        assert (Hni : Bill.id i1 ∉ map Bill.id rest)
          by (rewrite Hi1; exact Hnotin).
        rewrite (Hout _ Hni), Hrows, lookup_insert.
        case_decide; [reflexivity | congruence].
Qed.

(** The rows a loop leaves, however it ends: those of other documents
    as they were, none deleted, none added but for its documents. *)
Lemma for_each_bill_rows self tok cid bills result (w : world) :
  invoice_rows (snd (for_each_bill self tok cid bills result w)) = invoice_rows w
  /\ (forall k, k ∉ map Bill.id bills ->
        bill_rows (snd (for_each_bill self tok cid bills result w)) !! k
        = bill_rows w !! k)
  /\ (forall k, is_Some (bill_rows w !! k) ->
        is_Some (bill_rows (snd (for_each_bill self tok cid bills result w))
                 !! k)).
Proof.
  apply (for_each_bill_invariant
           (fun u => invoice_rows u = invoice_rows w
                     /\ (forall k, k ∉ map Bill.id bills ->
                                   bill_rows u !! k = bill_rows w !! k)
                     /\ (forall k, is_Some (bill_rows w !! k) ->
                                   is_Some (bill_rows u !! k)))).
  - intros i res u Hi (Hother & Hout & Hkeep).
    destruct (bill_turn_final self res tok cid i u) as [Hother' Hown'].
    split; [congruence |].
    destruct Hown' as [-> | (i1 & _ & ->)]; [split; assumption |].
    split.
    + intros k Hk. rewrite lookup_insert. case_decide as Hkey; [| apply Hout, Hk].
      exfalso. apply Hk. rewrite <- Hkey. apply list_elem_of_fmap. eauto.
    + intros k Hk. rewrite lookup_insert. case_decide; [eauto | apply Hkeep, Hk].
  - auto.
Qed.

(** Pending documents and consistent rows stay so. *)
Lemma bill_turn_consistent self result tok cid i (w : world) :
  Bill.quickbooks_id i = JNull ->
  rows_consistent w ->
  rows_consistent (snd (with_doc i (bill_turn self result tok cid) w)).
Proof.
  intros Hnull Hw.
  destruct (bill_turn_final self result tok cid i w) as [Hother Hown].
  destruct Hown as [Hsame | (i1 & Hi1 & Hins)].
  - apply (rows_consistent_same_rows w); assumption.
  - apply (rows_consistent_insert_bill w _ (Bill.id i) i1);
      [exact Hins | exact Hother | exact (Hi1 Hnull) | exact Hw].
Qed.

Lemma for_each_bill_consistent self tok cid bills result (w : world) :
  Forall (fun i => Bill.quickbooks_id i = JNull) bills ->
  rows_consistent w ->
  rows_consistent (snd (for_each_bill self tok cid bills result w)).
Proof.
  intros Hp Hrows. apply for_each_bill_invariant; [| exact Hrows].
  intros i res u Hi Hu. rewrite Forall_forall in Hp.
  apply bill_turn_consistent; [exact (Hp i Hi) | exact Hu].
Qed.

(** The records a loop over pending documents hands back. *)
Lemma for_each_bill_docs self tok cid bills :
  Forall (fun i => Bill.quickbooks_id i = JNull) bills ->
  forall result (w : world) r docs w',
    rows_consistent w ->
    for_each_bill self tok cid bills result w = (inr (r, docs), w') ->
    Forall (fun i => error_only_when_pending (Bill.state i) = true) docs.
Proof.
  induction 1 as [| i rest Hnull _ IH]; intros result w r docs w' Hrows H.
  - simpl in H. unfold ret in H. injection H as <- <- <-. constructor.
  - pose proof (bill_turn_consistent self result tok cid i w Hnull Hrows) as Hrows1.
    destruct (sync_bill_cases self result tok cid i w)
      as (r1 & i1 & w1 & Hs & (_ & _ & Hown & Hother) & _ & _ & Hr).
    destruct (commit_bill_cases i1 w1)
      as (res & i2 & w2 & Hc & _ & _ & _ & _ & _ & Hres).
    rewrite (bill_doc_turn _ _ _ _ _ _ _ _ _ _ _ _ Hs Hc) in Hrows1.
    rewrite (for_each_bill_step _ _ _ _ _ _ _ _ _ _ _ _ _ Hs Hc) in H.
    destruct res as [e | []]; [discriminate |].
    simpl in Hrows1.
    destruct (for_each_bill self tok cid rest r1 w2) as [[e | [r' docs']] w3] eqn:Hrest;
      [discriminate |].
    injection H as <- <- <-.
    constructor; [| exact (IH _ _ _ _ _ Hrows1 Hrest)].
    assert (Hi1 : error_only_when_pending (Bill.state i1) = true).
    { destruct Hr as [(_ & Herr & _) | (msg & _ & -> & _)];
        unfold error_only_when_pending, has_error; simpl;
        [rewrite Herr | rewrite Hnull]; reflexivity. }
    destruct Hres as (_ & _ & Hi2). destruct (commit_raises_next w1).
    + destruct Hi2 as [_ ->].
      destruct (bill_rows w1 !! Bill.id i1) as [row |] eqn:Hrow; simpl;
        [| exact Hi1].
      rewrite Hown in Hrow. destruct Hrows as [Hinv Hbill].
      first [exact (Hinv _ _ Hrow) | exact (Hbill _ _ Hrow)].
    + destruct Hi2 as [_ ->]. exact Hi1.
Qed.

(** The guarded call of [upload_all]. *)
Lemma guarded_bills_eq self bills tok cid (w : world) :
  guarded_bills self bills tok cid w
  = match bills with
    | [] => (inr (VariantResult 0 0 0 [], []), w)
    | _ =>
        for_each_bill self tok cid bills (VariantResult (length bills) 0 0 [])
          (logged_line INFO ("Starting bulk upload of " +:+ str_of_nat (length bills)
                             +:+ " bills") w)
    end.
Proof. destruct bills; reflexivity. Qed.

Lemma guarded_bills_returned self bills tok cid (w : world) r docs w' :
  guarded_bills self bills tok cid w = (inr (r, docs), w') ->
  total r = length bills
  /\ map detail_id (details r) = map (fun i => inr (JInt (Bill.id i))) bills
  /\ successful r = length (List.filter (is_status "success") (details r))
  /\ failed r = length (List.filter (is_status "failed") (details r))
  /\ (successful r + failed r = length bills)%nat
  /\ length docs = length bills
  /\ (session w = Active ->
      session w' = Active
      /\ db_faults w' = drop (length bills) (db_faults w)
      /\ clock_reads w'
         = (clock_reads w + successful r
            + updates_to_come (length bills) (db_faults w))%nat).
Proof.
  rewrite guarded_bills_eq. destruct bills as [| i rest] eqn:E.
  - intros H. injection H as <- <- <-. simpl. repeat split; try lia. assumption.
  - rewrite <- E. intros H.
    apply for_each_bill_returned in H.
    destruct H as (ds & Hd & Ht & Hid & Hok & Hko & Hsum & Hlen & Hrun).
    simpl in Hd, Ht, Hok, Hko, Hsum, Hrun. subst ds.
    split; [exact Ht |]. split; [exact Hid |]. split; [exact Hok |].
    split; [exact Hko |]. split; [exact Hsum |]. split; [exact Hlen |].
    intros Ha. destruct (Hrun Ha) as (H1 & H2 & H3).
    split; [exact H1 |]. split; [exact H2 |]. lia.
Qed.

Lemma guarded_bills_invariant (P : world -> Prop) self bills tok cid :
  (forall i result w, i ∈ bills -> P w ->
     P (snd (with_doc i (bill_turn self result tok cid) w))) ->
  (forall lvl msg w, P w -> P (logged_line lvl msg w)) ->
  forall w, P w -> P (snd (guarded_bills self bills tok cid w)).
Proof.
  intros Hturn Hlog w Hw. rewrite guarded_bills_eq.
  destruct bills as [| i rest] eqn:E; [exact Hw |]. rewrite <- E in *.
  apply for_each_bill_invariant; [exact Hturn |]. apply Hlog, Hw.
Qed.

Lemma guarded_bills_runs self bills tok cid (w : world) :
  no_flush_fails w ->
  exists r docs w',
    guarded_bills self bills tok cid w = (inr (r, docs), w')
    /\ no_flush_fails w'.
Proof.
  intros Hno. rewrite guarded_bills_eq.
  destruct bills as [| i rest] eqn:E; [eauto |]. rewrite <- E.
  apply for_each_bill_runs.
  apply (no_flush_fails_same_db w); [reflexivity | exact Hno].
Qed.

Lemma guarded_bills_persisted self bills tok cid (w : world) :
  no_commit_fails w ->
  exists r docs w',
    guarded_bills self bills tok cid w = (inr (r, docs), w')
    /\ no_commit_fails w'
    /\ invoice_rows w' = invoice_rows w
    /\ map bill_business docs = map bill_business bills
    /\ (forall k, k ∉ map Bill.id bills ->
                  bill_rows w' !! k = bill_rows w !! k)
    /\ (NoDup (map Bill.id bills) ->
        Forall (fun i => bill_rows w' !! Bill.id i = Some i) docs).
Proof.
  intros Hno. rewrite guarded_bills_eq.
  destruct bills as [| i rest] eqn:E.
  - do 3 eexists. split; [reflexivity |]. split; [exact Hno |].
    split; [reflexivity |]. split; [reflexivity |]. split; [reflexivity |].
    intros _. constructor.
  - rewrite <- E.
    apply (for_each_bill_persisted self tok cid bills
             (VariantResult (length bills) 0 0 [])
             (logged_line INFO ("Starting bulk upload of "
                                +:+ str_of_nat (length bills) +:+ " bills") w)).
    apply (no_commit_fails_same_db w); [reflexivity | exact Hno].
Qed.

Lemma guarded_bills_docs self bills tok cid (w : world) r docs w' :
  Forall (fun i => Bill.quickbooks_id i = JNull) bills ->
  rows_consistent w ->
  guarded_bills self bills tok cid w = (inr (r, docs), w') ->
  Forall (fun i => error_only_when_pending (Bill.state i) = true) docs.
Proof.
  intros Hp Hrows. rewrite guarded_bills_eq.
  destruct bills as [| i rest] eqn:E.
  - intros H. injection H as <- <- <-. constructor.
  - rewrite <- E in *. intros H.
    eapply (for_each_bill_docs self tok cid bills Hp); [| exact H].
    apply (rows_consistent_same_rows w); [reflexivity | reflexivity | exact Hrows].
Qed.

(** *** The whole batch *)

(** [upload_all] from the results of its two guarded calls. *)
Lemma upload_all_from_parts self invoices bills tok cid (w u x : world) ri di rb db :
  guarded_invoices self invoices tok cid (clock_read w) = (inr (ri, di), u) ->
  guarded_bills self bills tok cid u = (inr (rb, db), x) ->
  upload_all self invoices bills tok cid w
  = (inr (Report ri rb (summary_of invoices bills ri rb (utcnow (clock_reads w))),
          (di, db)),
     logged_line INFO
       (completion_line (summary_of invoices bills ri rb (utcnow (clock_reads w)))) x).
Proof.
  intros Hi Hb. unfold upload_all. unfold bind at 1. unfold datetime_utcnow at 1.
  unfold bind at 1. fold (guarded_invoices self invoices tok cid). rewrite Hi.
  unfold bind at 1. fold (guarded_bills self bills tok cid). rewrite Hb.
  reflexivity.
Qed.

(** The world [upload_all] leaves, however it ends: the loop that raises
    is the last thing that ran. *)
Lemma upload_all_world self invoices bills tok cid (w : world) :
  upload_all self invoices bills tok cid w
  = match guarded_invoices self invoices tok cid (clock_read w) with
    | (inl e, u) => (inl e, u)
    | (inr (ri, di), u) =>
        match guarded_bills self bills tok cid u with
        | (inl e, x) => (inl e, x)
        | (inr (rb, db), x) =>
            (inr (Report ri rb (summary_of invoices bills ri rb (utcnow (clock_reads w))),
                  (di, db)),
             logged_line INFO
               (completion_line
                  (summary_of invoices bills ri rb (utcnow (clock_reads w)))) x)
        end
    end.
Proof.
  destruct (guarded_invoices self invoices tok cid (clock_read w))
    as [[e | [ri di]] u] eqn:Hi.
  - unfold upload_all. unfold bind at 1. unfold datetime_utcnow at 1.
    unfold bind at 1. fold (guarded_invoices self invoices tok cid). rewrite Hi.
    reflexivity.
  - destruct (guarded_bills self bills tok cid u) as [[e | [rb db]] x] eqn:Hb.
    + unfold upload_all. unfold bind at 1. unfold datetime_utcnow at 1.
      unfold bind at 1. fold (guarded_invoices self invoices tok cid). rewrite Hi.
      unfold bind at 1. fold (guarded_bills self bills tok cid). rewrite Hb.
      reflexivity.
    + exact (upload_all_from_parts _ _ _ _ _ _ _ _ _ _ _ _ Hi Hb).
Qed.

Lemma upload_all_returned self invoices bills tok cid (w w' : world) rep docs :
  upload_all self invoices bills tok cid w = (inr (rep, docs), w') ->
  exists ri di u rb db x,
    guarded_invoices self invoices tok cid (clock_read w) = (inr (ri, di), u)
    /\ guarded_bills self bills tok cid u = (inr (rb, db), x)
    /\ rep = Report ri rb (summary_of invoices bills ri rb (utcnow (clock_reads w)))
    /\ docs = (di, db)
    /\ w' = logged_line INFO
              (completion_line
                 (summary_of invoices bills ri rb (utcnow (clock_reads w)))) x.
Proof.
  rewrite upload_all_world.
  destruct (guarded_invoices self invoices tok cid (clock_read w))
    as [[e | [ri di]] u] eqn:Hi; [discriminate |].
  destruct (guarded_bills self bills tok cid u) as [[e | [rb db]] x] eqn:Hb;
    [discriminate |].
  intros H. injection H as <- <- <-.
  exists ri, di, u, rb, db, x. split; [reflexivity |]. split; [exact Hb |].
  repeat split; reflexivity.
Qed.

(** A property of the world that the clock, the log and every turn keep
    holds after [upload_all], however it ends. *)
Lemma upload_all_invariant (P : world -> Prop) self invoices bills tok cid :
  (forall w, P w -> P (clock_read w)) ->
  (forall lvl msg w, P w -> P (logged_line lvl msg w)) ->
  (forall i result w, i ∈ invoices -> P w ->
     P (snd (with_doc i (invoice_turn self result tok cid) w))) ->
  (forall b result w, b ∈ bills -> P w ->
     P (snd (with_doc b (bill_turn self result tok cid) w))) ->
  forall w, P w -> P (snd (upload_all self invoices bills tok cid w)).
Proof.
  intros Hclock Hlog Hi Hb w Hw. rewrite upload_all_world.
  pose proof (guarded_invoices_invariant P self invoices tok cid Hi Hlog _ (Hclock w Hw))
    as H1.
  destruct (guarded_invoices self invoices tok cid (clock_read w))
    as [[e | [ri di]] u]; simpl in H1; [exact H1 |].
  pose proof (guarded_bills_invariant P self bills tok cid Hb Hlog u H1) as H2.
  destruct (guarded_bills self bills tok cid u) as [[e | [rb db]] x]; simpl in H2;
    [exact H2 |].
  apply Hlog, H2.
Qed.

(** When no commit fails in its flush, [upload_all] returns. *)
Lemma upload_all_runs self invoices bills tok cid (w : world) :
  no_flush_fails w ->
  exists rep docs w',
    upload_all self invoices bills tok cid w = (inr (rep, docs), w')
    /\ no_flush_fails w'.
Proof.
  intros Hno.
  destruct (guarded_invoices_runs self invoices tok cid (clock_read w))
    as (ri & di & u & Hi & Hu);
    [apply (no_flush_fails_same_db w); [reflexivity | exact Hno] |].
  destruct (guarded_bills_runs self bills tok cid u Hu) as (rb & db & x & Hb & Hx).
  rewrite (upload_all_from_parts _ _ _ _ _ _ _ _ _ _ _ _ Hi Hb).
  do 3 eexists. split; [reflexivity |].
  apply (no_flush_fails_same_db x); [reflexivity | exact Hx].
Qed.

Lemma updates_to_come_add n m faults :
  updates_to_come (n + m) faults
  = (updates_to_come n faults + updates_to_come m (drop n faults))%nat.
Proof.
  revert faults. induction n as [| n IH]; intros faults; [reflexivity |].
  destruct faults as [| o rest]; simpl.
  - rewrite (IH []). destruct n; simpl; lia.
  - rewrite IH. lia.
Qed.

(** What a report that [upload_all] returned says, and the world it
    comes with. *)
Lemma upload_all_report self invoices bills tok cid (w w' : world) rep docs :
  upload_all self invoices bills tok cid w = (inr (rep, docs), w') ->
  report_summary rep
  = summary_of invoices bills (report_invoices rep) (report_bills rep)
      (utcnow (clock_reads w))
  /\ (total (report_invoices rep) = length invoices
      /\ map detail_id (details (report_invoices rep))
         = map (fun i => inr (JInt (Invoice.id i))) invoices
      /\ successful (report_invoices rep)
         = length (List.filter (is_status "success") (details (report_invoices rep)))
      /\ failed (report_invoices rep)
         = length (List.filter (is_status "failed") (details (report_invoices rep)))
      /\ (successful (report_invoices rep) + failed (report_invoices rep)
          = length invoices)%nat
      /\ length (fst docs) = length invoices)
  /\ (total (report_bills rep) = length bills
      /\ map detail_id (details (report_bills rep))
         = map (fun b => inr (JInt (Bill.id b))) bills
      /\ successful (report_bills rep)
         = length (List.filter (is_status "success") (details (report_bills rep)))
      /\ failed (report_bills rep)
         = length (List.filter (is_status "failed") (details (report_bills rep)))
      /\ (successful (report_bills rep) + failed (report_bills rep) = length bills)%nat
      /\ length (snd docs) = length bills)
  /\ last (logged w') = Some (INFO, completion_line (report_summary rep))
  /\ (session w = Active ->
      session w' = Active
      /\ db_faults w' = drop (length invoices + length bills) (db_faults w)
      /\ clock_reads w'
         = (S (clock_reads w) + total_successful (report_summary rep)
            + updates_to_come (length invoices + length bills) (db_faults w))%nat).
Proof.
  intros H. apply upload_all_returned in H.
  destruct H as (ri & di & u & rb & db & x & Hi & Hb & -> & -> & ->).
  apply guarded_invoices_returned in Hi.
  destruct Hi as (Ti & Di & Oi & Ki & Si & Li & Ri).
  apply guarded_bills_returned in Hb.
  destruct Hb as (Tb & Db & Ob & Kb & Sb & Lb & Rb).
  split; [reflexivity |].
  split; [simpl; repeat split; assumption |].
  split; [simpl; repeat split; assumption |].
  split; [apply last_snoc |].
  intros Ha. destruct (Ri Ha) as (Hs1 & Hf1 & Hc1). destruct (Rb Hs1) as (Hs2 & Hf2 & Hc2).
  simpl in Hf1, Hc1 |- *.
  split; [exact Hs2 |].
  split; [rewrite Hf2, Hf1, drop_drop; reflexivity |].
  rewrite Hc2, Hc1, Hf1, updates_to_come_add. lia.
Qed.

(** With consistent rows the statistics never count more failed than
    pending documents. *)
Lemma consistent_statistics (w : world) :
  rows_consistent w ->
  count_failed (stat_invoices (get_upload_statistics w))
  <= count_pending (stat_invoices (get_upload_statistics w))
  /\ count_failed (stat_bills (get_upload_statistics w))
     <= count_pending (stat_bills (get_upload_statistics w))
  /\ count_failed (stat_overall (get_upload_statistics w))
     <= count_pending (stat_overall (get_upload_statistics w)).
Proof.
  intros [Hinv Hbill]. unfold get_upload_statistics; simpl.
  rewrite !pending_counts_rows.
  assert (Hi : count_rows (fun i => is_some (Invoice.upload_error i)) (invoice_rows w)
               <= count_rows (fun i => negb (is_not_none (Invoice.quickbooks_id i)))
                    (invoice_rows w)).
  { apply count_rows_le. intros k i Hk He. specialize (Hinv k i Hk).
    unfold error_only_when_pending, has_error in Hinv; simpl in Hinv.
    rewrite He in Hinv. exact Hinv. }
  assert (Hb : count_rows (fun b => is_some (Bill.upload_error b)) (bill_rows w)
               <= count_rows (fun b => negb (is_not_none (Bill.quickbooks_id b)))
                    (bill_rows w)).
  { apply count_rows_le. intros k b Hk He. specialize (Hbill k b Hk).
    unfold error_only_when_pending, has_error in Hbill; simpl in Hbill.
    rewrite He in Hbill. exact Hbill. }
  lia.
Qed.

(** *** The properties of the specification *)

(** C9. With both lists empty, [upload_all] sends nothing to the platform,
    returns normally, and its report has every count at zero and both
    details lists empty; the database is not touched either. *)
Theorem empty_batch_touches_nothing self tok cid (w : world) :
  exists stamp w',
    upload_all self [] [] tok cid w
    = (inr (Report (VariantResult 0 0 0 []) (VariantResult 0 0 0 [])
                   (Summary 0 0 0 stamp), ([], [])), w')
    /\ sent w' = sent w /\ remote w' = remote w /\ db_of w' = db_of w.
Proof.
  unfold upload_all, bind, datetime_utcnow, ret, log; simpl.
  do 2 eexists. split; [reflexivity |]. repeat split.
Qed.

(** C3. The report [upload_all] returns counts what it was given:
    [total_processed] is the sum of the two lengths, the two summary
    counts are the sums of the per-variant counts, and successes and
    failures add up to [total_processed]. A batch returns its report
    whenever no commit fails in its flush. *)
Theorem report_counts_add_up self invoices bills tok cid (w : world) :
  (forall rep docs w',
     upload_all self invoices bills tok cid w = (inr (rep, docs), w') ->
     total_processed (report_summary rep) = (length invoices + length bills)%nat
     /\ total_successful (report_summary rep)
        = (successful (report_invoices rep) + successful (report_bills rep))%nat
     /\ total_failed (report_summary rep)
        = (failed (report_invoices rep) + failed (report_bills rep))%nat
     /\ (total_successful (report_summary rep) + total_failed (report_summary rep)
         = total_processed (report_summary rep))%nat
     /\ total (report_invoices rep) = length invoices
     /\ total (report_bills rep) = length bills)
  /\ (no_flush_fails w ->
      exists rep docs w', upload_all self invoices bills tok cid w = (inr (rep, docs), w')).
Proof.
  split.
  - intros rep docs w' H. apply upload_all_report in H.
    destruct H as (Hsum & (Ti & _ & _ & _ & Si & _) & (Tb & _ & _ & _ & Sb & _) & _).
    rewrite Hsum. simpl. repeat split; lia.
  - intros Hno. destruct (upload_all_runs self invoices bills tok cid w Hno)
      as (rep & docs & w' & H & _). eauto.
Qed.



(** C10. When the created object has no 'Id', the attempt still counts as
    a success: the record ends with [quickbooks_id] None, [uploaded_at] set
    and [upload_error] None, the successful count grows by one and the
    detail says 'success' with [quickbooks_id] None. Once the commit has
    gone through, the row is one of those the statistics count as
    pending. *)
Theorem success_without_remote_id self result tok cid i (w w1 : world) fields :
  create_invoice (qb_api self) (Invoice.to_quickbooks_json i) tok cid w
  = (inr (JObj fields), w1) ->
  dict_lookup "Id" fields = None ->
  let i' := uploaded_invoice JNull (utcnow (clock_reads w1)) i in
  let detail := invoice_success_detail i' in
  (exists w2,
     sync_invoice self result tok cid (i, w)
     = (inr (record_success detail result), (i', w2)))
  /\ Invoice.quickbooks_id i' = JNull
  /\ Invoice.uploaded_at i' = Some (utcnow (clock_reads w1))
  /\ Invoice.upload_error i' = None
  /\ successful (record_success detail result) = S (successful result)
  /\ failed (record_success detail result) = failed result
  /\ details (record_success detail result) = (details result ++ [detail])%list
  /\ py_getitem detail "status" = inr (JStr "success")
  /\ py_getitem detail "quickbooks_id" = inr JNull
  /\ (commit_raises_next w1 = false ->
      exists w3,
        invoice_turn self result tok cid (i, w)
        = (inr (record_success detail result), (i', w3))
        /\ invoice_rows w3 !! Invoice.id i = Some i'
        /\ is_not_none (Invoice.quickbooks_id i') = false
        /\ count_pending (stat_invoices (get_upload_statistics w3))
           = count_rows (fun r => negb (is_not_none (Invoice.quickbooks_id r)))
               (invoice_rows w3)
        /\ 1 <= count_pending (stat_invoices (get_upload_statistics w3))).
Proof.
  intros Hc Hid i' detail.
  pose proof (sync_invoice_uploaded self result tok cid i w w1 fields Hc) as Hs.
  assert (Hnull : id_of fields = JNull) by (unfold id_of; rewrite Hid; reflexivity).
  rewrite Hnull in Hs. fold i' in Hs. fold detail in Hs.
  split; [eexists; exact Hs |]. do 8 (split; [reflexivity |]).
  intros Hcommit.
  set (w1' := logged_line INFO ("Successfully uploaded invoice "
                                +:+ Invoice.invoice_number i) (clock_read w1)) in *.
  assert (Hnext : commit_raises_next w1' = false) by exact Hcommit.
  pose proof (commit_invoice_stored i' w1' Hnext) as Hst.
  eexists. split; [eapply invoice_turn_returns; eauto |].
  assert (Hrow : invoice_rows (store_invoice i' (flushed w1')) !! Invoice.id i = Some i').
  { simpl. apply lookup_insert_eq. }
  split; [exact Hrow |]. split; [reflexivity |].
  assert (Hp : count_pending
                 (stat_invoices (get_upload_statistics (store_invoice i' (flushed w1'))))
               = count_rows (fun r => negb (is_not_none (Invoice.quickbooks_id r)))
                   (invoice_rows (store_invoice i' (flushed w1')))).
  { unfold get_upload_statistics; simpl. apply pending_counts_rows. }
  split; [exact Hp |]. rewrite Hp.
  eapply count_rows_member; [exact Hrow | reflexivity].
Qed.

(** C2, as the code has it. Every attempt applies one branch and only
    one. When the creation call returns, the success branch is applied:
    the error is cleared, the stamp is set, and [quickbooks_id] becomes
    the 'Id' of the created object, None when it carries none. When the
    call raises, the failure branch is applied: the error is set and the
    other two fields stay. This holds for each attempt of a batch, and for
    a single upload whenever the commit of its success branch returns.
    The two branches exclude each other. *)
Theorem each_attempt_applies_one_branch :
  (forall self result tok cid i (w : world),
     exists r i' w',
       sync_invoice self result tok cid (i, w) = (inr r, (i', w'))
       /\ match fst (create_invoice (qb_api self) (Invoice.to_quickbooks_json i) tok cid w) with
          | inr created =>
              exists fields, created = JObj fields
                             /\ success_applied (id_of fields) (Invoice.state i')
          | inl e => failure_applied (exn_str e) (Invoice.state i) (Invoice.state i')
          end)
  /\ (forall self result tok cid b (w : world),
        exists r b' w',
          sync_bill self result tok cid (b, w) = (inr r, (b', w'))
          /\ match fst (create_bill (qb_api self) (Bill.to_quickbooks_json b) tok cid w) with
             | inr created =>
                 exists fields, created = JObj fields
                                /\ success_applied (id_of fields) (Bill.state b')
             | inl e => failure_applied (exn_str e) (Bill.state b) (Bill.state b')
             end)
  /\ (forall self tok cid i (w : world) r i' w',
        upload_single_invoice self tok cid (i, w) = (r, (i', w')) ->
        match create_invoice (qb_api self) (Invoice.to_quickbooks_json i) tok cid w with
        | (inr created, w1) =>
            commit_raises_next w1 = false ->
            exists fields, created = JObj fields
                           /\ r = inr (single_success (id_of fields))
                           /\ success_applied (id_of fields) (Invoice.state i')
        | (inl e, _) => failure_applied (exn_str e) (Invoice.state i) (Invoice.state i')
        end)
  /\ (forall self tok cid b (w : world) r b' w',
        upload_single_bill self tok cid (b, w) = (r, (b', w')) ->
        match create_bill (qb_api self) (Bill.to_quickbooks_json b) tok cid w with
        | (inr created, w1) =>
            commit_raises_next w1 = false ->
            exists fields, created = JObj fields
                           /\ r = inr (single_success (id_of fields))
                           /\ success_applied (id_of fields) (Bill.state b')
        | (inl e, _) => failure_applied (exn_str e) (Bill.state b) (Bill.state b')
        end)
  /\ (forall remote_id message before after,
        success_applied remote_id after -> failure_applied message before after -> False).
Proof.
  split; [| split; [| split; [| split]]].
  - intros self result tok cid i w.
    destruct (create_invoice (qb_api self) (Invoice.to_quickbooks_json i) tok cid w)
      as [[e | created] w1] eqn:Hc; simpl.
    + rewrite (sync_invoice_failed _ _ _ _ _ _ _ _ Hc).
      do 3 eexists. split; [reflexivity |]. repeat split.
    + destruct (create_invoice_returns_dict _ _ _ _ _ _ _ Hc) as [fields ->].
      rewrite (sync_invoice_uploaded _ _ _ _ _ _ _ _ Hc).
      do 3 eexists. split; [reflexivity |]. exists fields. split; [reflexivity |].
      repeat split. eexists; reflexivity.
  - intros self result tok cid b w.
    destruct (create_bill (qb_api self) (Bill.to_quickbooks_json b) tok cid w)
      as [[e | created] w1] eqn:Hc; simpl.
    + rewrite (sync_bill_failed _ _ _ _ _ _ _ _ Hc).
      do 3 eexists. split; [reflexivity |]. repeat split.
    + destruct (create_bill_returns_dict _ _ _ _ _ _ _ Hc) as [fields ->].
      rewrite (sync_bill_uploaded _ _ _ _ _ _ _ _ Hc).
      do 3 eexists. split; [reflexivity |]. exists fields. split; [reflexivity |].
      repeat split. eexists; reflexivity.
  - intros self tok cid i w r i' w' H.
    apply upload_single_invoice_outcome in H. destruct H as (_ & _ & H).
    destruct (create_invoice (qb_api self) (Invoice.to_quickbooks_json i) tok cid w)
      as [[e | created] w1].
    + destruct H as [-> _]. repeat split.
    + intros Hcommit. destruct H as (fields & -> & H). cbv zeta in H.
      rewrite Hcommit in H. destruct H as (-> & ->).
      exists fields. repeat split. eexists; reflexivity.
  - intros self tok cid b w r b' w' H.
    apply upload_single_bill_outcome in H. destruct H as (_ & _ & H).
    destruct (create_bill (qb_api self) (Bill.to_quickbooks_json b) tok cid w)
      as [[e | created] w1].
    + destruct H as [-> _]. repeat split.
    + intros Hcommit. destruct H as (fields & -> & H). cbv zeta in H.
      rewrite Hcommit in H. destruct H as (-> & ->).
      exists fields. repeat split. eexists; reflexivity.
  - intros rid msg before after (_ & _ & Hnone) (Hsome & _). congruence.
Qed.

(** C8. An attempt that fails, counted as failed in a batch or answered
    with the 'failed' dict by a single upload, leaves [quickbooks_id] as
    it was; a single upload that raises, which it does when a commit
    raises, has written no row, and once the session is rolled back its
    record reads as that row. [quickbooks_id] changes only when the
    creation call has returned an object, and then to the 'Id' of that
    object; the object is the one found in the reply to the POST of the
    document, which the platform answered without an error status and
    with a body that parsed. An attempt of a batch ends as a failure or as
    a success, and one that succeeds, there or in a single upload, ends
    with [upload_error] None. *)
Theorem quickbooks_id_follows_the_platform :
  (forall self result tok cid i (w : world) r i' w',
     sync_invoice self result tok cid (i, w) = (inr r, (i', w')) ->
     failed r = S (failed result) ->
     Invoice.quickbooks_id i' = Invoice.quickbooks_id i)
  /\ (forall self result tok cid b (w : world) r b' w',
        sync_bill self result tok cid (b, w) = (inr r, (b', w')) ->
        failed r = S (failed result) ->
        Bill.quickbooks_id b' = Bill.quickbooks_id b)
  /\ (forall self tok cid i (w : world) out i' w',
        upload_single_invoice self tok cid (i, w) = (inr out, (i', w')) ->
        is_status "failed" out = true ->
        Invoice.quickbooks_id i' = Invoice.quickbooks_id i)
  /\ (forall self tok cid b (w : world) out b' w',
        upload_single_bill self tok cid (b, w) = (inr out, (b', w')) ->
        is_status "failed" out = true ->
        Bill.quickbooks_id b' = Bill.quickbooks_id b)
  /\ (forall self tok cid i (w : world) e i' w',
        upload_single_invoice self tok cid (i, w) = (inl e, (i', w')) ->
        invoice_rows w' = invoice_rows w /\ bill_rows w' = bill_rows w)
  /\ (forall self tok cid b (w : world) e b' w',
        upload_single_bill self tok cid (b, w) = (inl e, (b', w')) ->
        invoice_rows w' = invoice_rows w /\ bill_rows w' = bill_rows w)
  /\ (forall self tok cid i (w : world) e i' w' row,
        upload_single_invoice self tok cid (i, w) = (inl e, (i', w')) ->
        invoice_rows w !! Invoice.id i = Some row ->
        fst (snd (db_session_rollback invoice_row (i', w'))) = row)
  /\ (forall self tok cid b (w : world) e b' w' row,
        upload_single_bill self tok cid (b, w) = (inl e, (b', w')) ->
        bill_rows w !! Bill.id b = Some row ->
        fst (snd (db_session_rollback bill_row (b', w'))) = row)
  /\ (forall self result tok cid i (w : world) r out i' w',
        sync_invoice self result tok cid (i, w) = (r, (i', w'))
        \/ upload_single_invoice self tok cid (i, w) = (out, (i', w')) ->
        Invoice.quickbooks_id i' <> Invoice.quickbooks_id i ->
        exists fields w1,
          create_invoice (qb_api self) (Invoice.to_quickbooks_json i) tok cid w
          = (inr (JObj fields), w1)
          /\ Invoice.quickbooks_id i' = id_of fields)
  /\ (forall self result tok cid b (w : world) r out b' w',
        sync_bill self result tok cid (b, w) = (r, (b', w'))
        \/ upload_single_bill self tok cid (b, w) = (out, (b', w')) ->
        Bill.quickbooks_id b' <> Bill.quickbooks_id b ->
        exists fields w1,
          create_bill (qb_api self) (Bill.to_quickbooks_json b) tok cid w
          = (inr (JObj fields), w1)
          /\ Bill.quickbooks_id b' = id_of fields)
  /\ (forall api data tok cid (w w' : world) created,
        create_invoice api data tok cid w = (inr created, w')
        \/ create_bill api data tok cid w = (inr created, w') ->
        exists kind payload u u' response reply,
          _make_request api POST kind tok cid payload u = (inr response, u')
          /\ created_object (if String.eqb kind "invoice" then "Invoice" else "Bill") response
             = inr created
          /\ fst (http (build_request api POST kind tok cid payload) (remote u))
             = HttpResponds reply
          /\ raise_for_status reply (request_url api cid kind) = inr tt
          /\ body reply = inr response)
  /\ (forall self result tok cid i (w : world),
        exists r i' w',
          sync_invoice self result tok cid (i, w) = (inr r, (i', w'))
          /\ ((failed r = S (failed result) /\ successful r = successful result)
              \/ (successful r = S (successful result) /\ failed r = failed result
                  /\ Invoice.upload_error i' = None)))
  /\ (forall self result tok cid b (w : world),
        exists r b' w',
          sync_bill self result tok cid (b, w) = (inr r, (b', w'))
          /\ ((failed r = S (failed result) /\ successful r = successful result)
              \/ (successful r = S (successful result) /\ failed r = failed result
                  /\ Bill.upload_error b' = None)))
  /\ (forall self tok cid i (w : world) out i' w',
        upload_single_invoice self tok cid (i, w) = (inr out, (i', w')) ->
        (is_status "failed" out = true
         \/ (is_status "success" out = true /\ Invoice.upload_error i' = None)))
  /\ (forall self tok cid b (w : world) out b' w',
        upload_single_bill self tok cid (b, w) = (inr out, (b', w')) ->
        (is_status "failed" out = true
         \/ (is_status "success" out = true /\ Bill.upload_error b' = None))).
Proof.
  repeat match goal with |- _ /\ _ => split end.
  - intros self result tok cid i w r i' w' H Hfailed.
    destruct (sync_invoice_cases self result tok cid i w)
      as (r1 & i1 & w1 & Hs & _ & _ & _ & Hr).
    rewrite Hs in H. injection H as <- <- <-.
    destruct Hr as [(-> & _) | (msg & _ & -> & _)]; [simpl in Hfailed; lia | reflexivity].
  - intros self result tok cid b w r b' w' H Hfailed.
    destruct (sync_bill_cases self result tok cid b w)
      as (r1 & b1 & w1 & Hs & _ & _ & _ & Hr).
    rewrite Hs in H. injection H as <- <- <-.
    destruct Hr as [(-> & _) | (msg & _ & -> & _)]; [simpl in Hfailed; lia | reflexivity].
  - intros self tok cid i w out i' w' H Hst.
    apply upload_single_invoice_outcome in H. destruct H as (_ & _ & H).
    destruct (create_invoice (qb_api self) (Invoice.to_quickbooks_json i) tok cid w)
      as [[e | created] w1].
    + destruct H as [-> _]. reflexivity.
    + destruct H as (fields & _ & H). cbv zeta in H.
      destruct (commit_raises_next w1).
      * destruct H as (msg & e & _ & H). discriminate.
      * destruct H as (_ & H). injection H as ->. discriminate.
  - intros self tok cid b w out b' w' H Hst.
    apply upload_single_bill_outcome in H. destruct H as (_ & _ & H).
    destruct (create_bill (qb_api self) (Bill.to_quickbooks_json b) tok cid w)
      as [[e | created] w1].
    + destruct H as [-> _]. reflexivity.
    + destruct H as (fields & _ & H). cbv zeta in H.
      destruct (commit_raises_next w1).
      * destruct H as (msg & e & _ & H). discriminate.
      * destruct H as (_ & H). injection H as ->. discriminate.
  - intros self tok cid i w e i' w' H.
    apply upload_single_invoice_outcome in H. destruct H as (Hb & Hi & _).
    split; assumption.
  - intros self tok cid b w e b' w' H.
    apply upload_single_bill_outcome in H. destruct H as (Hi & Hb & _).
    split; assumption.
  - intros self tok cid i w e i' w' row H Hrow.
    apply upload_single_invoice_outcome in H. destruct H as (_ & Hrows & H).
    assert (Hid : Invoice.id i' = Invoice.id i).
    { destruct (create_invoice (qb_api self) (Invoice.to_quickbooks_json i) tok cid w)
        as [[x | created] w1].
      - destruct H as [-> _]. reflexivity.
      - destruct H as (fields & _ & H). cbv zeta in H.
        destruct (commit_raises_next w1).
        + destruct H as (msg & y & -> & _). reflexivity.
        + destruct H as (-> & _). reflexivity. }
    unfold db_session_rollback, invoice_row. simpl. rewrite Hrows, Hid, Hrow. reflexivity.
  - intros self tok cid b w e b' w' row H Hrow.
    apply upload_single_bill_outcome in H. destruct H as (_ & Hrows & H).
    assert (Hid : Bill.id b' = Bill.id b).
    { destruct (create_bill (qb_api self) (Bill.to_quickbooks_json b) tok cid w)
        as [[x | created] w1].
      - destruct H as [-> _]. reflexivity.
      - destruct H as (fields & _ & H). cbv zeta in H.
        destruct (commit_raises_next w1).
        + destruct H as (msg & y & -> & _). reflexivity.
        + destruct H as (-> & _). reflexivity. }
    unfold db_session_rollback, bill_row. simpl. rewrite Hrows, Hid, Hrow. reflexivity.
  - intros self result tok cid i w r out i' w' H Hne.
    destruct (create_invoice (qb_api self) (Invoice.to_quickbooks_json i) tok cid w)
      as [[e | created] w1] eqn:Hc.
    + exfalso. apply Hne. destruct H as [H | H].
      * rewrite (sync_invoice_failed _ _ _ _ _ _ _ _ Hc) in H.
        injection H as _ <- _. reflexivity.
      * apply upload_single_invoice_outcome in H. destruct H as (_ & _ & H).
        rewrite Hc in H. destruct H as [-> _]. reflexivity.
    + destruct (create_invoice_returns_dict _ _ _ _ _ _ _ Hc) as [fields ->].
      exists fields, w1. split; [reflexivity |]. destruct H as [H | H].
      * rewrite (sync_invoice_uploaded _ _ _ _ _ _ _ _ Hc) in H.
        injection H as _ <- _. reflexivity.
      * apply upload_single_invoice_outcome in H. destruct H as (_ & _ & H).
        rewrite Hc in H.
        destruct H as (fields' & Heq & H). injection Heq as <-. cbv zeta in H.
        destruct (commit_raises_next w1).
        -- destruct H as (msg & e & -> & _). reflexivity.
        -- destruct H as (-> & _). reflexivity.
  - intros self result tok cid b w r out b' w' H Hne.
    destruct (create_bill (qb_api self) (Bill.to_quickbooks_json b) tok cid w)
      as [[e | created] w1] eqn:Hc.
    + exfalso. apply Hne. destruct H as [H | H].
      * rewrite (sync_bill_failed _ _ _ _ _ _ _ _ Hc) in H.
        injection H as _ <- _. reflexivity.
      * apply upload_single_bill_outcome in H. destruct H as (_ & _ & H).
        rewrite Hc in H. destruct H as [-> _]. reflexivity.
    + destruct (create_bill_returns_dict _ _ _ _ _ _ _ Hc) as [fields ->].
      exists fields, w1. split; [reflexivity |]. destruct H as [H | H].
      * rewrite (sync_bill_uploaded _ _ _ _ _ _ _ _ Hc) in H.
        injection H as _ <- _. reflexivity.
      * apply upload_single_bill_outcome in H. destruct H as (_ & _ & H).
        rewrite Hc in H.
        destruct H as (fields' & Heq & H). injection Heq as <-. cbv zeta in H.
        destruct (commit_raises_next w1).
        -- destruct H as (msg & e & -> & _). reflexivity.
        -- destruct H as (-> & _). reflexivity.
  - intros api data tok cid w w' created [H | H].
    + destruct (create_invoice_returns_reply _ _ _ _ _ _ _ H)
        as (payload & u & u' & response & Hm & Ho).
      destruct (make_request_returns _ _ _ _ _ _ _ _ _ Hm) as (reply & H1 & H2 & H3).
      exists "invoice", payload, u, u', response, reply. auto.
    + destruct (create_bill_returns_reply _ _ _ _ _ _ _ H)
        as (payload & u & u' & response & Hm & Ho).
      destruct (make_request_returns _ _ _ _ _ _ _ _ _ Hm) as (reply & H1 & H2 & H3).
      exists "bill", payload, u, u', response, reply. auto.
  - intros self result tok cid i w.
    destruct (sync_invoice_cases self result tok cid i w)
      as (r1 & i1 & w1 & Hs & _ & _ & _ & Hr).
    exists r1, i1, w1. split; [exact Hs |].
    destruct Hr as [(-> & Herr & _) | (msg & -> & _)]; simpl; auto.
  - intros self result tok cid b w.
    destruct (sync_bill_cases self result tok cid b w)
      as (r1 & b1 & w1 & Hs & _ & _ & _ & Hr).
    exists r1, b1, w1. split; [exact Hs |].
    destruct Hr as [(-> & Herr & _) | (msg & -> & _)]; simpl; auto.
  - intros self tok cid i w out i' w' H.
    apply upload_single_invoice_outcome in H. destruct H as (_ & _ & H).
    destruct (create_invoice (qb_api self) (Invoice.to_quickbooks_json i) tok cid w)
      as [[e | created] w1].
    + destruct H as [_ H]. rewrite (H out eq_refl). left. reflexivity.
    + destruct H as (fields & _ & H). cbv zeta in H.
      destruct (commit_raises_next w1).
      * destruct H as (msg & e & _ & H). discriminate.
      * destruct H as (-> & H). injection H as ->. right. split; reflexivity.
  - intros self tok cid b w out b' w' H.
    apply upload_single_bill_outcome in H. destruct H as (_ & _ & H).
    destruct (create_bill (qb_api self) (Bill.to_quickbooks_json b) tok cid w)
      as [[e | created] w1].
    + destruct H as [_ H]. rewrite (H out eq_refl). left. reflexivity.
    + destruct H as (fields & _ & H). cbv zeta in H.
      destruct (commit_raises_next w1).
      * destruct H as (msg & e & _ & H). discriminate.
      * destruct H as (-> & H). injection H as ->. right. split; reflexivity.
Qed.

(** C7, as the code has it. For documents that are pending when they are
    tried (no [quickbooks_id], as the upload route selects them) and a
    database in which an error is only found on rows without a
    [quickbooks_id]: after a batch, however it ends, every row is in that
    state and the statistics count no more failed than pending documents,
    per variant and overall; the records a batch hands back are in that
    state, and a batch none of whose commits fails in its flush does hand
    them back. The same holds for the rows and the statistics after a
    single upload, however it ends, and for the record of a single upload
    that returns. *)
Theorem pending_batches_keep_errors_on_pending_documents :
  (forall self invoices bills tok cid (w : world),
     Forall (fun i => Invoice.quickbooks_id i = JNull) invoices ->
     Forall (fun b => Bill.quickbooks_id b = JNull) bills ->
     rows_consistent w ->
     let w' := snd (upload_all self invoices bills tok cid w) in
     rows_consistent w'
     /\ count_failed (stat_invoices (get_upload_statistics w'))
        <= count_pending (stat_invoices (get_upload_statistics w'))
     /\ count_failed (stat_bills (get_upload_statistics w'))
        <= count_pending (stat_bills (get_upload_statistics w'))
     /\ count_failed (stat_overall (get_upload_statistics w'))
        <= count_pending (stat_overall (get_upload_statistics w'))
     /\ (forall rep invoices' bills' w'',
           upload_all self invoices bills tok cid w = (inr (rep, (invoices', bills')), w'') ->
           Forall (fun i => error_only_when_pending (Invoice.state i) = true) invoices'
           /\ Forall (fun b => error_only_when_pending (Bill.state b) = true) bills')
     /\ (no_flush_fails w ->
         exists rep docs w'',
           upload_all self invoices bills tok cid w = (inr (rep, docs), w'')))
  /\ (forall self tok cid i (w : world) r i' w',
        Invoice.quickbooks_id i = JNull ->
        rows_consistent w ->
        upload_single_invoice self tok cid (i, w) = (r, (i', w')) ->
        rows_consistent w'
        /\ count_failed (stat_invoices (get_upload_statistics w'))
           <= count_pending (stat_invoices (get_upload_statistics w'))
        /\ count_failed (stat_bills (get_upload_statistics w'))
           <= count_pending (stat_bills (get_upload_statistics w'))
        /\ count_failed (stat_overall (get_upload_statistics w'))
           <= count_pending (stat_overall (get_upload_statistics w'))
        /\ (forall out, r = inr out -> error_only_when_pending (Invoice.state i') = true))
  /\ (forall self tok cid b (w : world) r b' w',
        Bill.quickbooks_id b = JNull ->
        rows_consistent w ->
        upload_single_bill self tok cid (b, w) = (r, (b', w')) ->
        rows_consistent w'
        /\ count_failed (stat_invoices (get_upload_statistics w'))
           <= count_pending (stat_invoices (get_upload_statistics w'))
        /\ count_failed (stat_bills (get_upload_statistics w'))
           <= count_pending (stat_bills (get_upload_statistics w'))
        /\ count_failed (stat_overall (get_upload_statistics w'))
           <= count_pending (stat_overall (get_upload_statistics w'))
        /\ (forall out, r = inr out -> error_only_when_pending (Bill.state b') = true)).
Proof.
  assert (Hkeep_clock : forall w : world, rows_consistent w -> rows_consistent (clock_read w))
    by (intros w; apply rows_consistent_same_rows; reflexivity).
  assert (Hkeep_log : forall lvl msg (w : world),
             rows_consistent w -> rows_consistent (logged_line lvl msg w))
    by (intros lvl msg w; apply rows_consistent_same_rows; reflexivity).
  split; [| split].
  - intros self invoices bills tok cid w Hi Hb Hrows w'.
    assert (Hturn_i : forall i result (u : world), i ∈ invoices -> rows_consistent u ->
               rows_consistent (snd (with_doc i (invoice_turn self result tok cid) u))).
    { intros i result u Hin Hu. apply invoice_turn_consistent; [| exact Hu].
      rewrite Forall_forall in Hi. exact (Hi i Hin). }
    assert (Hturn_b : forall b result (u : world), b ∈ bills -> rows_consistent u ->
               rows_consistent (snd (with_doc b (bill_turn self result tok cid) u))).
    { intros b result u Hin Hu. apply bill_turn_consistent; [| exact Hu].
      rewrite Forall_forall in Hb. exact (Hb b Hin). }
    assert (Hfinal : rows_consistent w').
    { unfold w'. apply upload_all_invariant; assumption. }
    split; [exact Hfinal |].
    destruct (consistent_statistics w' Hfinal) as (S1 & S2 & S3).
    split; [exact S1 |]. split; [exact S2 |]. split; [exact S3 |].
    split.
    + intros rep invoices' bills' w'' H. apply upload_all_returned in H.
      destruct H as (ri & di & u & rb & db & x & Hgi & Hgb & _ & Hdocs & _).
      injection Hdocs as -> ->.
      assert (Hu : rows_consistent u).
      { pose proof (guarded_invoices_invariant rows_consistent self invoices tok cid
                      Hturn_i Hkeep_log _ (Hkeep_clock w Hrows)) as Hu.
        rewrite Hgi in Hu. exact Hu. }
      split.
      * eapply guarded_invoices_docs; [exact Hi | | exact Hgi]. apply Hkeep_clock, Hrows.
      * eapply guarded_bills_docs; [exact Hb | exact Hu | exact Hgb].
    + intros Hno. destruct (upload_all_runs self invoices bills tok cid w Hno)
        as (rep & docs & w'' & H & _). eauto.
  - intros self tok cid i w r i' w' Hnull Hrows H.
    apply upload_single_invoice_outcome in H. destruct H as (Hb & Hi & H).
    assert (Hdoc : forall out, r = inr out ->
                     error_only_when_pending (Invoice.state i') = true).
    { intros out ->.
      destruct (create_invoice (qb_api self) (Invoice.to_quickbooks_json i) tok cid w)
        as [[e | created] w1].
      - destruct H as [-> _]. unfold error_only_when_pending, has_error. simpl.
        rewrite Hnull. reflexivity.
      - destruct H as (fields & _ & H). cbv zeta in H.
        destruct (commit_raises_next w1).
        + destruct H as (msg & e & _ & H). discriminate.
        + destruct H as (-> & _). reflexivity. }
    assert (Hfinal : rows_consistent w').
    { destruct r as [e | out].
      - apply (rows_consistent_same_rows w); assumption.
      - apply (rows_consistent_insert_invoice w _ (Invoice.id i) i');
          [exact Hi | exact Hb | exact (Hdoc out eq_refl) | exact Hrows]. }
    split; [exact Hfinal |].
    destruct (consistent_statistics w' Hfinal) as (S1 & S2 & S3).
    repeat split; assumption.
  - intros self tok cid b w r b' w' Hnull Hrows H.
    apply upload_single_bill_outcome in H. destruct H as (Hi & Hb & H).
    assert (Hdoc : forall out, r = inr out ->
                     error_only_when_pending (Bill.state b') = true).
    { intros out ->.
      destruct (create_bill (qb_api self) (Bill.to_quickbooks_json b) tok cid w)
        as [[e | created] w1].
      - destruct H as [-> _]. unfold error_only_when_pending, has_error. simpl.
        rewrite Hnull. reflexivity.
      - destruct H as (fields & _ & H). cbv zeta in H.
        destruct (commit_raises_next w1).
        + destruct H as (msg & e & _ & H). discriminate.
        + destruct H as (-> & _). reflexivity. }
    assert (Hfinal : rows_consistent w').
    { destruct r as [e | out].
      - apply (rows_consistent_same_rows w); assumption.
      - apply (rows_consistent_insert_bill w _ (Bill.id b) b');
          [exact Hb | exact Hi | exact (Hdoc out eq_refl) | exact Hrows]. }
    split; [exact Hfinal |].
    destruct (consistent_statistics w' Hfinal) as (S1 & S2 & S3).
    repeat split; assumption.
Qed.

(** C4. Each resolver first sends one GET, the query for the name. When
    the reply lists at least one match, the first match is returned and
    nothing else is sent. When it lists none, exactly one more request is
    sent, the POST that creates the entity with that name (an account as an
    'Expense' of subtype 'OtherMiscellaneousServiceCost'), and what the
    reply holds under the kind's name is returned. *)
Theorem resolver_looks_up_then_creates k self name tok cid (w : world) :
  let lookup := _make_request self GET (lookup_endpoint k name) tok cid JNull w in
  let lookup_request := build_request self GET (lookup_endpoint k name) tok cid JNull in
  let create_request :=
    build_request self POST (create_endpoint k) tok cid (create_payload k name) in
  sent (snd lookup) = (sent w ++ [lookup_request])%list
  /\ method lookup_request = GET
  /\ method create_request = POST
  /\ json_body create_request = create_payload k name
  /\ py_getitem (create_payload k name) "Name" = inr name
  /\ (k = Account ->
      py_getitem (create_payload k name) "AccountType" = inr (JStr "Expense")
      /\ py_getitem (create_payload k name) "AccountSubType"
         = inr (JStr "OtherMiscellaneousServiceCost"))
  /\ forall response,
      fst lookup = inr response ->
      (forall first rest,
         matches k response = inr (JList (first :: rest)) ->
         resolve k self name tok cid w = (inr first, snd lookup))
      /\ (matches k response = inr (JList []) ->
          let creation :=
            _make_request self POST (create_endpoint k) tok cid (create_payload k name)
              (snd lookup) in
          sent (snd (resolve k self name tok cid w))
          = (sent w ++ [lookup_request; create_request])%list
          /\ forall created reference,
               fst creation = inr created ->
               py_getitem created (kind_name k) = inr reference ->
               resolve k self name tok cid w = (inr reference, snd creation)).
Proof.
  intros lookup lookup_request create_request.
  split; [apply make_request_sends |]. do 3 (split; [reflexivity |]).
  split; [destruct k; reflexivity |].
  split; [intros ->; split; reflexivity |].
  intros response Hl.
  assert (Hlookup : _make_request self GET (lookup_endpoint k name) tok cid JNull w
                    = (inr response, snd lookup)).
  { fold lookup. rewrite <- Hl. destruct lookup; reflexivity. }
  split.
  - intros first rest Hm. eapply resolve_hit; eauto.
  - intros Hm creation.
    assert (Hcreation : _make_request self POST (create_endpoint k) tok cid
                          (create_payload k name) (snd lookup)
                        = (fst creation, snd creation))
      by (fold creation; destruct creation; reflexivity).
    destruct (resolve_miss k self name tok cid w _ _ response _ Hlookup Hm Hcreation)
      as [Hsent Hret].
    split.
    + rewrite Hsent. unfold creation. rewrite make_request_sends.
      unfold lookup. rewrite make_request_sends. rewrite <- app_assoc. reflexivity.
    + intros created reference Hc Hr. eapply Hret; eauto.
Qed.

(** *** Further properties: the client *)

Lemma try_except_raises {S A} (m : M S A) (h : exn -> M S A) s e s' :
  try_except m h s = (inl e, s') ->
  exists e0 s1, m s = (inl e0, s1) /\ h e0 s1 = (inl e, s').
Proof.
  unfold try_except. destruct (m s) as [[e0 | a] s1]; intros H.
  - eauto.
  - discriminate.
Qed.

(** X1. Whatever goes wrong in a request (the call raises, the status is
    an error, the body does not parse), [_make_request] raises a plain
    [Exception] whose message is chosen by the class of the cause; in
    every case it has sent exactly one request, the one built from its
    arguments. *)
Theorem make_request_collapses_its_errors self m endpoint tok cid data (w : world) :
  fst (_make_request self m endpoint tok cid data w)
  = request_result endpoint (request_url self cid endpoint)
      (fst (http (build_request self m endpoint tok cid data) (remote w)))
  /\ sent (snd (_make_request self m endpoint tok cid data w))
     = (sent w ++ [build_request self m endpoint tok cid data])%list
  /\ remote (snd (_make_request self m endpoint tok cid data w))
     = snd (http (build_request self m endpoint tok cid data) (remote w))
  /\ (forall e, fst (_make_request self m endpoint tok cid data w) = inl e ->
                exn_class e = Exception)
  /\ (forall msg, fst (http (build_request self m endpoint tok cid data) (remote w))
                  = HttpRaises (Raise Timeout msg) ->
                  fst (_make_request self m endpoint tok cid data w)
                  = inl (Raise Exception ("Request timeout: " +:+ endpoint))).
Proof.
  assert (Hres : fst (_make_request self m endpoint tok cid data w)
                 = request_result endpoint (request_url self cid endpoint)
                     (fst (http (build_request self m endpoint tok cid data) (remote w)))
                 /\ remote (snd (_make_request self m endpoint tok cid data w))
                    = snd (http (build_request self m endpoint tok cid data) (remote w))).
  { unfold _make_request, try_except, bind, log, requests_call, eval, request_result,
      collapsed_message; simpl.
    destruct (http (build_request self m endpoint tok cid data) (remote w))
      as [[e | r] x]; simpl.
    - destruct (exn_class e); split; reflexivity.
    - destruct (status_code r =? 200); simpl;
        (destruct (raise_for_status r (request_url self cid endpoint)) as [e | []]; simpl;
         [ destruct (exn_class e); split; reflexivity
         | destruct (body r) as [e | v]; simpl;
           [ destruct (exn_class e); split; reflexivity | split; reflexivity ] ]). }
  destruct Hres as [Hres Hrem].
  split; [exact Hres |]. split; [apply make_request_sends |]. split; [exact Hrem |].
  split.
  - intros e He. rewrite Hres in He. unfold request_result in He.
    destruct (fst (http (build_request self m endpoint tok cid data) (remote w)))
      as [c | r].
    + injection He as <-. reflexivity.
    + destruct (raise_for_status r (request_url self cid endpoint)) as [c | u].
      * injection He as <-. reflexivity.
      * destruct (body r); [injection He as <-; reflexivity | discriminate].
  - intros msg Ho. rewrite Hres, Ho. reflexivity.
Qed.

(** X2. A reply whose status is neither 200 nor an error status (a 201,
    say) is returned to the caller as a success, after its text has been
    logged as an error; a reply with status 200 leaves no error line; a
    reply with a status from 400 to 599 raises, whatever its body. *)
Theorem make_request_and_the_status self m endpoint tok cid data (w : world) r x :
  http (build_request self m endpoint tok cid data) (remote w) = (HttpResponds r, x) ->
  let started :=
    (logged w ++ [ (INFO, "Making " +:+ method_name m +:+ " request to: "
                          +:+ request_url self cid endpoint);
                   (INFO, "Response status: " +:+ str_of_Z (status_code r)) ])%list in
  (status_code r = 200 ->
   forall v, body r = inr v ->
     fst (_make_request self m endpoint tok cid data w) = inr v
     /\ logged (snd (_make_request self m endpoint tok cid data w)) = started)
  /\ (status_code r <> 200 -> status_code r < 400 \/ 600 <= status_code r ->
      forall v, body r = inr v ->
        fst (_make_request self m endpoint tok cid data w) = inr v
        /\ logged (snd (_make_request self m endpoint tok cid data w))
           = (started ++ [ (ERROR, "Response content: " +:+ text r) ])%list)
  /\ (400 <= status_code r < 600 ->
      exists msg,
        fst (_make_request self m endpoint tok cid data w)
        = inl (Raise Exception ("API request failed: " +:+ msg))).
Proof.
  intros Hhttp started. subst started.
  unfold _make_request, try_except, bind, log, requests_call, eval; simpl.
  rewrite Hhttp; simpl.
  split; [| split].
  - intros Hs v Hb. rewrite Hs; simpl.
    unfold raise_for_status. rewrite Hs; simpl. rewrite Hb; simpl.
    rewrite <- app_assoc. split; reflexivity.
  - intros Hne Hrange v Hb.
    destruct (status_code r =? 200) eqn:E; [apply Z.eqb_eq in E; contradiction |].
    simpl. unfold raise_for_status.
    replace ((400 <=? status_code r) && (status_code r <? 500)) with false
      by (symmetry; apply andb_false_iff; destruct Hrange;
          [left; apply Z.leb_gt; lia | right; apply Z.ltb_ge; lia]).
    replace ((500 <=? status_code r) && (status_code r <? 600)) with false
      by (symmetry; apply andb_false_iff; destruct Hrange;
          [left; apply Z.leb_gt; lia | right; apply Z.ltb_ge; lia]).
    simpl. rewrite Hb; simpl. rewrite <- !app_assoc. split; reflexivity.
  - intros [Hlo Hhi].
    destruct (status_code r =? 200) eqn:E; [apply Z.eqb_eq in E; lia |].
    simpl. unfold raise_for_status.
    destruct ((400 <=? status_code r) && (status_code r <? 500)) eqn:E4; simpl.
    + eexists. reflexivity.
    + replace ((500 <=? status_code r) && (status_code r <? 600)) with true.
      * simpl. eexists. reflexivity.
      * symmetry. apply andb_true_iff. apply andb_false_iff in E4.
        split; [apply Z.leb_le | apply Z.ltb_lt; lia].
        destruct E4 as [E4 | E4]; [apply Z.leb_gt in E4; lia | apply Z.ltb_ge in E4; lia].
Qed.

(** X3. Where the created object is looked for in a reply that is a dict:
    under the query envelope first, whose first list element wins even
    when the kind is also a key of the reply itself; under the kind when
    the reply has no envelope, or an envelope dict without the kind;
    nowhere else. An envelope with an empty list raises an [IndexError], a
    reply with neither raises 'Unexpected response format'. *)
Theorem created_object_envelope_first kind fields :
  (forall q x rest,
     dict_lookup "QueryResponse" fields = Some (JObj q) ->
     dict_lookup kind q = Some (JList (x :: rest)) ->
     created_object kind (JObj fields) = inr x)
  /\ (forall q,
        dict_lookup "QueryResponse" fields = Some (JObj q) ->
        dict_lookup kind q = Some (JList []) ->
        created_object kind (JObj fields)
        = inl (Raise IndexError "list index out of range"))
  /\ (forall x,
        (dict_lookup "QueryResponse" fields = None
         \/ exists q, dict_lookup "QueryResponse" fields = Some (JObj q)
                      /\ dict_lookup kind q = None) ->
        dict_lookup kind fields = Some x ->
        created_object kind (JObj fields) = inr x)
  /\ ((dict_lookup "QueryResponse" fields = None
       \/ exists q, dict_lookup "QueryResponse" fields = Some (JObj q)
                    /\ dict_lookup kind q = None) ->
      dict_lookup kind fields = None ->
      created_object kind (JObj fields)
      = inl (Raise Exception "Unexpected response format from QuickBooks")).
Proof.
  unfold created_object, and_then; simpl.
  repeat split.
  - intros q x rest Hq Hk. rewrite Hq; simpl. rewrite Hk. reflexivity.
  - intros q Hq Hk. rewrite Hq; simpl. rewrite Hk. reflexivity.
  - intros x [Hq | (q & Hq & Hk)] Hd.
    + rewrite Hq, Hd. reflexivity.
    + rewrite Hq; simpl. rewrite Hk, Hd. reflexivity.
  - intros [Hq | (q & Hq & Hk)] Hd.
    + rewrite Hq, Hd. reflexivity.
    + rewrite Hq; simpl. rewrite Hk, Hd. reflexivity.
Qed.

(** X4. An error never leaves the client under its own class: each of
    [create_invoice], [create_bill] and the three resolvers raises a plain
    [Exception] whose message is its own prefix followed by the message of
    the error it caught, and leaves an error line in the log. *)
Theorem client_errors_are_wrapped :
  (forall api data tok cid (w w' : world) e,
     create_invoice api data tok cid w = (inl e, w') ->
     exists cause w1,
       e = Raise Exception ("Invoice creation failed: " +:+ exn_str cause)
       /\ w' = logged_line ERROR ("Failed to create invoice: " +:+ exn_str cause) w1)
  /\ (forall api data tok cid (w w' : world) e,
        create_bill api data tok cid w = (inl e, w') ->
        exists cause w1,
          e = Raise Exception ("Bill creation failed: " +:+ exn_str cause)
          /\ w' = logged_line ERROR ("Failed to create bill: " +:+ exn_str cause) w1)
  /\ (forall k api name tok cid (w w' : world) e,
        resolve k api name tok cid w = (inl e, w') ->
        exists cause w1,
          e = Raise Exception (kind_name k +:+ " operation failed: " +:+ exn_str cause)
          /\ w' = logged_line ERROR ("Failed to get/create " +:+ create_endpoint k
                                     +:+ " " +:+ py_str py_repr name +:+ ": "
                                     +:+ exn_str cause) w1).
Proof.
  split; [| split].
  - intros api data tok cid w w' e H.
    apply try_except_raises in H. destruct H as (cause & w1 & _ & H).
    unfold bind, log, raise in H. injection H as <- <-. eauto.
  - intros api data tok cid w w' e H.
    apply try_except_raises in H. destruct H as (cause & w1 & _ & H).
    unfold bind, log, raise in H. injection H as <- <-. eauto.
  - intros k api name tok cid w w' e H.
    destruct k; simpl in H;
      apply try_except_raises in H; destruct H as (cause & w1 & _ & H);
      unfold bind, log, raise in H; injection H as <- <-;
      exists cause, w1; split; reflexivity.
Qed.

(** X5. A resolver whose lookup fails sends nothing more: it raises the
    wrapped error after that one request, and does not try to create the
    entity. When the lookup finds nothing and the reply to the creation
    lacks the entity, the resolver raises as well, although the POST has
    been sent. *)
Theorem failed_lookup_creates_nothing k self name tok cid (w w1 : world) :
  (forall cause,
     _make_request self GET (lookup_endpoint k name) tok cid JNull w = (inl cause, w1) ->
     resolve k self name tok cid w
     = (inl (Raise Exception (kind_name k +:+ " operation failed: " +:+ exn_str cause)),
        logged_line ERROR ("Failed to get/create " +:+ create_endpoint k +:+ " "
                           +:+ py_str py_repr name +:+ ": " +:+ exn_str cause) w1)
     /\ sent (snd (resolve k self name tok cid w))
        = (sent w ++ [build_request self GET (lookup_endpoint k name) tok cid JNull])%list)
  /\ (forall response created w2,
        _make_request self GET (lookup_endpoint k name) tok cid JNull w
        = (inr response, w1) ->
        matches k response = inr (JList []) ->
        _make_request self POST (create_endpoint k) tok cid (create_payload k name) w1
        = (inr (JObj created), w2) ->
        dict_lookup (kind_name k) created = None ->
        fst (resolve k self name tok cid w)
        = inl (Raise Exception (kind_name k +:+ " operation failed: '"
                                +:+ kind_name k +:+ "'"))
        /\ sent (snd (resolve k self name tok cid w))
           = (sent w ++ [ build_request self GET (lookup_endpoint k name) tok cid JNull;
                          build_request self POST (create_endpoint k) tok cid
                            (create_payload k name) ])%list).
Proof.
  split.
  - intros cause Hl.
    assert (Hsent : sent w1
                    = (sent w ++ [build_request self GET (lookup_endpoint k name)
                                    tok cid JNull])%list).
    { pose proof (make_request_sends self GET (lookup_endpoint k name) tok cid
                    JNull w) as H1.
      rewrite Hl in H1; exact H1. }
    destruct k; simpl in *;
      [ unfold _get_or_create_customer
      | unfold _get_or_create_vendor
      | unfold _get_or_create_account ];
      unfold try_except, bind, log, raise; rewrite Hl; simpl;
      (split; [reflexivity | exact Hsent]).
  - intros response created w2 Hl Hm Hc Hk.
    assert (Hsent : sent w2
                    = (sent w ++ [ build_request self GET (lookup_endpoint k name)
                                     tok cid JNull;
                                   build_request self POST (create_endpoint k) tok cid
                                     (create_payload k name) ])%list).
    { pose proof (make_request_sends self POST (create_endpoint k) tok cid
                    (create_payload k name) w1) as H2.
      rewrite Hc in H2; simpl in H2.
      pose proof (make_request_sends self GET (lookup_endpoint k name) tok cid
                    JNull w) as H1.
      rewrite Hl in H1; simpl in H1.
      rewrite H2, H1, <- app_assoc. reflexivity. }
    unfold matches, and_then in Hm.
    destruct (py_get response "QueryResponse" (JObj [])) as [e | q] eqn:Hq;
      [discriminate |].
    destruct k; simpl in *;
      [ unfold _get_or_create_customer
      | unfold _get_or_create_vendor
      | unfold _get_or_create_account ];
      unfold try_except, bind, eval, log, raise; rewrite Hl, Hq, Hm; simpl;
      rewrite Hc; simpl; rewrite Hk; simpl; (split; [reflexivity | exact Hsent]).
Qed.

(** Reading a dict after [d[k] = v]. *)
Lemma dict_lookup_dict_set k v kv k' :
  dict_lookup k' (dict_set k v kv)
  = if String.eqb k' k then Some v else dict_lookup k' kv.
Proof.
  induction kv as [| [k0 v0] rest IH]; simpl.
  - destruct (String.eqb k' k); reflexivity.
  - destruct (String.eqb k k0) eqn:E; simpl.
    + apply String.eqb_eq in E. subst k0.
      destruct (String.eqb k' k); reflexivity.
    + destruct (String.eqb k' k0) eqn:E'.
      * apply String.eqb_eq in E'. subst k0.
        rewrite String.eqb_sym in E. rewrite E. reflexivity.
      * exact IH.
Qed.

(** What follows the POST of a document sends nothing. *)
Lemma post_then_read_sends kind self endpoint tok cid payload (w : world)
    (k : json -> M world json) (h : exn -> M world json) :
  (forall v u, sent (snd (k v u)) = sent u) ->
  (forall e u, sent (snd (h e u)) = sent u) ->
  sent (snd (try_except
               (let* response := _make_request self POST endpoint tok cid payload in
                let* created := eval (created_object kind response) in
                k created) h w))
  = (sent w ++ [build_request self POST endpoint tok cid payload])%list.
Proof.
  intros Hk Hh.
  pose proof (make_request_sends self POST endpoint tok cid payload w) as Hs.
  unfold try_except, bind, eval.
  destruct (_make_request self POST endpoint tok cid payload w) as [[e | response] w1];
    simpl in Hs |- *.
  - rewrite Hh. exact Hs.
  - destruct (created_object kind response) as [e | created]; simpl.
    + rewrite Hh. exact Hs.
    + pose proof (Hk created w1) as Hk1.
      destruct (k created w1) as [[e | v] w2]; simpl in Hk1 |- *.
      * rewrite Hh. congruence.
      * congruence.
Qed.

(** A [try] whose first step returns goes on with the rest. *)
Lemma try_except_bind_returns {S A B} (m : M S A) (k : A -> M S B) (h : exn -> M S B)
    s a s1 :
  m s = (inr a, s1) -> try_except (bind m k) h s = try_except (k a) h s1.
Proof. unfold try_except, bind. intros ->. reflexivity. Qed.

Lemma try_except_bind_raises {S A B} (m : M S A) (k : A -> M S B) (h : exn -> M S B)
    s e s1 :
  m s = (inl e, s1) -> try_except (bind m k) h s = h e s1.
Proof. unfold try_except, bind. intros ->. reflexivity. Qed.

Ltac step_try :=
  erewrite try_except_bind_returns by (unfold eval, log, ret; simpl; reflexivity).

(** X6. An invoice whose customer name is empty is posted as the
    translator wrote it: no customer is looked up or created, and the one
    request of the call is the POST of the payload with its reference by
    name. *)
Theorem invoice_without_customer_is_posted_as_is api i tok cid (w : world) :
  Invoice.customer_name i = "" ->
  sent (snd (create_invoice api (Invoice.to_quickbooks_json i) tok cid w))
  = (sent w ++ [build_request api POST "invoice" tok cid (Invoice.to_quickbooks_json i)])%list.
Proof.
  intros Hname.
  unfold create_invoice, Invoice.to_quickbooks_json.
  rewrite Hname.
  do 5 step_try.
  rewrite post_then_read_sends.
  - reflexivity.
  - intros v u. unfold bind, eval, log, ret.
    destruct (py_get v "Id" JNull); reflexivity.
  - intros e u. reflexivity.
Qed.

(** X7. An invoice with a customer name is posted under the customer the
    resolver returned: the payload of the POST is the translator's with
    [CustomerRef] replaced by the customer's [Id] by value, every other
    key as it was, and the POST is the only request after the resolver's.
    A customer without [Id] stops the call before anything is posted. *)
Theorem invoice_is_posted_under_the_resolved_customer api i tok cid (w w1 : world) customer :
  Invoice.customer_name i <> "" ->
  resolve Customer api (JStr (Invoice.customer_name i)) tok cid
    (logged_line INFO ("Creating invoice: " +:+ Invoice.invoice_number i) w)
  = (inr customer, w1) ->
  (forall customer_id,
     py_getitem customer "Id" = inr customer_id ->
     exists payload,
       py_setitem (Invoice.to_quickbooks_json i) "CustomerRef"
         (JObj [ ("value", customer_id) ]) = inr payload
       /\ py_getitem payload "CustomerRef" = inr (JObj [ ("value", customer_id) ])
       /\ (forall k, k <> "CustomerRef" ->
                     py_getitem payload k = py_getitem (Invoice.to_quickbooks_json i) k)
       /\ sent (snd (create_invoice api (Invoice.to_quickbooks_json i) tok cid w))
          = (sent w1 ++ [build_request api POST "invoice" tok cid payload])%list)
  /\ (forall e,
        py_getitem customer "Id" = inl e ->
        create_invoice api (Invoice.to_quickbooks_json i) tok cid w
        = (inl (Raise Exception ("Invoice creation failed: " +:+ exn_str e)),
           logged_line ERROR ("Failed to create invoice: " +:+ exn_str e) w1)).
Proof.
  intros Hname Hr. simpl in Hr.
  apply String.eqb_neq in Hname.
  split.
  - intros customer_id Hid.
    exists (JObj (dict_set "CustomerRef" (JObj [ ("value", customer_id) ])
                    [ ("Line", JList [ JObj [
                         ("Amount", JFloat (Invoice.amount i));
                         ("DetailType", JStr "SalesItemLineDetail");
                         ("SalesItemLineDetail", JObj [
                            ("ItemRef", JObj [ ("value", JStr "1");
                                               ("name", JStr "Services") ]);
                            ("TaxCodeRef",
                             JObj [ ("value", JStr (Invoice.tax_code_or_NON i)) ]) ]);
                         ("Description", JStr (Invoice.line_description i)) ] ]);
                      ("CustomerRef", JObj [ ("name", JStr (Invoice.customer_name i)) ]);
                      ("DocNumber", JStr (Invoice.invoice_number i));
                      ("TxnDate", isoformat_or_none (Invoice.invoice_date i));
                      ("DueDate", isoformat_or_none (Invoice.due_date i)) ])).
    split; [reflexivity |]. split; [reflexivity |]. split.
    + intros k Hk. apply String.eqb_neq in Hk.
      unfold py_getitem, Invoice.to_quickbooks_json.
      rewrite dict_lookup_dict_set, Hk. reflexivity.
    + unfold create_invoice, Invoice.to_quickbooks_json.
      do 4 step_try.
      simpl py_truthy. rewrite Hname. simpl negb. cbv iota.
      erewrite try_except_bind_returns
        by (unfold bind, eval; rewrite Hr, Hid; reflexivity).
      rewrite post_then_read_sends.
      * reflexivity.
      * intros v u. unfold bind, eval, log, ret.
        destruct (py_get v "Id" JNull); reflexivity.
      * intros e u. reflexivity.
  - intros e He.
    unfold create_invoice, Invoice.to_quickbooks_json.
    do 4 step_try.
    simpl py_truthy. rewrite Hname. simpl negb. cbv iota.
    erewrite try_except_bind_raises
      by (unfold bind, eval; rewrite Hr, He; reflexivity).
    reflexivity.
Qed.

(** *** Counting requests *)

Lemma sends_ret {A} (a : A) : sends_at_most 0 (ret a : M world A).
Proof. intros w. exists []. rewrite app_nil_r. split; [reflexivity | simpl; lia]. Qed.

Lemma sends_raise {A} e : sends_at_most 0 (@raise world A e).
Proof. intros w. exists []. rewrite app_nil_r. split; [reflexivity | simpl; lia]. Qed.

Lemma sends_eval {A} (r : res A) : sends_at_most 0 (eval r : M world A).
Proof. intros w. exists []. rewrite app_nil_r. split; [reflexivity | simpl; lia]. Qed.

Lemma sends_log lvl msg : sends_at_most 0 (log lvl msg).
Proof. intros w. exists []. rewrite app_nil_r. split; [reflexivity | simpl; lia]. Qed.

Lemma sends_utcnow : sends_at_most 0 (datetime_utcnow utcnow : M world datetime).
Proof. intros w. exists []. rewrite app_nil_r. split; [reflexivity | simpl; lia]. Qed.

Lemma sends_weaken {A} n n' (m : M world A) :
  (n <= n')%nat -> sends_at_most n m -> sends_at_most n' m.
Proof. intros Hle H w. destruct (H w) as (l & Hl & Hn). exists l. split; [exact Hl | lia]. Qed.

(** The steps after [m] are bounded for what [m] can return. *)
Lemma sends_bind_post {A B} (P : A -> Prop) n k (m : M world A) (f : A -> M world B) :
  sends_at_most n m ->
  (forall w a w', m w = (inr a, w') -> P a) ->
  (forall a, P a -> sends_at_most k (f a)) ->
  sends_at_most (n + k) (bind m f).
Proof.
  intros Hm HP Hf w. unfold bind.
  destruct (Hm w) as (l & Hl & Hn).
  destruct (m w) as [[e | a] w1] eqn:E; simpl in Hl |- *.
  - exists l. split; [exact Hl | lia].
  - destruct (Hf a (HP _ _ _ E) w1) as (l' & Hl' & Hn').
    exists (l ++ l')%list. rewrite Hl', Hl, app_assoc, length_app.
    split; [reflexivity | lia].
Qed.

Lemma sends_bind {A B} n k (m : M world A) (f : A -> M world B) :
  sends_at_most n m -> (forall a, sends_at_most k (f a)) ->
  sends_at_most (n + k) (bind m f).
Proof.
  intros Hm Hf. apply (sends_bind_post (fun _ => True)); auto.
Qed.

Lemma sends_try_except {A} n k (m : M world A) (h : exn -> M world A) :
  sends_at_most n m -> (forall e, sends_at_most k (h e)) ->
  sends_at_most (n + k) (try_except m h).
Proof.
  intros Hm Hh w. unfold try_except.
  destruct (Hm w) as (l & Hl & Hn).
  destruct (m w) as [[e | a] w1]; simpl in Hl |- *.
  - destruct (Hh e w1) as (l' & Hl' & Hn').
    exists (l ++ l')%list. rewrite Hl', Hl, app_assoc, length_app.
    split; [reflexivity | lia].
  - exists l. split; [exact Hl | lia].
Qed.

Lemma sends_if {A} n k (b : bool) (m1 m2 : M world A) :
  sends_at_most n m1 -> sends_at_most k m2 ->
  sends_at_most (Nat.max n k) (if b then m1 else m2).
Proof.
  intros H1 H2. destruct b.
  - apply (sends_weaken n); [lia | exact H1].
  - apply (sends_weaken k); [lia | exact H2].
Qed.

Ltac sends :=
  repeat first
    [ match goal with H : context [sends_at_most] |- _ => eapply H end
    | apply sends_ret | apply sends_raise | apply sends_eval | apply sends_log
    | apply sends_utcnow
    | eapply sends_bind; [| intros ?]
    | eapply sends_try_except; [| intros ?]
    | match goal with
      | |- sends_at_most _ (if ?b then _ else _) => eapply sends_if
      | |- sends_at_most _ (match ?x with _ => _ end) => destruct x
      | |- sends_at_most _ (let _ := _ in _) => cbv zeta
      end ].

Lemma sends_make_request self m endpoint tok cid data :
  sends_at_most 1 (_make_request self m endpoint tok cid data).
Proof.
  intros w. exists [build_request self m endpoint tok cid data].
  split; [apply make_request_sends | simpl; lia].
Qed.

Lemma sends_resolve k self name tok cid :
  sends_at_most 2 (resolve k self name tok cid).
Proof.
  pose proof sends_make_request as Hmr.
  destruct k; simpl;
    [ unfold _get_or_create_customer
    | unfold _get_or_create_vendor
    | unfold _get_or_create_account ];
    (eapply sends_weaken; [| sends]); simpl; lia.
Qed.

Lemma sends_create_invoice self data tok cid :
  sends_at_most 3 (create_invoice self data tok cid).
Proof.
  pose proof sends_make_request as Hmr.
  pose proof (sends_resolve Customer) as Hr. simpl in Hr.
  unfold create_invoice.
  (eapply sends_weaken; [| sends]); simpl; lia.
Qed.

Lemma sends_resolve_lines self tok cid lines :
  sends_at_most (2 * length lines) (resolve_lines http py_repr self tok cid lines).
Proof.
  pose proof (sends_resolve Account) as Hr. simpl in Hr.
  induction lines as [| line rest IH]; simpl resolve_lines.
  - apply sends_ret.
  - unfold resolve_line_account.
    (eapply sends_weaken; [| sends]); simpl; lia.
Qed.

Lemma lines_of_setitem data k x data' :
  k <> "Line" -> py_setitem data k x = inr data' -> lines_of data' = lines_of data.
Proof.
  intros Hk H. destruct data; try discriminate. simpl in H. injection H as <-.
  unfold lines_of, py_get. rewrite dict_lookup_dict_set.
  destruct (String.eqb "Line" k) eqn:E; [| reflexivity].
  apply String.eqb_eq in E. congruence.
Qed.

Lemma sends_create_bill self data tok cid :
  sends_at_most (3 + 2 * lines_of data) (create_bill self data tok cid).
Proof.
  pose proof sends_make_request as Hmr.
  pose proof (sends_resolve Vendor) as Hv. simpl in Hv.
  unfold create_bill.
  eapply sends_weaken;
    [| eapply sends_try_except; [| intros e; sends] ].
  2: {
    eapply sends_bind; [sends | intros doc_number].
    eapply sends_bind; [sends | intros _].
    eapply sends_bind; [sends | intros vendor_ref].
    eapply sends_bind; [sends | intros vendor_name].
    eapply (sends_bind_post (fun d => lines_of d = lines_of data)).
    - sends.
    - intros w d w' H. destruct (py_truthy vendor_name).
      + peel H. unfold eval in H. injection H as H _.
        apply lines_of_setitem in H; [exact H | discriminate].
      + unfold ret in H. injection H as <- _. reflexivity.
    - intros d Hd.
      eapply (sends_bind_post (fun lv => py_get d "Line" (JList []) = inr lv)).
      + sends.
      + intros w lv w' H. unfold eval in H. injection H as H _. exact H.
      + intros lv Hlv.
        eapply (sends_bind_post (fun lines => length lines = lines_of data)).
        * sends.
        * intros w lines w' H. unfold eval in H. injection H as H _.
          rewrite <- Hd. unfold lines_of. rewrite Hlv, H. reflexivity.
        * intros lines Hl.
          eapply sends_bind;
            [ apply (sends_weaken (2 * length lines));
              [ rewrite Hl; apply Nat.le_refl | apply sends_resolve_lines ]
            | intros lines' ].
          sends. }
  simpl. lia.
Qed.

(** *** The requests of a batch *)

Lemma sends_on_doc {D A} n (d : D) (m : M (D * world) A) :
  (forall s, exists l, sent (snd (snd (m s))) = (sent (snd s) ++ l)%list
                       /\ (length l <= n)%nat) ->
  sends_at_most n (with_doc d m).
Proof.
  intros H w. unfold with_doc. destruct (H (d, w)) as (l & Hl & Hn).
  destruct (m (d, w)) as [[e | a] [d' w']]; simpl in Hl |- *; eauto.
Qed.

Lemma sends_invoice_turn self result tok cid i :
  sends_at_most 3 (with_doc i (invoice_turn self result tok cid)).
Proof.
  intros w.
  destruct (sends_create_invoice (qb_api self) (Invoice.to_quickbooks_json i) tok cid w)
    as (l & Hl & Hn).
  destruct (sync_invoice_cases self result tok cid i w)
    as (r & i1 & w1 & Hs & _ & Hsent & _).
  destruct (commit_invoice_cases i1 w1) as (res & i2 & w2 & Hc & Hsent2 & _).
  rewrite (invoice_doc_turn _ _ _ _ _ _ _ _ _ _ _ _ Hs Hc). cbn [snd].
  exists l. split; [congruence | exact Hn].
Qed.

Lemma sends_bill_turn self result tok cid b :
  sends_at_most 5 (with_doc b (bill_turn self result tok cid)).
Proof.
  intros w.
  destruct (sends_create_bill (qb_api self) (Bill.to_quickbooks_json b) tok cid w)
    as (l & Hl & Hn).
  change (lines_of (Bill.to_quickbooks_json b)) with 1%nat in Hn.
  destruct (sync_bill_cases self result tok cid b w)
    as (r & b1 & w1 & Hs & _ & Hsent & _).
  destruct (commit_bill_cases b1 w1) as (res & b2 & w2 & Hc & Hsent2 & _).
  rewrite (bill_doc_turn _ _ _ _ _ _ _ _ _ _ _ _ Hs Hc). cbn [snd].
  exists l. split; [congruence | simpl in Hn; lia].
Qed.

Lemma sends_for_each_invoice self tok cid invoices :
  forall result,
    sends_at_most (3 * length invoices) (for_each_invoice self tok cid invoices result).
Proof.
  induction invoices as [| i rest IH]; intros result.
  - apply sends_ret.
  - simpl for_each_invoice.
    apply (sends_weaken (3 + (3 * length rest + 0))); [simpl; lia |].
    apply sends_bind; [apply sends_invoice_turn | intros [r i']].
    apply sends_bind; [apply IH | intros [r' docs]]. apply sends_ret.
Qed.

Lemma sends_for_each_bill self tok cid bills :
  forall result,
    sends_at_most (5 * length bills) (for_each_bill self tok cid bills result).
Proof.
  induction bills as [| b rest IH]; intros result.
  - apply sends_ret.
  - simpl for_each_bill.
    apply (sends_weaken (5 + (5 * length rest + 0))); [simpl; lia |].
    apply sends_bind; [apply sends_bill_turn | intros [r b']].
    apply sends_bind; [apply IH | intros [r' docs]]. apply sends_ret.
Qed.

Lemma sends_upload_all self invoices bills tok cid :
  sends_at_most (3 * length invoices + 5 * length bills)
    (upload_all self invoices bills tok cid).
Proof.
  unfold upload_all, _upload_invoices, _upload_bills.
  apply (sends_weaken (0 + (3 * length invoices + (5 * length bills + (0 + 0)))));
    [lia |].
  apply sends_bind; [apply sends_utcnow | intros now]. cbv zeta.
  apply sends_bind.
  - destruct (nonempty invoices).
    + apply (sends_weaken (0 + 3 * length invoices)); [lia |].
      apply sends_bind; [apply sends_log | intros _]. apply sends_for_each_invoice.
    + apply (sends_weaken 0); [lia | apply sends_ret].
  - intros [ri di]. apply sends_bind.
    + destruct (nonempty bills).
      * apply (sends_weaken (0 + 5 * length bills)); [lia |].
        apply sends_bind; [apply sends_log | intros _]. apply sends_for_each_bill.
      * apply (sends_weaken 0); [lia | apply sends_ret].
    + intros [rb db]. apply sends_bind; [apply sends_log | intros _]. apply sends_ret.
Qed.

(** X8. Requests are bounded and never dropped: a call of
    [_make_request] sends one request, a resolver at most two,
    [create_invoice] at most three, [create_bill] at most three and two
    per line of the payload (a translated bill has one line), and a batch
    at most three per invoice and five per bill. *)
Theorem requests_are_bounded :
  (forall api m endpoint tok cid data,
     sends_at_most 1 (_make_request api m endpoint tok cid data))
  /\ (forall k api name tok cid, sends_at_most 2 (resolve k api name tok cid))
  /\ (forall api data tok cid, sends_at_most 3 (create_invoice api data tok cid))
  /\ (forall api data tok cid,
        sends_at_most (3 + 2 * lines_of data) (create_bill api data tok cid))
  /\ (forall b, lines_of (Bill.to_quickbooks_json b) = 1%nat)
  /\ (forall self invoices bills tok cid,
        sends_at_most (3 * length invoices + 5 * length bills)
          (upload_all self invoices bills tok cid)).
Proof.
  split; [exact sends_make_request |].
  split; [exact sends_resolve |].
  split; [exact sends_create_invoice |].
  split; [exact sends_create_bill |].
  split; [reflexivity |].
  exact sends_upload_all.
Qed.

(** X9. A batch commits once per document: when [upload_all] returns,
    having started with a session that was not waiting for a rollback, the
    session is usable and the commits still to come are those that were,
    less one per invoice and one per bill. However the loops end, the loop
    over the invoices writes no bill row and the loop over the bills no
    invoice row. A batch none of whose commits fails in its flush
    returns. *)
Theorem batch_commits_once_per_document :
  (forall self invoices bills tok cid (w w' : world) rep docs,
     session w = Active ->
     upload_all self invoices bills tok cid w = (inr (rep, docs), w') ->
     session w' = Active
     /\ db_faults w' = drop (length invoices + length bills) (db_faults w))
  /\ (forall self invoices tok cid (w : world),
        bill_rows (snd (_upload_invoices self invoices tok cid w)) = bill_rows w)
  /\ (forall self bills tok cid (w : world),
        invoice_rows (snd (_upload_bills self bills tok cid w)) = invoice_rows w)
  /\ (forall self invoices bills tok cid (w : world),
        no_flush_fails w ->
        exists rep docs w',
          upload_all self invoices bills tok cid w = (inr (rep, docs), w')).
Proof.
  split; [| split; [| split]].
  - intros self invoices bills tok cid w w' rep docs Ha H.
    apply upload_all_report in H. destruct H as (_ & _ & _ & _ & Hrun).
    destruct (Hrun Ha) as (Hs & Hf & _). split; assumption.
  - intros self invoices tok cid w. unfold _upload_invoices.
    apply for_each_invoice_rows.
  - intros self bills tok cid w. unfold _upload_bills.
    apply for_each_bill_rows.
  - intros self invoices bills tok cid w Hno.
    destruct (upload_all_runs self invoices bills tok cid w Hno)
      as (rep & docs & w' & H & _). eauto.
Qed.

(** X10. The details of a report that [upload_all] returns follow the
    input: the details of the invoices carry the ids of the invoices, in
    the order of the list, and likewise for the bills; [successful] is the
    number of details whose status is ['success'] and [failed] the number
    of those whose status is ['failed']; the records handed back are as
    many as the documents. A batch none of whose commits fails in its
    flush returns its report. *)
Theorem report_details_follow_the_input self invoices bills tok cid (w : world) :
  (forall rep di db w',
     upload_all self invoices bills tok cid w = (inr (rep, (di, db)), w') ->
     map detail_id (details (report_invoices rep))
     = map (fun i => inr (JInt (Invoice.id i))) invoices
     /\ map detail_id (details (report_bills rep))
        = map (fun b => inr (JInt (Bill.id b))) bills
     /\ successful (report_invoices rep)
        = length (List.filter (is_status "success") (details (report_invoices rep)))
     /\ failed (report_invoices rep)
        = length (List.filter (is_status "failed") (details (report_invoices rep)))
     /\ successful (report_bills rep)
        = length (List.filter (is_status "success") (details (report_bills rep)))
     /\ failed (report_bills rep)
        = length (List.filter (is_status "failed") (details (report_bills rep)))
     /\ length di = length invoices /\ length db = length bills)
  /\ (no_flush_fails w ->
      exists rep docs w', upload_all self invoices bills tok cid w = (inr (rep, docs), w')).
Proof.
  split.
  - intros rep di db w' H. apply upload_all_report in H.
    destruct H as (_ & (_ & Di & Oi & Ki & _ & Li) & (_ & Db & Ob & Kb & _ & Lb) & _).
    simpl in Li, Lb. repeat split; assumption.
  - intros Hno. destruct (upload_all_runs self invoices bills tok cid w Hno)
      as (rep & docs & w' & H & _). eauto.
Qed.

(** *** The rows a batch leaves *)

Lemma upload_all_persisted self invoices bills tok cid (w : world) :
  no_commit_fails w ->
  exists rep di db w',
    upload_all self invoices bills tok cid w = (inr (rep, (di, db)), w')
    /\ map invoice_business di = map invoice_business invoices
    /\ map bill_business db = map bill_business bills
    /\ (forall k, k ∉ map Invoice.id invoices ->
                  invoice_rows w' !! k = invoice_rows w !! k)
    /\ (forall k, k ∉ map Bill.id bills -> bill_rows w' !! k = bill_rows w !! k)
    /\ (NoDup (map Invoice.id invoices) ->
        Forall (fun i => invoice_rows w' !! Invoice.id i = Some i) di)
    /\ (NoDup (map Bill.id bills) ->
        Forall (fun b => bill_rows w' !! Bill.id b = Some b) db).
Proof.
  intros Hno.
  destruct (guarded_invoices_persisted self invoices tok cid (clock_read w))
    as (ri & di & u & Hi & Hnou & Hbu & Hbus1 & Hout1 & Hgood1);
    [apply (no_commit_fails_same_db w); [reflexivity | exact Hno] |].
  destruct (guarded_bills_persisted self bills tok cid u Hnou)
    as (rb & db & x & Hb & _ & Hix & Hbus2 & Hout2 & Hgood2).
  rewrite (upload_all_from_parts _ _ _ _ _ _ _ _ _ _ _ _ Hi Hb).
  do 4 eexists. split; [reflexivity |]. simpl in *.
  split; [exact Hbus1 |]. split; [exact Hbus2 |].
  split; [intros k Hk; rewrite Hix; apply Hout1, Hk |].
  split; [intros k Hk; rewrite (Hout2 k Hk), Hbu; reflexivity |].
  split; [intros Hnd; rewrite Hix; exact (Hgood1 Hnd) | exact Hgood2].
Qed.

(** X11. When no commit raises and the documents of a batch have
    distinct ids, every record handed back is what its row holds after
    the batch, its business fields are those it came with, and the rows
    of other documents are as they were. *)
Theorem committed_batch_is_persisted self invoices bills tok cid (w : world) :
  no_commit_fails w ->
  NoDup (map Invoice.id invoices) ->
  NoDup (map Bill.id bills) ->
  exists rep di db w',
    upload_all self invoices bills tok cid w = (inr (rep, (di, db)), w')
    /\ map invoice_business di = map invoice_business invoices
    /\ map bill_business db = map bill_business bills
    /\ Forall (fun i => invoice_rows w' !! Invoice.id i = Some i) di
    /\ Forall (fun b => bill_rows w' !! Bill.id b = Some b) db
    /\ (forall k, k ∉ map Invoice.id invoices ->
                  invoice_rows w' !! k = invoice_rows w !! k)
    /\ (forall k, k ∉ map Bill.id bills -> bill_rows w' !! k = bill_rows w !! k).
Proof.
  intros Hnone Hndi Hndb.
  destruct (upload_all_persisted self invoices bills tok cid w Hnone)
    as (rep & di & db & w' & H & B1 & B2 & O1 & O2 & G1 & G2).
  exists rep, di, db, w'. split; [exact H |].
  split; [exact B1 |]. split; [exact B2 |].
  split; [exact (G1 Hndi) |]. split; [exact (G2 Hndb) |]. split; assumption.
Qed.

Lemma filter_all {A} (l : list A) : List.filter (fun _ => true) l = l.
Proof. induction l; simpl; congruence. Qed.

Lemma count_all_grows {A} (m m' : gmap Z A) :
  (forall k, is_Some (m !! k) -> is_Some (m' !! k)) ->
  count_rows (fun _ => true) m <= count_rows (fun _ => true) m'.
Proof.
  intros H. unfold count_rows. rewrite !filter_all, !length_map_to_list.
  apply inj_le. apply (dom_subseteq_size (D := gset Z)).
  intros k. rewrite !elem_of_dom. apply H.
Qed.

Lemma count_all_same_keys {A} (m m' : gmap Z A) :
  (forall k, is_Some (m' !! k) <-> is_Some (m !! k)) ->
  count_rows (fun _ => true) m' = count_rows (fun _ => true) m.
Proof.
  intros H. apply Z.le_antisymm; apply count_all_grows; intros k; apply H.
Qed.

(** The keys of the rows over a batch, however it ends. *)
Lemma upload_all_keys self invoices bills tok cid (w : world) :
  (forall k, is_Some (invoice_rows w !! k) ->
             is_Some (invoice_rows (snd (upload_all self invoices bills tok cid w)) !! k))
  /\ (forall k, is_Some (bill_rows w !! k) ->
                is_Some (bill_rows (snd (upload_all self invoices bills tok cid w)) !! k))
  /\ (forall k, is_Some (invoice_rows (snd (upload_all self invoices bills tok cid w)) !! k) ->
                is_Some (invoice_rows w !! k) \/ k ∈ map Invoice.id invoices)
  /\ (forall k, is_Some (bill_rows (snd (upload_all self invoices bills tok cid w)) !! k) ->
                is_Some (bill_rows w !! k) \/ k ∈ map Bill.id bills).
Proof.
  apply (upload_all_invariant
           (fun u =>
              (forall k, is_Some (invoice_rows w !! k) -> is_Some (invoice_rows u !! k))
              /\ (forall k, is_Some (bill_rows w !! k) -> is_Some (bill_rows u !! k))
              /\ (forall k, is_Some (invoice_rows u !! k) ->
                            is_Some (invoice_rows w !! k) \/ k ∈ map Invoice.id invoices)
              /\ (forall k, is_Some (bill_rows u !! k) ->
                            is_Some (bill_rows w !! k) \/ k ∈ map Bill.id bills))).
  - intros u H. exact H.
  - intros lvl msg u H. exact H.
  - intros i result u Hin (K1 & K2 & D1 & D2).
    destruct (invoice_turn_final self result tok cid i u) as [Hother Hown].
    rewrite Hother. destruct Hown as [-> | (i1 & _ & ->)]; [auto |].
    split; [| split; [exact K2 | split; [| exact D2]]].
    + intros k Hk. rewrite lookup_insert. case_decide; [eauto | apply K1, Hk].
    + intros k. rewrite lookup_insert. case_decide as Hkey; [| apply D1].
      intros _. right. rewrite <- Hkey. apply list_elem_of_fmap. eauto.
  - intros b result u Hin (K1 & K2 & D1 & D2).
    destruct (bill_turn_final self result tok cid b u) as [Hother Hown].
    rewrite Hother. destruct Hown as [-> | (b1 & _ & ->)]; [auto |].
    split; [exact K1 | split; [| split; [exact D1 |]]].
    + intros k Hk. rewrite lookup_insert. case_decide; [eauto | apply K2, Hk].
    + intros k. rewrite lookup_insert. case_decide as Hkey; [| apply D2].
      intros _. right. rewrite <- Hkey. apply list_elem_of_fmap. eauto.
  - auto.
Qed.

(** X12. A batch deletes no row, and adds none when its documents have
    their rows: the totals of [get_upload_statistics] do not decrease over
    [upload_all], and are unchanged for a batch of persisted documents. *)
Theorem batch_keeps_the_totals self invoices bills tok cid (w : world) :
  (count_total (stat_invoices (get_upload_statistics w))
   <= count_total (stat_invoices
                     (get_upload_statistics (snd (upload_all self invoices bills tok cid w))))
   /\ count_total (stat_bills (get_upload_statistics w))
      <= count_total (stat_bills
                        (get_upload_statistics
                           (snd (upload_all self invoices bills tok cid w)))))
  /\ (Forall (fun i => is_Some (invoice_rows w !! Invoice.id i)) invoices ->
      Forall (fun b => is_Some (bill_rows w !! Bill.id b)) bills ->
      count_total (stat_invoices
                     (get_upload_statistics (snd (upload_all self invoices bills tok cid w))))
      = count_total (stat_invoices (get_upload_statistics w))
      /\ count_total (stat_bills
                        (get_upload_statistics
                           (snd (upload_all self invoices bills tok cid w))))
         = count_total (stat_bills (get_upload_statistics w))
      /\ count_total (stat_overall
                        (get_upload_statistics
                           (snd (upload_all self invoices bills tok cid w))))
         = count_total (stat_overall (get_upload_statistics w))).
Proof.
  destruct (upload_all_keys self invoices bills tok cid w) as (K1 & K2 & D1 & D2).
  unfold get_upload_statistics. simpl.
  split; [split |].
  - apply count_all_grows. exact K1.
  - apply count_all_grows. exact K2.
  - intros Hpi Hpb.
    assert (H1 : count_rows (fun _ => true)
                   (invoice_rows (snd (upload_all self invoices bills tok cid w)))
                 = count_rows (fun _ => true) (invoice_rows w)).
    { apply count_all_same_keys. intros k. split; [| apply K1].
      intros Hk. destruct (D1 k Hk) as [Hs | Hin]; [exact Hs |].
      apply list_elem_of_fmap in Hin as (i & -> & Hin).
      rewrite Forall_forall in Hpi. apply Hpi. exact Hin. }
    assert (H2 : count_rows (fun _ => true)
                   (bill_rows (snd (upload_all self invoices bills tok cid w)))
                 = count_rows (fun _ => true) (bill_rows w)).
    { apply count_all_same_keys. intros k. split; [| apply K2].
      intros Hk. destruct (D2 k Hk) as [Hs | Hin]; [exact Hs |].
      apply list_elem_of_fmap in Hin as (b & -> & Hin).
      rewrite Forall_forall in Hpb. apply Hpb. exact Hin. }
    rewrite H1, H2. repeat split.
Qed.

(** *** Single uploads, case by case *)

(** X13. An attempt writes the three integration fields and nothing
    else: after [sync_invoice], [upload_single_invoice] and their
    counterparts for bills, the business fields of the record are those it
    had, so that translating it again gives the payload of this attempt. *)
Theorem attempts_leave_the_payload_alone :
  (forall self result tok cid i (w : world),
     invoice_business (fst (snd (sync_invoice self result tok cid (i, w))))
     = invoice_business i)
  /\ (forall self tok cid i (w : world),
        invoice_business (fst (snd (upload_single_invoice self tok cid (i, w))))
        = invoice_business i)
  /\ (forall self result tok cid b (w : world),
        bill_business (fst (snd (sync_bill self result tok cid (b, w))))
        = bill_business b)
  /\ (forall self tok cid b (w : world),
        bill_business (fst (snd (upload_single_bill self tok cid (b, w))))
        = bill_business b)
  /\ (forall i i', invoice_business i' = invoice_business i ->
                   Invoice.to_quickbooks_json i' = Invoice.to_quickbooks_json i)
  /\ (forall b b', bill_business b' = bill_business b ->
                   Bill.to_quickbooks_json b' = Bill.to_quickbooks_json b).
Proof.
  split; [| split; [| split; [| split; [| split]]]].
  - intros self result tok cid i w.
    destruct (sync_invoice_cases self result tok cid i w)
      as (r & i1 & w1 & Hs & _ & _ & Hbus & _).
    rewrite Hs. exact Hbus.
  - intros self tok cid i w.
    destruct (upload_single_invoice self tok cid (i, w)) as [r [i' w']] eqn:Hu.
    apply upload_single_invoice_outcome in Hu. destruct Hu as (_ & _ & Hu). simpl.
    destruct (create_invoice (qb_api self) (Invoice.to_quickbooks_json i) tok cid w)
      as [[e | created] w1].
    + destruct Hu as [-> _]. reflexivity.
    + destruct Hu as (fields & _ & Hu). cbv zeta in Hu.
      destruct (commit_raises_next w1).
      * destruct Hu as (msg & x & -> & _). reflexivity.
      * destruct Hu as (-> & _). reflexivity.
  - intros self result tok cid b w.
    destruct (sync_bill_cases self result tok cid b w)
      as (r & b1 & w1 & Hs & _ & _ & Hbus & _).
    rewrite Hs. exact Hbus.
  - intros self tok cid b w.
    destruct (upload_single_bill self tok cid (b, w)) as [r [b' w']] eqn:Hu.
    apply upload_single_bill_outcome in Hu. destruct Hu as (_ & _ & Hu). simpl.
    destruct (create_bill (qb_api self) (Bill.to_quickbooks_json b) tok cid w)
      as [[e | created] w1].
    + destruct Hu as [-> _]. reflexivity.
    + destruct Hu as (fields & _ & Hu). cbv zeta in Hu.
      destruct (commit_raises_next w1).
      * destruct Hu as (msg & x & -> & _). reflexivity.
      * destruct Hu as (-> & _). reflexivity.
  - intros i i' H. destruct i, i'. unfold invoice_business in H. simpl in H.
    injection H. intros. subst. reflexivity.
  - intros b b' H. destruct b, b'. unfold bill_business in H. simpl in H.
    injection H. intros. subst. reflexivity.
Qed.

(** X14. A single upload whose creation call fails depends on its
    commit: when the commit returns, the call returns the ['failed'] dict
    and the row holds the record with its error; when the commit raises,
    in its flush or at the COMMIT, the exception of the commit leaves
    [upload_single_invoice], no row is written and the session waits for
    its rollback, with the error the handler wrote still on the record
    (which, after a failure in the flush, is expired with the rest of the
    session); when the session was waiting already, its refusal leaves
    the call. The same holds for bills. *)
Theorem failed_single_upload_depends_on_its_commit :
  (forall self tok cid i (w u : world) e,
     create_invoice (qb_api self) (Invoice.to_quickbooks_json i) tok cid w = (inl e, u) ->
     (commit_raises_next u = false ->
      exists w',
        upload_single_invoice self tok cid (i, w)
        = (inr (single_failure (exn_str e)),
           (Invoice.set_upload_error (Some (exn_str e)) i, w'))
        /\ invoice_rows w' !! Invoice.id i
           = Some (Invoice.set_upload_error (Some (exn_str e)) i))
     /\ (forall msg expired,
           session u = Active ->
           outcome (next_commit u)
           = (if expired : bool then FlushRaises msg else CommitRaises msg) ->
           upload_single_invoice self tok cid (i, w)
           = (inl (Raise Exception msg),
              (Invoice.set_upload_error (Some (exn_str e)) i,
               set_session (AwaitsRollback expired msg) (flushed u)))
           /\ invoice_rows (set_session (AwaitsRollback expired msg) (flushed u))
              = invoice_rows w)
     /\ (forall expired cause,
           session u = AwaitsRollback expired cause ->
           upload_single_invoice self tok cid (i, w)
           = (inl (pending_rollback expired cause),
              (Invoice.set_upload_error (Some (exn_str e)) i, u))
           /\ invoice_rows u = invoice_rows w))
  /\ (forall self tok cid b (w u : world) e,
        create_bill (qb_api self) (Bill.to_quickbooks_json b) tok cid w = (inl e, u) ->
        (commit_raises_next u = false ->
         exists w',
           upload_single_bill self tok cid (b, w)
           = (inr (single_failure (exn_str e)),
              (Bill.set_upload_error (Some (exn_str e)) b, w'))
           /\ bill_rows w' !! Bill.id b
              = Some (Bill.set_upload_error (Some (exn_str e)) b))
        /\ (forall msg expired,
              session u = Active ->
              outcome (next_commit u)
              = (if expired : bool then FlushRaises msg else CommitRaises msg) ->
              upload_single_bill self tok cid (b, w)
              = (inl (Raise Exception msg),
                 (Bill.set_upload_error (Some (exn_str e)) b,
                  set_session (AwaitsRollback expired msg) (flushed u)))
              /\ bill_rows (set_session (AwaitsRollback expired msg) (flushed u))
                 = bill_rows w)
        /\ (forall expired cause,
              session u = AwaitsRollback expired cause ->
              upload_single_bill self tok cid (b, w)
              = (inl (pending_rollback expired cause),
                 (Bill.set_upload_error (Some (exn_str e)) b, u))
              /\ bill_rows u = bill_rows w)).
Proof.
  split.
  - intros self tok cid i w u e Hc.
    pose proof (upload_single_invoice_failed _ _ _ _ _ _ _ Hc) as Hu. cbv zeta in Hu.
    destruct (keeps_create_invoice (qb_api self) (Invoice.to_quickbooks_json i) tok cid w)
      as [Hdb _].
    rewrite Hc in Hdb. simpl in Hdb. unfold db_of in Hdb. injection Hdb as _ _ Hrows _.
    split; [| split].
    + intros Hno. unfold commit_raises_next in Hno.
      destruct (session u); [| discriminate].
      destruct (outcome (next_commit u)); [| discriminate | discriminate].
      eexists. split; [exact Hu |]. simpl. apply lookup_insert_eq.
    + intros msg expired Hs Ho. rewrite Hs, Ho in Hu.
      destruct expired; (split; [exact Hu | exact Hrows]).
    + intros expired cause Hs. rewrite Hs in Hu. split; [exact Hu | exact Hrows].
  - intros self tok cid b w u e Hc.
    pose proof (upload_single_bill_failed _ _ _ _ _ _ _ Hc) as Hu. cbv zeta in Hu.
    destruct (keeps_create_bill (qb_api self) (Bill.to_quickbooks_json b) tok cid w)
      as [Hdb _].
    rewrite Hc in Hdb. simpl in Hdb. unfold db_of in Hdb. injection Hdb as _ _ _ Hrows.
    split; [| split].
    + intros Hno. unfold commit_raises_next in Hno.
      destruct (session u); [| discriminate].
      destruct (outcome (next_commit u)); [| discriminate | discriminate].
      eexists. split; [exact Hu |]. simpl. apply lookup_insert_eq.
    + intros msg expired Hs Ho. rewrite Hs, Ho in Hu.
      destruct expired; (split; [exact Hu | exact Hrows]).
    + intros expired cause Hs. rewrite Hs in Hu. split; [exact Hu | exact Hrows].
Qed.

(** X15. When no commit raises, a single upload and a turn of the batch
    do the same to a document: they leave the same record, the same rows,
    the same requests behind them, and the dict the single upload returns
    says what the detail of the turn says. *)
Theorem single_upload_agrees_with_a_batch_turn :
  (forall self result tok cid i (w : world),
     no_commit_fails w ->
     exists out r i' w1 w2,
       upload_single_invoice self tok cid (i, w) = (inr out, (i', w1))
       /\ invoice_turn self result tok cid (i, w) = (inr r, (i', w2))
       /\ db_of w1 = db_of w2 /\ same_platform w1 w2
       /\ ((out = single_success (Invoice.quickbooks_id i')
            /\ r = record_success (invoice_success_detail i') result)
           \/ (exists msg,
                 out = single_failure msg
                 /\ r = record_failure (invoice_failure_detail i' msg) result)))
  /\ (forall self result tok cid b (w : world),
        no_commit_fails w ->
        exists out r b' w1 w2,
          upload_single_bill self tok cid (b, w) = (inr out, (b', w1))
          /\ bill_turn self result tok cid (b, w) = (inr r, (b', w2))
          /\ db_of w1 = db_of w2 /\ same_platform w1 w2
          /\ ((out = single_success (Bill.quickbooks_id b')
               /\ r = record_success (bill_success_detail b') result)
              \/ (exists msg,
                    out = single_failure msg
                    /\ r = record_failure (bill_failure_detail b' msg) result))).
Proof.
  split.
  - intros self result tok cid i w Hnone.
    destruct (keeps_create_invoice (qb_api self) (Invoice.to_quickbooks_json i) tok cid w)
      as [Hdb _].
    destruct (create_invoice (qb_api self) (Invoice.to_quickbooks_json i) tok cid w)
      as [[e | created] u] eqn:Hc; simpl in Hdb;
      pose proof (no_commit_fails_same_db w u Hdb Hnone) as Hnone';
      destruct (no_commit_fails_next u Hnone') as [Hno _].
    + pose proof (upload_single_invoice_failed _ _ _ _ _ _ _ Hc) as Hu. cbv zeta in Hu.
      pose proof (sync_invoice_failed self result _ _ _ _ _ _ Hc) as Hs.
      assert (Hu' : upload_single_invoice self tok cid (i, w)
                    = (inr (single_failure (exn_str e)),
                       (Invoice.set_upload_error (Some (exn_str e)) i,
                        store_invoice (Invoice.set_upload_error (Some (exn_str e)) i)
                          (flushed u)))).
      { rewrite Hu. unfold commit_raises_next in Hno.
        destruct (session u); [| discriminate].
        destruct (outcome (next_commit u)); [reflexivity | discriminate | discriminate]. }
      do 5 eexists. split; [exact Hu' |].
      split; [eapply invoice_turn_returns; [exact Hs |];
              apply commit_invoice_stored; exact Hno |].
      split; [reflexivity |]. split; [repeat split |].
      right. exists (exn_str e). split; reflexivity.
    + destruct (create_invoice_returns_dict _ _ _ _ _ _ _ Hc) as [fields ->].
      pose proof (upload_single_invoice_uploaded _ _ _ _ _ _ _ Hc Hno) as Hu.
      pose proof (sync_invoice_uploaded self result _ _ _ _ _ _ Hc) as Hs.
      do 5 eexists. split; [exact Hu |].
      split; [eapply invoice_turn_returns; [exact Hs |];
              apply commit_invoice_stored; exact Hno |].
      split; [reflexivity |]. split; [repeat split |].
      left. split; reflexivity.
  - intros self result tok cid b w Hnone.
    destruct (keeps_create_bill (qb_api self) (Bill.to_quickbooks_json b) tok cid w)
      as [Hdb _].
    destruct (create_bill (qb_api self) (Bill.to_quickbooks_json b) tok cid w)
      as [[e | created] u] eqn:Hc; simpl in Hdb;
      pose proof (no_commit_fails_same_db w u Hdb Hnone) as Hnone';
      destruct (no_commit_fails_next u Hnone') as [Hno _].
    + pose proof (upload_single_bill_failed _ _ _ _ _ _ _ Hc) as Hu. cbv zeta in Hu.
      pose proof (sync_bill_failed self result _ _ _ _ _ _ Hc) as Hs.
      assert (Hu' : upload_single_bill self tok cid (b, w)
                    = (inr (single_failure (exn_str e)),
                       (Bill.set_upload_error (Some (exn_str e)) b,
                        store_bill (Bill.set_upload_error (Some (exn_str e)) b)
                          (flushed u)))).
      { rewrite Hu. unfold commit_raises_next in Hno.
        destruct (session u); [| discriminate].
        destruct (outcome (next_commit u)); [reflexivity | discriminate | discriminate]. }
      do 5 eexists. split; [exact Hu' |].
      split; [eapply bill_turn_returns; [exact Hs |];
              apply commit_bill_stored; exact Hno |].
      split; [reflexivity |]. split; [repeat split |].
      right. exists (exn_str e). split; reflexivity.
    + destruct (create_bill_returns_dict _ _ _ _ _ _ _ Hc) as [fields ->].
      pose proof (upload_single_bill_uploaded _ _ _ _ _ _ _ Hc Hno) as Hu.
      pose proof (sync_bill_uploaded self result _ _ _ _ _ _ Hc) as Hs.
      do 5 eexists. split; [exact Hu |].
      split; [eapply bill_turn_returns; [exact Hs |];
              apply commit_bill_stored; exact Hno |].
      split; [reflexivity |]. split; [repeat split |].
      left. split; reflexivity.
Qed.

Lemma bind_step {S A B} (m : M S A) (k : A -> M S B) s a s1 :
  m s = (inr a, s1) -> bind m k s = k a s1.
Proof. unfold bind. intros ->. reflexivity. Qed.

Ltac step_bind :=
  erewrite bind_step by (unfold eval, log, ret; simpl; reflexivity); cbv beta iota.

(** The one line of a translated bill, its account resolved. *)
Lemma translated_line_resolved api b tok cid (w1 w2 : world) account account_id :
  _get_or_create_account http py_repr api (JStr (Bill.expense_account b)) tok cid w1
  = (inr account, w2) ->
  py_getitem account "Id" = inr account_id ->
  resolve_lines http py_repr api tok cid
    [ JObj [ ("Amount", JFloat (Bill.amount b));
             ("DetailType", JStr "AccountBasedExpenseLineDetail");
             ("AccountBasedExpenseLineDetail",
              JObj [ ("AccountRef", JObj [ ("name", JStr (Bill.expense_account b)) ]) ]);
             ("Description", JStr (Bill.line_description b)) ] ] w1
  = (inr [ JObj [ ("Amount", JFloat (Bill.amount b));
                  ("DetailType", JStr "AccountBasedExpenseLineDetail");
                  ("AccountBasedExpenseLineDetail",
                   JObj [ ("AccountRef", JObj [ ("value", account_id) ]) ]);
                  ("Description", JStr (Bill.line_description b)) ] ], w2).
Proof.
  intros Ha Hid.
  cbn [resolve_lines].
  erewrite bind_step; [step_bind; reflexivity |].
  unfold resolve_line_account.
  do 4 step_bind.
  erewrite bind_step by exact Ha.
  erewrite bind_step by (unfold eval; rewrite Hid; reflexivity).
  step_bind. reflexivity.
Qed.

(** X16. A bill is posted under what the resolvers returned: with a
    vendor name, the vendor is resolved, then the account of the line, and
    the one request after them is the POST of the translator's payload
    with [VendorRef] and the line's [AccountRef] replaced by the two ids
    by value. Without a vendor name no vendor is resolved, yet the account
    is, whatever its name. *)
Theorem bill_is_posted_under_the_resolved_references api b tok cid (w w1 w2 : world)
    account account_id :
  resolve Account api (JStr (Bill.expense_account b)) tok cid w1 = (inr account, w2) ->
  py_getitem account "Id" = inr account_id ->
  let line :=
    JObj [ ("Amount", JFloat (Bill.amount b));
           ("DetailType", JStr "AccountBasedExpenseLineDetail");
           ("AccountBasedExpenseLineDetail",
            JObj [ ("AccountRef", JObj [ ("value", account_id) ]) ]);
           ("Description", JStr (Bill.line_description b)) ] in
  (forall vendor vendor_id,
     Bill.vendor_name b <> "" ->
     resolve Vendor api (JStr (Bill.vendor_name b)) tok cid
       (logged_line INFO ("Creating bill: " +:+ Bill.bill_number b) w)
     = (inr vendor, w1) ->
     py_getitem vendor "Id" = inr vendor_id ->
     exists payload,
       sent (snd (create_bill api (Bill.to_quickbooks_json b) tok cid w))
       = (sent w2 ++ [build_request api POST "bill" tok cid payload])%list
       /\ py_getitem payload "VendorRef" = inr (JObj [ ("value", vendor_id) ])
       /\ py_getitem payload "Line" = inr (JList [line])
       /\ (forall k, k <> "VendorRef" -> k <> "Line" ->
                     py_getitem payload k = py_getitem (Bill.to_quickbooks_json b) k))
  /\ (Bill.vendor_name b = "" ->
      w1 = logged_line INFO ("Creating bill: " +:+ Bill.bill_number b) w ->
      exists payload,
        sent (snd (create_bill api (Bill.to_quickbooks_json b) tok cid w))
        = (sent w2 ++ [build_request api POST "bill" tok cid payload])%list
        /\ py_getitem payload "VendorRef" = inr (JObj [ ("name", JStr "") ])
        /\ py_getitem payload "Line" = inr (JList [line])
        /\ (forall k, k <> "Line" ->
                      py_getitem payload k = py_getitem (Bill.to_quickbooks_json b) k)).
Proof.
  intros Ha Haid line. simpl in Ha.
  pose proof (translated_line_resolved api b tok cid w1 w2 account account_id Ha Haid)
    as Hlines.
  assert (Htail : forall (u : world) payload,
            sent (snd (try_except
                         (let* response := _make_request api POST "bill" tok cid payload in
                          let* created_bill := eval (created_object "Bill" response) in
                          let* created_id := eval (py_get created_bill "Id" JNull) in
                          do log INFO ("Successfully created bill with ID: "
                                       +:+ py_str py_repr created_id) then
                          ret created_bill)
                         (fun e =>
                            do log ERROR ("Failed to create bill: " +:+ exn_str e) then
                            raise (Raise Exception
                                     ("Bill creation failed: " +:+ exn_str e))) u))
            = (sent u ++ [build_request api POST "bill" tok cid payload])%list).
  { intros u payload. rewrite post_then_read_sends.
    - reflexivity.
    - intros v x. unfold bind, eval, log, ret.
      destruct (py_get v "Id" JNull); reflexivity.
    - intros e x. reflexivity. }
  split.
  - intros vendor vendor_id Hname Hv Hvid. simpl in Hv.
    apply String.eqb_neq in Hname.
    eexists. split; [| split; [| split]].
    + unfold create_bill, Bill.to_quickbooks_json.
      do 4 step_try.
      simpl py_truthy. rewrite Hname. simpl negb. cbv iota.
      erewrite try_except_bind_returns
        by (unfold bind, eval; rewrite Hv, Hvid; reflexivity).
      do 2 step_try.
      erewrite try_except_bind_returns by exact Hlines.
      cbv zeta. apply Htail.
    + reflexivity.
    + reflexivity.
    + intros k Hk1 Hk2. apply String.eqb_neq in Hk1, Hk2.
      unfold with_lines, py_getitem, Bill.to_quickbooks_json. simpl.
      rewrite Hk2, Hk1. reflexivity.
  - intros Hname ->.
    eexists. split; [| split; [| split]].
    + unfold create_bill, Bill.to_quickbooks_json.
      rewrite Hname.
      do 7 step_try.
      erewrite try_except_bind_returns by exact Hlines.
      cbv zeta. apply Htail.
    + reflexivity.
    + reflexivity.
    + intros k Hk. apply String.eqb_neq in Hk.
      unfold with_lines, py_getitem, Bill.to_quickbooks_json. simpl.
      rewrite Hk. rewrite Hname. reflexivity.
Qed.

Lemma count_rows_range {A} (p : A -> bool) (rows : gmap Z A) :
  0 <= count_rows p rows <= count_rows (fun _ => true) rows.
Proof.
  split; [unfold count_rows; lia |].
  apply count_rows_le. reflexivity.
Qed.

(** X17. The statistics are sound as numbers whatever the rows hold: for
    the invoices, the bills and overall, uploaded, pending and failed lie
    between zero and the total, and uploaded and pending add up to the
    total. *)
Theorem statistics_stay_within_the_totals (w : world) :
  counts_in_range (stat_invoices (get_upload_statistics w))
  /\ counts_in_range (stat_bills (get_upload_statistics w))
  /\ counts_in_range (stat_overall (get_upload_statistics w)).
Proof.
  unfold counts_in_range, get_upload_statistics; simpl.
  pose proof (count_rows_range (fun i => is_not_none (Invoice.quickbooks_id i))
                (invoice_rows w)).
  pose proof (count_rows_range (fun i => is_some (Invoice.upload_error i))
                (invoice_rows w)).
  pose proof (count_rows_range (fun b => is_not_none (Bill.quickbooks_id b))
                (bill_rows w)).
  pose proof (count_rows_range (fun b => is_some (Bill.upload_error b))
                (bill_rows w)).
  lia.
Qed.

(** *** The connection probes *)

(** X18. [get_company_info] sends one GET and returns the first entry
    under [QueryResponse]/[CompanyInfo]; a reply without that envelope, or
    without the entry in it, gives the empty dict and no error; an empty
    list of entries raises, and whatever it raises is a plain [Exception]
    with the prefix of the function. *)
Theorem company_info_is_the_first_entry api tok cid (w : world) :
  sent (snd (get_company_info http api tok cid w))
  = (sent w ++ [build_request api GET ("companyinfo/" +:+ cid) tok cid JNull])%list
  /\ (forall reply w1,
        _make_request api GET ("companyinfo/" +:+ cid) tok cid JNull w
        = (inr (JObj reply), w1) ->
        (forall q first rest,
           dict_lookup "QueryResponse" reply = Some (JObj q) ->
           dict_lookup "CompanyInfo" q = Some (JList (first :: rest)) ->
           get_company_info http api tok cid w = (inr first, w1))
        /\ (dict_lookup "QueryResponse" reply = None ->
            get_company_info http api tok cid w = (inr (JObj []), w1))
        /\ (forall q,
              dict_lookup "QueryResponse" reply = Some (JObj q) ->
              dict_lookup "CompanyInfo" q = None ->
              get_company_info http api tok cid w = (inr (JObj []), w1))
        /\ (forall q,
              dict_lookup "QueryResponse" reply = Some (JObj q) ->
              dict_lookup "CompanyInfo" q = Some (JList []) ->
              fst (get_company_info http api tok cid w)
              = inl (Raise Exception
                       "Company info retrieval failed: list index out of range")))
  /\ (forall e w',
        get_company_info http api tok cid w = (inl e, w') ->
        exists cause,
          e = Raise Exception ("Company info retrieval failed: " +:+ exn_str cause)).
Proof.
  split; [| split].
  - pose proof (make_request_sends api GET ("companyinfo/" +:+ cid) tok cid JNull w) as Hs.
    unfold get_company_info, try_except, bind, eval, log, raise.
    destruct (_make_request api GET ("companyinfo/" +:+ cid) tok cid JNull w)
      as [[e | response] w1]; simpl in Hs |- *; [exact Hs |].
    destruct (py_get response "QueryResponse" (JObj [])) as [e | q]; simpl; [exact Hs |].
    destruct (py_get q "CompanyInfo" (JList [JObj []])) as [e | infos]; simpl;
      [exact Hs |].
    destruct (py_getitem0 infos); simpl; exact Hs.
  - intros reply w1 Hr.
    unfold get_company_info, try_except, bind, eval, log, raise. rewrite Hr. simpl.
    split; [| split; [| split]].
    + intros q first rest Hq Hc. rewrite Hq. simpl. rewrite Hc. reflexivity.
    + intros Hq. rewrite Hq. reflexivity.
    + intros q Hq Hc. rewrite Hq. simpl. rewrite Hc. reflexivity.
    + intros q Hq Hc. rewrite Hq. simpl. rewrite Hc. reflexivity.
  - intros e w' H. apply try_except_raises in H. destruct H as (cause & w1 & _ & H).
    unfold bind, log, raise in H. injection H as <- _. exists cause. reflexivity.
Qed.

(** X19. [validate_token] never raises: it sends one GET, to the address
    a client with the default base URL asks for the company info, and
    returns [True] exactly when the platform answered with status 200;
    any error of the call gives [False]. The database is not touched. *)
Theorem token_validation_never_raises tok cid (w : world) :
  exists ok w',
    validate_token http tok cid w = (inr ok, w')
    /\ sent w' = (sent w ++ [validation_request tok cid])%list
    /\ db_of w' = db_of w
    /\ (ok = true <->
        exists r, fst (http (validation_request tok cid) (remote w)) = HttpResponds r
                  /\ status_code r = 200)
    /\ url (validation_request tok cid)
       = url (build_request (QuickBooksAPI_init None) GET ("companyinfo/" +:+ cid)
                tok cid JNull).
Proof.
  unfold validate_token, try_except, bind, requests_call, log, ret.
  destruct (http (validation_request tok cid) (remote w)) as [[e | r] x] eqn:Hh; simpl.
  - do 2 eexists. split; [reflexivity |]. simpl.
    split; [reflexivity |]. split; [reflexivity |]. split; [| reflexivity].
    split; [discriminate | intros (r & Hr & _); discriminate].
  - do 2 eexists. split; [reflexivity |]. simpl.
    split; [reflexivity |]. split; [reflexivity |]. split; [| reflexivity].
    split.
    + intros Hok. exists r. split; [reflexivity |]. apply Z.eqb_eq. exact Hok.
    + intros (r' & Hr & Hst). injection Hr as <-. apply Z.eqb_eq. exact Hst.
Qed.

(** *** The stored tokens *)

Lemma key_compare_eq a : forall b, key_compare a b = Eq -> a = b.
Proof.
  induction a as [| x a IH]; intros [| y b]; simpl; try discriminate; [reflexivity |].
  destruct (Nat.compare x y) eqn:E; try discriminate.
  intros H. apply Nat.compare_eq in E. subst y. f_equal. apply IH, H.
Qed.

Lemma key_compare_antisym a : forall b, key_compare b a = CompOpp (key_compare a b).
Proof.
  induction a as [| x a IH]; intros [| y b]; simpl; try reflexivity.
  rewrite (Nat.compare_antisym x y).
  destruct (Nat.compare x y); simpl; [apply IH | reflexivity | reflexivity].
Qed.

Lemma key_compare_trans_gt a : forall b c,
  key_compare a b = Gt -> key_compare b c = Gt -> key_compare a c = Gt.
Proof.
  induction a as [| x a IH]; intros [| y b] [| z c]; simpl; try discriminate;
    try reflexivity.
  destruct (Nat.compare x y) eqn:Exy; try discriminate;
    destruct (Nat.compare y z) eqn:Eyz; try discriminate; intros H1 H2.
  - apply Nat.compare_eq in Exy, Eyz. subst. rewrite Nat.compare_refl. eapply IH; eauto.
  - apply Nat.compare_eq in Exy. subst. rewrite Eyz. reflexivity.
  - apply Nat.compare_eq in Eyz. subst. rewrite Exy. reflexivity.
  - apply Nat.compare_gt_iff in Exy, Eyz.
    assert (Hxz : (z < x)%nat) by lia.
    apply Nat.compare_gt_iff in Hxz. rewrite Hxz. reflexivity.
Qed.

Lemma key_compare_refl a : key_compare a a = Eq.
Proof.
  induction a as [| x a IH]; simpl; [reflexivity |].
  rewrite Nat.compare_refl. exact IH.
Qed.

Lemma is_expired_with_expiry tk expires (w : world) :
  QuickBooksToken.token_expires_at tk = Some expires ->
  is_expired utcnow tk w
  = (inr (datetime_gt (utcnow (clock_reads w)) expires), clock_read w).
Proof. unfold is_expired. intros ->. reflexivity. Qed.

(** X20. A token without an expiry never expires, and its check does not
    read the clock; a token with one is not expired at the instant of its
    expiry, and once it is expired it stays so at every later reading of
    the clock. *)
Theorem token_expiry_is_monotone tk (w : world) :
  (QuickBooksToken.token_expires_at tk = None ->
   is_expired utcnow tk w = (inr false, w))
  /\ (QuickBooksToken.token_expires_at tk = Some (utcnow (clock_reads w)) ->
      fst (is_expired utcnow tk w) = inr false)
  /\ (forall w' : world,
        fst (is_expired utcnow tk w) = inr true ->
        datetime_gt (utcnow (clock_reads w)) (utcnow (clock_reads w')) = false ->
        fst (is_expired utcnow tk w') = inr true).
Proof.
  split; [| split].
  - unfold is_expired. intros ->. reflexivity.
  - intros H. rewrite (is_expired_with_expiry _ _ _ H). unfold datetime_gt.
    rewrite key_compare_refl. reflexivity.
  - intros w'. destruct (QuickBooksToken.token_expires_at tk) as [expires |] eqn:He.
    + rewrite !(is_expired_with_expiry _ _ _ He). unfold datetime_gt, fst.
      set (a := datetime_key (utcnow (clock_reads w))).
      set (b := datetime_key (utcnow (clock_reads w'))).
      set (c := datetime_key expires).
      destruct (key_compare a c) eqn:Hac; try discriminate. intros _.
      destruct (key_compare a b) eqn:Hab; try discriminate; intros _.
      * apply key_compare_eq in Hab. rewrite <- Hab, Hac. reflexivity.
      * assert (Hba : key_compare b a = Gt)
          by (rewrite key_compare_antisym, Hab; reflexivity).
        rewrite (key_compare_trans_gt b a c Hba Hac). reflexivity.
    + unfold is_expired. rewrite He. discriminate.
Qed.

(** X21. [to_dict] of a stored token tells whether the two tokens are
    there and nothing else about them: two rows that differ only in the
    values of their tokens, both present or both absent, have the same
    dict. *)
Theorem token_dict_hides_the_tokens i c e s created updated a a' r r' :
  (a = "" <-> a' = "") ->
  (r = "" <-> r' = "") ->
  QuickBooksToken.to_dict (QuickBooksToken.Make i a r c e s created updated)
  = QuickBooksToken.to_dict (QuickBooksToken.Make i a' r' c e s created updated).
Proof.
  intros Ha Hr. unfold QuickBooksToken.to_dict, QuickBooksToken.nonempty_str. simpl.
  assert (Ea : String.eqb a "" = String.eqb a' "").
  { destruct (String.eqb a "") eqn:E1, (String.eqb a' "") eqn:E2; try reflexivity.
    - apply String.eqb_eq in E1. apply String.eqb_neq in E2. tauto.
    - apply String.eqb_eq in E2. apply String.eqb_neq in E1. tauto. }
  assert (Er : String.eqb r "" = String.eqb r' "").
  { destruct (String.eqb r "") eqn:E1, (String.eqb r' "") eqn:E2; try reflexivity.
    - apply String.eqb_eq in E1. apply String.eqb_neq in E2. tauto.
    - apply String.eqb_eq in E2. apply String.eqb_neq in E1. tauto. }
  rewrite Ea, Er. reflexivity.
Qed.

(** *** The clock *)

(** X24. The report is stamped when the batch starts, not when it ends:
    the timestamp of a report that [upload_all] returns is the first
    reading of the clock, taken before any document is tried, and the last
    line of the log is then the completion line with the counts of the
    summary. After the stamp an attempt reads the clock once when it
    succeeds and not at all when it fails, and the commits read it once
    per UPDATE, for [updated_at]. A batch none of whose commits fails in
    its flush returns. *)
Theorem report_is_stamped_at_the_start self invoices bills tok cid (w : world) :
  (forall rep docs w',
     upload_all self invoices bills tok cid w = (inr (rep, docs), w') ->
     upload_timestamp (report_summary rep)
     = datetime_isoformat (utcnow (clock_reads w))
     /\ last (logged w') = Some (INFO, completion_line (report_summary rep))
     /\ (session w = Active ->
         clock_reads w'
         = (S (clock_reads w) + total_successful (report_summary rep)
            + updates_to_come (length invoices + length bills) (db_faults w))%nat))
  /\ (forall result i,
        exists r i1 w1,
          sync_invoice self result tok cid (i, w) = (inr r, (i1, w1))
          /\ clock_reads w1 = (clock_reads w + (successful r - successful result))%nat)
  /\ (forall result b,
        exists r b1 w1,
          sync_bill self result tok cid (b, w) = (inr r, (b1, w1))
          /\ clock_reads w1 = (clock_reads w + (successful r - successful result))%nat)
  /\ (no_flush_fails w ->
      exists rep docs w', upload_all self invoices bills tok cid w = (inr (rep, docs), w')).
Proof.
  split; [| split; [| split]].
  - intros rep docs w' H. apply upload_all_report in H.
    destruct H as (Hsum & _ & _ & Hlast & Hrun).
    split; [rewrite Hsum; reflexivity |]. split; [exact Hlast |].
    intros Ha. destruct (Hrun Ha) as (_ & _ & Hclock). exact Hclock.
  - intros result i.
    destruct (sync_invoice_cases self result tok cid i w)
      as (r & i1 & w1 & Hs & _ & _ & _ & Hr).
    exists r, i1, w1. split; [exact Hs |].
    destruct Hr as [(-> & _ & ->) | (msg & -> & _ & ->)]; simpl; lia.
  - intros result b.
    destruct (sync_bill_cases self result tok cid b w)
      as (r & b1 & w1 & Hs & _ & _ & _ & Hr).
    exists r, b1, w1. split; [exact Hs |].
    destruct Hr as [(-> & _ & ->) | (msg & -> & _ & ->)]; simpl; lia.
  - intros Hno. destruct (upload_all_runs self invoices bills tok cid w Hno)
      as (rep & docs & w' & H & _). eauto.
Qed.

(** X25. The engine does not look at the integration fields before it
    tries a document: two records with the same business fields, whatever
    their [quickbooks_id], are tried with the same requests, the same log
    and the same result; a document that was uploaded already is posted
    again. *)
Theorem uploaded_documents_are_sent_again :
  (forall self result tok cid i i' (w : world),
     invoice_business i' = invoice_business i ->
     fst (sync_invoice self result tok cid (i', w))
     = fst (sync_invoice self result tok cid (i, w))
     /\ snd (snd (sync_invoice self result tok cid (i', w)))
        = snd (snd (sync_invoice self result tok cid (i, w))))
  /\ (forall self result tok cid b b' (w : world),
        bill_business b' = bill_business b ->
        fst (sync_bill self result tok cid (b', w))
        = fst (sync_bill self result tok cid (b, w))
        /\ snd (snd (sync_bill self result tok cid (b', w)))
           = snd (snd (sync_bill self result tok cid (b, w)))).
Proof.
  split.
  - intros self result tok cid i i' w Hbus.
    assert (Hjson : Invoice.to_quickbooks_json i' = Invoice.to_quickbooks_json i).
    { destruct i, i'. unfold invoice_business in Hbus. simpl in Hbus.
      injection Hbus. intros. subst. reflexivity. }
    destruct (create_invoice (qb_api self) (Invoice.to_quickbooks_json i) tok cid w)
      as [[e | resp] u] eqn:Hc.
    + rewrite (sync_invoice_failed _ _ _ _ _ _ _ _ Hc).
      rewrite <- Hjson in Hc. rewrite (sync_invoice_failed _ _ _ _ _ _ _ _ Hc).
      unfold invoice_business in Hbus. injection Hbus as H1 H2 H3 H4 H5 H6 H7 H8.
      unfold invoice_failure_detail. simpl. rewrite H1, H2, H5, H7. split; reflexivity.
    + destruct (create_invoice_returns_dict _ _ _ _ _ _ _ Hc) as [fields ->].
      rewrite (sync_invoice_uploaded _ _ _ _ _ _ _ _ Hc).
      rewrite <- Hjson in Hc. rewrite (sync_invoice_uploaded _ _ _ _ _ _ _ _ Hc).
      unfold invoice_business in Hbus. injection Hbus as H1 H2 H3 H4 H5 H6 H7 H8.
      unfold invoice_success_detail. simpl. rewrite H1, H2, H5, H7. split; reflexivity.
  - intros self result tok cid b b' w Hbus.
    assert (Hjson : Bill.to_quickbooks_json b' = Bill.to_quickbooks_json b).
    { destruct b, b'. unfold bill_business in Hbus. simpl in Hbus.
      injection Hbus. intros. subst. reflexivity. }
    destruct (create_bill (qb_api self) (Bill.to_quickbooks_json b) tok cid w)
      as [[e | resp] u] eqn:Hc.
    + rewrite (sync_bill_failed _ _ _ _ _ _ _ _ Hc).
      rewrite <- Hjson in Hc. rewrite (sync_bill_failed _ _ _ _ _ _ _ _ Hc).
      unfold bill_business in Hbus. injection Hbus as H1 H2 H3 H4 H5 H6 H7 H8.
      unfold bill_failure_detail. simpl. rewrite H1, H2, H5, H7. split; reflexivity.
    + destruct (create_bill_returns_dict _ _ _ _ _ _ _ Hc) as [fields ->].
      rewrite (sync_bill_uploaded _ _ _ _ _ _ _ _ Hc).
      rewrite <- Hjson in Hc. rewrite (sync_bill_uploaded _ _ _ _ _ _ _ _ Hc).
      unfold bill_business in Hbus. injection Hbus as H1 H2 H3 H4 H5 H6 H7 H8.
      unfold bill_success_detail. simpl. rewrite H1, H2, H5, H7. split; reflexivity.
Qed.

(** *** What the requests carry *)

Section Only.

Variable P : request -> Prop.

Lemma only_ret {A} (a : A) : sends_only P (ret a : M world A).
Proof. intros w. exists []. rewrite app_nil_r. split; [reflexivity | constructor]. Qed.

Lemma only_raise {A} e : sends_only P (@raise world A e).
Proof. intros w. exists []. rewrite app_nil_r. split; [reflexivity | constructor]. Qed.

Lemma only_eval {A} (r : res A) : sends_only P (eval r : M world A).
Proof. intros w. exists []. rewrite app_nil_r. split; [reflexivity | constructor]. Qed.

Lemma only_log lvl msg : sends_only P (log lvl msg).
Proof. intros w. exists []. rewrite app_nil_r. split; [reflexivity | constructor]. Qed.

Lemma only_bind {A B} (m : M world A) (f : A -> M world B) :
  sends_only P m -> (forall a, sends_only P (f a)) -> sends_only P (bind m f).
Proof.
  intros Hm Hf w. unfold bind.
  destruct (Hm w) as (l & Hl & HP).
  destruct (m w) as [[e | a] w1]; simpl in Hl |- *.
  - exists l. split; assumption.
  - destruct (Hf a w1) as (l' & Hl' & HP').
    exists (l ++ l')%list. rewrite Hl', Hl, app_assoc.
    split; [reflexivity | apply Forall_app; split; assumption].
Qed.

Lemma only_try_except {A} (m : M world A) (h : exn -> M world A) :
  sends_only P m -> (forall e, sends_only P (h e)) -> sends_only P (try_except m h).
Proof.
  intros Hm Hh w. unfold try_except.
  destruct (Hm w) as (l & Hl & HP).
  destruct (m w) as [[e | a] w1]; simpl in Hl |- *.
  - destruct (Hh e w1) as (l' & Hl' & HP').
    exists (l ++ l')%list. rewrite Hl', Hl, app_assoc.
    split; [reflexivity | apply Forall_app; split; assumption].
  - exists l. split; assumption.
Qed.

End Only.

Ltac carried :=
  repeat first
    [ match goal with H : context [sends_only] |- _ => apply H end
    | apply only_ret | apply only_raise | apply only_eval | apply only_log
    | apply only_bind; [| intros ?]
    | apply only_try_except; [| intros ?]
    | match goal with
      | |- sends_only _ (if ?b then _ else _) => destruct b
      | |- sends_only _ (match ?x with _ => _ end) => destruct x
      | |- sends_only _ (let _ := _ in _) => cbv zeta
      end ].

Lemma only_make_request self m endpoint tok cid data :
  sends_only (addressed_to self tok cid) (_make_request self m endpoint tok cid data).
Proof.
  intros w. exists [build_request self m endpoint tok cid data].
  split; [apply make_request_sends |].
  constructor; [| constructor].
  unfold addressed_to, build_request; simpl.
  split; [reflexivity |]. split; [reflexivity |].
  split; [intros ->; reflexivity | exists endpoint; reflexivity].
Qed.

Lemma only_resolve k self name tok cid :
  sends_only (addressed_to self tok cid) (resolve k self name tok cid).
Proof.
  pose proof (fun m endpoint data => only_make_request self m endpoint tok cid data) as Hmr.
  destruct k; simpl;
    [ unfold _get_or_create_customer
    | unfold _get_or_create_vendor
    | unfold _get_or_create_account ]; carried.
Qed.

Lemma only_create_invoice self data tok cid :
  sends_only (addressed_to self tok cid) (create_invoice self data tok cid).
Proof.
  pose proof (fun m endpoint data => only_make_request self m endpoint tok cid data) as Hmr.
  pose proof (fun name => only_resolve Customer self name tok cid) as Hr. simpl in Hr.
  unfold create_invoice. carried.
Qed.

Lemma only_resolve_lines self tok cid lines :
  sends_only (addressed_to self tok cid) (resolve_lines http py_repr self tok cid lines).
Proof.
  pose proof (fun name => only_resolve Account self name tok cid) as Hr. simpl in Hr.
  induction lines as [| line rest IH]; simpl resolve_lines.
  - apply only_ret.
  - unfold resolve_line_account. carried.
Qed.

Lemma only_create_bill self data tok cid :
  sends_only (addressed_to self tok cid) (create_bill self data tok cid).
Proof.
  pose proof (fun m endpoint data => only_make_request self m endpoint tok cid data) as Hmr.
  pose proof (fun name => only_resolve Vendor self name tok cid) as Hv. simpl in Hv.
  pose proof (fun lines => only_resolve_lines self tok cid lines) as Hl.
  unfold create_bill. carried.
Qed.

(** An attempt and its commit send what the creation call sends. *)
Lemma only_invoice_turn self result tok cid i :
  sends_only (addressed_to (qb_api self) tok cid)
    (with_doc i (invoice_turn self result tok cid)).
Proof.
  intros w.
  destruct (only_create_invoice (qb_api self) (Invoice.to_quickbooks_json i) tok cid w)
    as (l & Hl & HP).
  destruct (sync_invoice_cases self result tok cid i w)
    as (r & i1 & w1 & Hs & _ & Hsent & _).
  destruct (commit_invoice_cases i1 w1) as (res & i2 & w2 & Hc & Hsent2 & _).
  rewrite (invoice_doc_turn _ _ _ _ _ _ _ _ _ _ _ _ Hs Hc). cbn [snd].
  exists l. split; [congruence | exact HP].
Qed.

Lemma only_bill_turn self result tok cid b :
  sends_only (addressed_to (qb_api self) tok cid)
    (with_doc b (bill_turn self result tok cid)).
Proof.
  intros w.
  destruct (only_create_bill (qb_api self) (Bill.to_quickbooks_json b) tok cid w)
    as (l & Hl & HP).
  destruct (sync_bill_cases self result tok cid b w)
    as (r & b1 & w1 & Hs & _ & Hsent & _).
  destruct (commit_bill_cases b1 w1) as (res & b2 & w2 & Hc & Hsent2 & _).
  rewrite (bill_doc_turn _ _ _ _ _ _ _ _ _ _ _ _ Hs Hc). cbn [snd].
  exists l. split; [congruence | exact HP].
Qed.

Lemma only_for_each_invoice self tok cid invoices :
  forall result,
    sends_only (addressed_to (qb_api self) tok cid)
      (for_each_invoice self tok cid invoices result).
Proof.
  induction invoices as [| i rest IH]; intros result.
  - apply only_ret.
  - simpl for_each_invoice.
    apply only_bind; [apply only_invoice_turn | intros [r i']].
    apply only_bind; [apply IH | intros [r' docs]]. apply only_ret.
Qed.

Lemma only_for_each_bill self tok cid bills :
  forall result,
    sends_only (addressed_to (qb_api self) tok cid)
      (for_each_bill self tok cid bills result).
Proof.
  induction bills as [| b rest IH]; intros result.
  - apply only_ret.
  - simpl for_each_bill.
    apply only_bind; [apply only_bill_turn | intros [r b']].
    apply only_bind; [apply IH | intros [r' docs]]. apply only_ret.
Qed.

(** X26. Every request of a batch is made for the company and with the
    token the batch was given: it carries the bearer token in its
    [Authorization] header, the timeout of the client, an address under
    the company's, and no body when it is a GET; this holds for each call
    of the client as well. *)
Theorem batch_requests_carry_the_token :
  (forall api m endpoint tok cid data,
     sends_only (addressed_to api tok cid) (_make_request api m endpoint tok cid data))
  /\ (forall k api name tok cid,
        sends_only (addressed_to api tok cid) (resolve k api name tok cid))
  /\ (forall api data tok cid,
        sends_only (addressed_to api tok cid) (create_invoice api data tok cid))
  /\ (forall api data tok cid,
        sends_only (addressed_to api tok cid) (create_bill api data tok cid))
  /\ (forall self invoices bills tok cid,
        sends_only (addressed_to (qb_api self) tok cid)
          (upload_all self invoices bills tok cid)).
Proof.
  split; [exact only_make_request |].
  split; [exact only_resolve |].
  split; [exact only_create_invoice |].
  split; [exact only_create_bill |].
  intros self invoices bills tok cid.
  pose proof (only_for_each_invoice self tok cid) as Hi.
  pose proof (only_for_each_bill self tok cid) as Hb.
  assert (Hu : sends_only (addressed_to (qb_api self) tok cid)
                 (datetime_utcnow utcnow : M world datetime)).
  { intros w. exists []. rewrite app_nil_r. split; [reflexivity | constructor]. }
  unfold upload_all, _upload_invoices, _upload_bills.
  apply only_bind; [exact Hu | intros now].
  cbv zeta.
  apply only_bind; [destruct (nonempty invoices); carried | intros [ri di]].
  apply only_bind; [destruct (nonempty bills); carried | intros [rb db]].
  carried.
Qed.

(** X27. A turn whose commit raises at the COMMIT is counted and
    forgotten: an error line is logged, the session is rolled back and the
    turn returns the result of the attempt; the rows, and with them the
    statistics, stay as they were, and the record reads as its row again,
    so that a document created on the platform in such a turn is still
    pending in the database. A turn whose commit fails in its flush
    raises instead: the handler logs nothing and rolls nothing back, the
    loop ends there with the session still waiting, and the rows and the
    statistics stay as they were. *)
Theorem uncommitted_turn_leaves_the_statistics :
  (forall self result tok cid i (w : world) msg,
     session w = Active ->
     outcome (next_commit w) = CommitRaises msg ->
     exists r i2 w2,
       invoice_turn self result tok cid (i, w) = (inr r, (i2, w2))
       /\ fst (sync_invoice self result tok cid (i, w)) = inr r
       /\ (successful r + failed r = S (successful result + failed result))%nat
       /\ invoice_rows w2 = invoice_rows w /\ bill_rows w2 = bill_rows w
       /\ get_upload_statistics w2 = get_upload_statistics w
       /\ (forall row, invoice_rows w !! Invoice.id i = Some row -> i2 = row)
       /\ session w2 = Active
       /\ last (logged w2)
          = Some (ERROR, "Database commit error for invoice "
                         +:+ Invoice.invoice_number i +:+ ": " +:+ msg))
  /\ (forall self result tok cid i rest (w : world),
        flush_raises_next w = true ->
        exists cause i2 w2,
          invoice_turn self result tok cid (i, w)
          = (inl (pending_rollback true cause), (i2, w2))
          /\ for_each_invoice self tok cid (i :: rest) result w
             = (inl (pending_rollback true cause), w2)
          /\ session w2 = AwaitsRollback true cause
          /\ logged w2 = logged (snd (snd (sync_invoice self result tok cid (i, w))))
          /\ invoice_rows w2 = invoice_rows w /\ bill_rows w2 = bill_rows w
          /\ get_upload_statistics w2 = get_upload_statistics w)
  /\ (forall self result tok cid b (w : world) msg,
        session w = Active ->
        outcome (next_commit w) = CommitRaises msg ->
        exists r b2 w2,
          bill_turn self result tok cid (b, w) = (inr r, (b2, w2))
          /\ fst (sync_bill self result tok cid (b, w)) = inr r
          /\ (successful r + failed r = S (successful result + failed result))%nat
          /\ invoice_rows w2 = invoice_rows w /\ bill_rows w2 = bill_rows w
          /\ get_upload_statistics w2 = get_upload_statistics w
          /\ (forall row, bill_rows w !! Bill.id b = Some row -> b2 = row)
          /\ session w2 = Active
          /\ last (logged w2)
             = Some (ERROR, "Database commit error for bill "
                            +:+ Bill.bill_number b +:+ ": " +:+ msg))
  /\ (forall self result tok cid b rest (w : world),
        flush_raises_next w = true ->
        exists cause b2 w2,
          bill_turn self result tok cid (b, w)
          = (inl (pending_rollback true cause), (b2, w2))
          /\ for_each_bill self tok cid (b :: rest) result w
             = (inl (pending_rollback true cause), w2)
          /\ session w2 = AwaitsRollback true cause
          /\ logged w2 = logged (snd (snd (sync_bill self result tok cid (b, w))))
          /\ invoice_rows w2 = invoice_rows w /\ bill_rows w2 = bill_rows w
          /\ get_upload_statistics w2 = get_upload_statistics w).
Proof.
  split; [| split; [| split]].
  - intros self result tok cid i w msg Ha Ho.
    destruct (sync_invoice_cases self result tok cid i w)
      as (r & i1 & w1 & Hs & (Hf & Hses & Hown & Hother) & _ & Hbus & Hr).
    assert (Ha1 : session w1 = Active) by congruence.
    assert (Ho1 : outcome (next_commit w1) = CommitRaises msg)
      by (unfold next_commit in *; rewrite Hf; exact Ho).
    pose proof (commit_invoice_rolled_back i1 w1 msg Ha1 Ho1) as Hc.
    assert (Hid : Invoice.id i1 = Invoice.id i)
      by (unfold invoice_business in Hbus; congruence).
    assert (Hnum : Invoice.invoice_number i1 = Invoice.invoice_number i)
      by (unfold invoice_business in Hbus; congruence).
    do 3 eexists. split; [exact (invoice_turn_returns _ _ _ _ _ _ _ _ _ _ _ Hs Hc) |].
    split; [rewrite Hs; reflexivity |].
    split; [destruct Hr as [(-> & _) | (m & -> & _)]; simpl; lia |].
    split; [exact Hown |]. split; [exact Hother |].
    split; [unfold get_upload_statistics; simpl; rewrite Hown, Hother; reflexivity |].
    split; [intros row Hrow; rewrite Hown, Hid, Hrow; reflexivity |].
    split; [reflexivity |].
    simpl. rewrite Hnum. apply last_snoc.
  - intros self result tok cid i rest w Hflush.
    destruct (sync_invoice_cases self result tok cid i w)
      as (r & i1 & w1 & Hs & (Hf & Hses & Hown & Hother) & _ & _ & _).
    assert (Hc : exists cause w2,
               commit_invoice (i1, w1) = (inl (pending_rollback true cause), (i1, w2))
               /\ session w2 = AwaitsRollback true cause
               /\ logged w2 = logged w1
               /\ invoice_rows w2 = invoice_rows w1 /\ bill_rows w2 = bill_rows w1).
    { unfold flush_raises_next, next_commit in Hflush.
      rewrite <- Hses, <- Hf in Hflush. fold (next_commit w1) in Hflush.
      destruct (session w1) as [| expired cause] eqn:Hs1.
      - destruct (outcome (next_commit w1)) as [| m | m] eqn:Ho1; try discriminate.
        rewrite (commit_invoice_aborts _ _ m Hs1 Ho1).
        do 2 eexists. split; [reflexivity |]. repeat split.
      - subst expired. rewrite (commit_invoice_expired _ _ cause Hs1).
        do 2 eexists. split; [reflexivity |]. repeat split. exact Hs1. }
    destruct Hc as (cause & w2 & Hc & Hs2 & Hlog & Hown2 & Hother2).
    exists cause, i1, w2.
    split; [rewrite (invoice_turn_steps _ _ _ _ _ _ _ _ _ _ _ _ Hs Hc); reflexivity |].
    split; [rewrite (for_each_invoice_step _ _ _ _ _ _ _ _ _ _ _ _ _ Hs Hc); reflexivity |].
    split; [exact Hs2 |]. split; [rewrite Hs; exact Hlog |].
    split; [congruence |]. split; [congruence |].
    unfold get_upload_statistics. rewrite Hown2, Hother2, Hown, Hother. reflexivity.
  - intros self result tok cid b w msg Ha Ho.
    destruct (sync_bill_cases self result tok cid b w)
      as (r & b1 & w1 & Hs & (Hf & Hses & Hown & Hother) & _ & Hbus & Hr).
    assert (Ha1 : session w1 = Active) by congruence.
    assert (Ho1 : outcome (next_commit w1) = CommitRaises msg)
      by (unfold next_commit in *; rewrite Hf; exact Ho).
    pose proof (commit_bill_rolled_back b1 w1 msg Ha1 Ho1) as Hc.
    assert (Hid : Bill.id b1 = Bill.id b)
      by (unfold bill_business in Hbus; congruence).
    assert (Hnum : Bill.bill_number b1 = Bill.bill_number b)
      by (unfold bill_business in Hbus; congruence).
    do 3 eexists. split; [exact (bill_turn_returns _ _ _ _ _ _ _ _ _ _ _ Hs Hc) |].
    split; [rewrite Hs; reflexivity |].
    split; [destruct Hr as [(-> & _) | (m & -> & _)]; simpl; lia |].
    split; [exact Hother |]. split; [exact Hown |].
    split; [unfold get_upload_statistics; simpl; rewrite Hown, Hother; reflexivity |].
    split; [intros row Hrow; rewrite Hown, Hid, Hrow; reflexivity |].
    split; [reflexivity |].
    simpl. rewrite Hnum. apply last_snoc.
  - intros self result tok cid b rest w Hflush.
    destruct (sync_bill_cases self result tok cid b w)
      as (r & b1 & w1 & Hs & (Hf & Hses & Hown & Hother) & _ & _ & _).
    assert (Hc : exists cause w2,
               commit_bill (b1, w1) = (inl (pending_rollback true cause), (b1, w2))
               /\ session w2 = AwaitsRollback true cause
               /\ logged w2 = logged w1
               /\ invoice_rows w2 = invoice_rows w1 /\ bill_rows w2 = bill_rows w1).
    { unfold flush_raises_next, next_commit in Hflush.
      rewrite <- Hses, <- Hf in Hflush. fold (next_commit w1) in Hflush.
      destruct (session w1) as [| expired cause] eqn:Hs1.
      - destruct (outcome (next_commit w1)) as [| m | m] eqn:Ho1; try discriminate.
        rewrite (commit_bill_aborts _ _ m Hs1 Ho1).
        do 2 eexists. split; [reflexivity |]. repeat split.
      - subst expired. rewrite (commit_bill_expired _ _ cause Hs1).
        do 2 eexists. split; [reflexivity |]. repeat split. exact Hs1. }
    destruct Hc as (cause & w2 & Hc & Hs2 & Hlog & Hother2 & Hown2).
    exists cause, b1, w2.
    split; [rewrite (bill_turn_steps _ _ _ _ _ _ _ _ _ _ _ _ Hs Hc); reflexivity |].
    split; [rewrite (for_each_bill_step _ _ _ _ _ _ _ _ _ _ _ _ _ Hs Hc); reflexivity |].
    split; [exact Hs2 |]. split; [rewrite Hs; exact Hlog |].
    split; [congruence |]. split; [congruence |].
    unfold get_upload_statistics. rewrite Hown2, Hother2, Hown, Hother. reflexivity.
Qed.

End Properties.

(** ** Closed instances *)

Import Sample.


(** A reply without 'Id': the attempt counts as a success and the record
    ends with neither a remote id nor an error, so that neither of the two
    states of the invariant holds. *)
Lemma reply_without_id_leaves_neither_state :
  exists r i' w',
    sync_invoice scripted clock repr uploader fresh_result "tok" "cid"
      (acme, created_without_id)
    = (inr r, (i', w'))
    /\ successful r = 1%nat
    /\ Invoice.quickbooks_id i' = JNull
    /\ Invoice.upload_error i' = None
    /\ uploaded_clean (Invoice.state i') = false
    /\ has_error (Invoice.state i') = false
    /\ exactly_one_state (Invoice.state i') = false.
Proof.
  vm_compute. do 3 eexists. split; [reflexivity |]. repeat split.
Qed.

(** A single upload that goes through applies the success branch. *)
Lemma single_upload_applies_the_success_branch :
  exists fields,
    JObj [ ("Id", JStr "42") ] = JObj fields
    /\ fst first_upload = inr (single_success (id_of fields))
    /\ success_applied (id_of fields) (Invoice.state (fst (snd first_upload))).
Proof.
  assert (Hrun : upload_single_invoice scripted clock repr uploader "tok" "cid"
                   (acme, created_with_id)
                 = (fst first_upload, (fst (snd first_upload), snd (snd first_upload))))
    by (vm_compute; reflexivity).
  pose proof (proj1 (proj2 (proj2
                (each_attempt_applies_one_branch _ scripted clock repr)))
                uploader "tok" "cid" acme _ _ _ _ Hrun) as H.
  assert (Hc : create_invoice scripted repr (qb_api uploader)
                 (Invoice.to_quickbooks_json acme) "tok" "cid" created_with_id
               = (inr (JObj [ ("Id", JStr "42") ]), after_created_with_id))
    by (vm_compute; reflexivity).
  rewrite Hc in H. exact (H eq_refl).
Defined.

(** A record uploaded once and tried again while the platform is silent
    keeps its remote id and gains an error; the statistics count it as
    uploaded and as failed, and count nothing as pending. *)
Lemma retry_after_success_has_both :
  exists out i' w',
    second_upload = (inr out, (i', w'))
    /\ Invoice.quickbooks_id i' = JStr "42"
    /\ Invoice.upload_error i' = Some silence_message
    /\ error_only_when_pending (Invoice.state i') = false
    /\ invoice_rows w' !! 1 = Some i'
    /\ count_uploaded (stat_invoices (get_upload_statistics w')) = 1
    /\ count_failed (stat_invoices (get_upload_statistics w')) = 1
    /\ count_pending (stat_invoices (get_upload_statistics w')) = 0.
Proof.
  vm_compute. do 3 eexists. split; [reflexivity |]. repeat split.
Qed.

(** A batch of two pending documents against a silent platform. *)
Lemma silent_platform_keeps_documents_pending :
  exists rep invoices' bills' w',
    upload_all scripted clock repr uploader [acme] [rent] "tok" "cid" silent
    = (inr (rep, (invoices', bills')), w')
    /\ Forall (fun i => error_only_when_pending (Invoice.state i) = true) invoices'
    /\ Forall (fun b => error_only_when_pending (Bill.state b) = true) bills'
    /\ rows_consistent w'
    /\ count_failed (stat_invoices (get_upload_statistics w'))
       <= count_pending (stat_invoices (get_upload_statistics w'))
    /\ count_failed (stat_bills (get_upload_statistics w'))
       <= count_pending (stat_bills (get_upload_statistics w'))
    /\ count_failed (stat_overall (get_upload_statistics w'))
       <= count_pending (stat_overall (get_upload_statistics w')).
Proof.
  assert (Hrows : rows_consistent silent)
    by (split; intros k x H; vm_compute in H; discriminate).
  assert (Hno : no_flush_fails silent) by (split; [discriminate | constructor]).
  destruct (proj1 (pending_batches_keep_errors_on_pending_documents _ scripted clock repr)
              uploader [acme] [rent] "tok" "cid" silent
              ltac:(repeat constructor) ltac:(repeat constructor) Hrows)
    as (Hfinal & S1 & S2 & S3 & Hdocs & Hruns).
  destruct (Hruns Hno) as (rep & [invoices' bills'] & w' & Hrun).
  destruct (Hdocs rep invoices' bills' w' Hrun) as [Hi Hb].
  rewrite Hrun in Hfinal, S1, S2, S3.
  exists rep, invoices', bills', w'.
  exact (conj Hrun (conj Hi (conj Hb (conj Hfinal (conj S1 (conj S2 S3)))))).
Defined.

(** The record uploaded as invoice 42 keeps that id when a later attempt
    fails. *)
Lemma failed_retry_keeps_the_remote_id :
  exists r i' w',
    sync_invoice scripted clock repr uploader fresh_result "tok" "cid" (acme_uploaded, silent)
    = (inr r, (i', w'))
    /\ failed r = 1%nat
    /\ Invoice.quickbooks_id i' = Invoice.quickbooks_id acme_uploaded.
Proof.
  assert (Hc : create_invoice scripted repr (qb_api uploader)
                 (Invoice.to_quickbooks_json acme_uploaded) "tok" "cid" silent
               = (inl (Raise Exception silence_message), after_silence))
    by (vm_compute; reflexivity).
  pose proof (sync_invoice_failed _ scripted clock repr uploader fresh_result "tok" "cid"
                acme_uploaded silent after_silence _ Hc) as Hs.
  do 3 eexists. split; [exact Hs |]. split; [reflexivity |].
  exact (proj1 (quickbooks_id_follows_the_platform _ scripted clock repr)
           uploader fresh_result "tok" "cid" acme_uploaded silent _ _ _ Hs eq_refl).
Defined.

(** The reply without 'Id', through a whole turn. *)
Lemma turn_without_remote_id :
  exists w2,
    invoice_turn scripted clock repr uploader fresh_result "tok" "cid"
      (acme, created_without_id)
    = (inr (record_success
              (invoice_success_detail (uploaded_invoice JNull (clock 0) acme))
              fresh_result),
       (uploaded_invoice JNull (clock 0) acme, w2))
    /\ invoice_rows w2 !! Invoice.id acme = Some (uploaded_invoice JNull (clock 0) acme)
    /\ 1 <= count_pending (stat_invoices (get_upload_statistics w2)).
Proof.
  assert (Hc : create_invoice scripted repr (qb_api uploader)
                 (Invoice.to_quickbooks_json acme) "tok" "cid" created_without_id
               = (inr (JObj [ ("DocNumber", JStr "INV-1") ]), after_created_without_id))
    by (vm_compute; reflexivity).
  destruct (success_without_remote_id _ scripted clock repr uploader fresh_result
              "tok" "cid" acme _ _ _ Hc eq_refl)
    as (_ & _ & _ & _ & _ & _ & _ & _ & _ & Hturn).
  destruct (Hturn eq_refl) as (w2 & Ht & Hrow & _ & _ & Hpending).
  exists w2. split; [exact Ht |]. split; [exact Hrow | exact Hpending].
Defined.

(** A lookup that finds two customers returns the first and sends nothing
    more; a lookup that finds none is followed by one POST, and the
    created customer is returned. *)
Lemma resolver_hit_and_miss :
  (exists w1,
     resolve scripted repr Customer (qb_api uploader) (JStr "Acme") "tok" "cid"
       (start [customer_found] [])
     = (inr (JObj [ ("Id", JStr "7") ]), w1)
     /\ length (sent w1) = 1%nat)
  /\ (exists w2,
        resolve scripted repr Customer (qb_api uploader) (JStr "Acme") "tok" "cid"
          (start [no_match; customer_created] [])
        = (inr (JObj [ ("Id", JStr "9") ]), w2)
        /\ length (sent w2) = 2%nat).
Proof.
  split.
  - destruct (resolver_looks_up_then_creates _ scripted repr Customer (qb_api uploader)
                (JStr "Acme") "tok" "cid" (start [customer_found] []))
      as (Hsent & _ & _ & _ & _ & _ & H).
    destruct (H (JObj [ ("QueryResponse",
                         JObj [ ("Customer", JList [ JObj [ ("Id", JStr "7") ];
                                                     JObj [ ("Id", JStr "8") ] ]) ]) ]))
      as [Hhit _]; [vm_compute; reflexivity |].
    eexists. split.
    + apply (Hhit (JObj [ ("Id", JStr "7") ]) [ JObj [ ("Id", JStr "8") ] ]). reflexivity.
    + rewrite Hsent. reflexivity.
  - destruct (resolver_looks_up_then_creates _ scripted repr Customer (qb_api uploader)
                (JStr "Acme") "tok" "cid" (start [no_match; customer_created] []))
      as (_ & _ & _ & _ & _ & _ & H).
    destruct (H (JObj [ ("QueryResponse", JObj []) ])) as [_ Hmiss];
      [vm_compute; reflexivity |].
    pose proof (Hmiss eq_refl) as Hm. cbv zeta in Hm. destruct Hm as [_ Hret].
    eexists. split.
    + apply (Hret (JObj [ ("Customer", JObj [ ("Id", JStr "9") ]) ]));
        [vm_compute; reflexivity | reflexivity].
    + vm_compute. reflexivity.
Defined.

(** The sample invoice has no tax code and is dated 9 March 2024. *)
Lemma sample_invoice_on_the_wire :
  (exists line detail,
     py_getitem (Invoice.to_quickbooks_json acme) "Line" = inr (JList [line])
     /\ py_getitem line "SalesItemLineDetail" = inr detail
     /\ py_getitem detail "TaxCodeRef" = inr (JObj [ ("value", JStr "NON") ]))
  /\ py_getitem (Invoice.to_quickbooks_json acme) "TxnDate" = inr (JStr "2024-03-09")
  /\ read_iso_date (date_isoformat (Date 2024 3 9)) = Some (Date 2024 3 9).
Proof.
  destruct translators_follow_the_wire_schema as (Hinv & _ & _ & Hread).
  destruct (Hinv acme)
    as (line & detail & Hline & _ & _ & _ & Hdetail & _ & Htax & _ & _ & _ & Hdate & _).
  split; [| split].
  - exists line, detail. split; [exact Hline |]. split; [exact Hdetail |].
    apply Htax. left. reflexivity.
  - exact Hdate.
  - apply Hread; simpl; lia.
Defined.

(** A batch against a silent platform returns, with both documents
    counted as failed. *)
Lemma silent_batch_is_counted :
  exists rep docs w',
    upload_all scripted clock repr uploader [acme] [rent] "tok" "cid" silent
    = (inr (rep, docs), w')
    /\ total_processed (report_summary rep) = 2%nat
    /\ (total_successful (report_summary rep) + total_failed (report_summary rep) = 2)%nat.
Proof.
  destruct (report_counts_add_up _ scripted clock repr uploader [acme] [rent]
              "tok" "cid" silent) as [Hcounts Hruns].
  destruct Hruns as (rep & docs & w' & H); [split; [discriminate | constructor] |].
  destruct (Hcounts rep docs w' H) as (Hp & _ & _ & Hsum & _).
  exists rep, docs, w'. split; [exact H |]. split; [exact Hp |].
  rewrite Hsum. exact Hp.
Defined.

(** C6, where the code misses it. A batch of two invoices and a bill;
    the first invoice is created on the platform and the flush of the
    commit that follows fails. The handler of the commit raises where it
    reads the number of the invoice, before it has logged anything or
    rolled back: [upload_all] raises and returns no report, the second
    invoice and the bill are never tried, no error line is logged and the
    session is left waiting for its rollback. With the same batch and the
    failure at the COMMIT instead, the handler does what it was written
    for: the error line is logged, the session is rolled back, and the
    batch goes on to its report of three documents. *)
Theorem flush_failure_ends_the_batch :
  (exists w',
     upload_all scripted clock repr uploader [acme; Cases.nameless] [rent] "tok" "cid"
       Cases.created_then_disk_full
     = (inl (pending_rollback true "disk full"), w')
     /\ session w' = AwaitsRollback true "disk full"
     /\ length (sent w') = 2%nat
     /\ List.filter (fun l : log_level * string =>
                       match fst l with ERROR => true | INFO => false end) (logged w')
        = []
     /\ invoice_rows w' !! 1 = None)
  /\ (exists rep docs w',
        upload_all scripted clock repr uploader [acme; Cases.nameless] [rent] "tok" "cid"
          Cases.created_then_locked
        = (inr (rep, docs), w')
        /\ session w' = Active
        /\ length (details (report_invoices rep)) = 2%nat
        /\ length (details (report_bills rep)) = 1%nat
        /\ List.existsb
             (fun l : log_level * string =>
                String.eqb (snd l)
                  "Database commit error for invoice INV-1: database is locked")
             (logged w')
           = true
        /\ invoice_rows w' !! 1 = None).
Proof.
  split.
  - vm_compute. eexists. split; [reflexivity |]. repeat split.
  - vm_compute. do 3 eexists. split; [reflexivity |]. repeat split.
Qed.

(** ** The token endpoint *)

Section TokenEndpoint.

Variable T : Type.
Variable token_endpoint : token_request -> T -> http_outcome * T.

Local Abbreviation get_access_token := (get_access_token token_endpoint).
Local Abbreviation refresh_access_token := (refresh_access_token token_endpoint).

Ltac token_cases req st self :=
  destruct (token_endpoint req st) as [[e | r] x] eqn:Hpost; simpl;
  [ destruct (exn_class e)
  | destruct (raise_for_status r (token_url self)) as [e | []] eqn:Hstatus; simpl;
    [ destruct (exn_class e)
    | destruct (body r) as [e | v] eqn:Hbody; simpl;
      [ destruct (exn_class e) | destruct v as [| flag | n | h | s | items | fields] ] ] ];
  simpl.

(** X22. The exchange of an authorization code sends one POST to the
    token endpoint, whatever the company id is: a missing company id is
    found only after the code has been sent. What it returns carries a
    non-empty access token and the company id it was given; what it raises
    is a plain [Exception] that starts with ['Token exchange failed: ']. *)
Theorem code_exchange_checks_after_posting self code company (w : idp_world T) :
  posted (snd (get_access_token self code company w))
  = (posted w ++ [exchange_request self code])%list
  /\ (forall v w',
        get_access_token self code company w = (inr v, w') ->
        exists a c,
          company = Some c /\ c <> "" /\ py_truthy a = true
          /\ py_getitem v "access_token" = inr a
          /\ py_getitem v "company_id" = inr (JStr c))
  /\ (forall e w',
        get_access_token self code company w = (inl e, w') ->
        exists cause, e = Raise Exception ("Token exchange failed: " +:+ exn_str cause))
  /\ (forall r x fields a,
        token_endpoint (exchange_request self code) (idp w) = (HttpResponds r, x) ->
        raise_for_status r (token_url self) = inr tt ->
        body r = inr (JObj fields) ->
        dict_lookup "access_token" fields = Some a ->
        py_truthy a = true ->
        (company = None \/ company = Some "" ->
         fst (get_access_token self code company w)
         = inl (Raise Exception "Token exchange failed: Company ID (realmId) not provided"))
        /\ (forall c,
              company = Some c -> c <> "" ->
              fst (get_access_token self code company w)
              = inr (JObj [ ("access_token", a);
                            ("refresh_token",
                             from_option id JNull (dict_lookup "refresh_token" fields));
                            ("company_id", JStr c);
                            ("expires_in",
                             from_option id (JInt 3600) (dict_lookup "expires_in" fields));
                            ("token_type",
                             from_option id (JStr "Bearer")
                               (dict_lookup "token_type" fields)) ]))).
Proof.
  split; [| split; [| split]].
  - unfold get_access_token, try_except, bind, requests_post, eval, idp_log, raise, ret.
    simpl.
    token_cases (exchange_request self code) (idp w) self; try reflexivity.
    destruct (py_truthy (from_option id JNull (dict_lookup "access_token" fields)));
      simpl; [| reflexivity].
    destruct company as [[| c rest] |]; reflexivity.
  - intros v0 w'.
    unfold get_access_token, try_except, bind, requests_post, eval, idp_log, raise, ret.
    simpl.
    token_cases (exchange_request self code) (idp w) self; try discriminate.
    destruct (py_truthy (from_option id JNull (dict_lookup "access_token" fields)))
      eqn:Htruthy; simpl; [| discriminate].
    destruct company as [[| c rest] |]; simpl; try discriminate.
    intros H. injection H as <- _.
    exists (from_option id JNull (dict_lookup "access_token" fields)), (String c rest).
    split; [reflexivity |]. split; [discriminate |]. split; [exact Htruthy |].
    split; reflexivity.
  - intros e0 w' H. apply try_except_raises in H.
    destruct H as (cause & w1 & _ & H). exists cause.
    unfold bind, idp_log, raise in H.
    destruct (exn_class cause); injection H as <- _; reflexivity.
  - intros r x fields a Hpost Hstatus Hbody Ha Htruthy.
    unfold get_access_token, try_except, bind, requests_post, eval, idp_log, raise, ret.
    simpl. rewrite Hpost. simpl. rewrite Hstatus. simpl. rewrite Hbody. simpl.
    rewrite Ha. simpl. rewrite Htruthy. simpl.
    split.
    + intros [-> | ->]; reflexivity.
    + intros c -> Hc. destruct c as [| c0 rest]; [congruence | reflexivity].
Qed.

(** X23. A refresh sends one POST with the refresh token it was given
    and returns a non-empty access token or raises a plain [Exception]
    that starts with ['Token refresh failed: ']; when the reply carries no
    refresh token, the one that was given is handed back. *)
Theorem token_refresh_keeps_the_old_refresh_token self old (w : idp_world T) :
  posted (snd (refresh_access_token self old w))
  = (posted w ++ [refresh_request self old])%list
  /\ (forall v w',
        refresh_access_token self old w = (inr v, w') ->
        exists a, py_truthy a = true /\ py_getitem v "access_token" = inr a)
  /\ (forall e w',
        refresh_access_token self old w = (inl e, w') ->
        exists cause, e = Raise Exception ("Token refresh failed: " +:+ exn_str cause))
  /\ (forall r x fields a,
        token_endpoint (refresh_request self old) (idp w) = (HttpResponds r, x) ->
        raise_for_status r (token_url self) = inr tt ->
        body r = inr (JObj fields) ->
        dict_lookup "access_token" fields = Some a ->
        py_truthy a = true ->
        exists v,
          fst (refresh_access_token self old w) = inr v
          /\ py_getitem v "refresh_token"
             = inr (from_option id (JStr old) (dict_lookup "refresh_token" fields))
          /\ (dict_lookup "refresh_token" fields = None ->
              py_getitem v "refresh_token" = inr (JStr old))).
Proof.
  split; [| split; [| split]].
  - unfold refresh_access_token, try_except, bind, requests_post, eval, idp_log, raise,
      ret. simpl.
    token_cases (refresh_request self old) (idp w) self; try reflexivity.
    destruct (py_truthy (from_option id JNull (dict_lookup "access_token" fields)));
      reflexivity.
  - intros v0 w'.
    unfold refresh_access_token, try_except, bind, requests_post, eval, idp_log, raise,
      ret. simpl.
    token_cases (refresh_request self old) (idp w) self; try discriminate.
    destruct (py_truthy (from_option id JNull (dict_lookup "access_token" fields)))
      eqn:Htruthy; simpl; [| discriminate].
    intros H. injection H as <- _.
    exists (from_option id JNull (dict_lookup "access_token" fields)).
    split; [exact Htruthy | reflexivity].
  - intros e0 w' H. apply try_except_raises in H.
    destruct H as (cause & w1 & _ & H). exists cause.
    unfold bind, idp_log, raise in H.
    destruct (exn_class cause); injection H as <- _; reflexivity.
  - intros r x fields a Hpost Hstatus Hbody Ha Htruthy.
    unfold refresh_access_token, try_except, bind, requests_post, eval, idp_log, raise,
      ret. simpl. rewrite Hpost. simpl. rewrite Hstatus. simpl. rewrite Hbody. simpl.
    rewrite Ha. simpl. rewrite Htruthy. simpl.
    eexists. split; [reflexivity |]. split; [reflexivity |].
    intros ->. reflexivity.
Qed.

End TokenEndpoint.

(** ** Closed instances of the further properties *)

Import Cases.

(** A POST answered with status 201: the body is returned and the text
    of the reply ends the log as an error line. *)
Lemma created_status_is_logged_as_an_error :
  fst (_make_request scripted (qb_api uploader) POST "invoice" "tok" "cid" JNull
         (start [created_201] []))
  = inr created_body
  /\ last (logged (snd (_make_request scripted (qb_api uploader) POST "invoice" "tok"
                          "cid" JNull (start [created_201] []))))
     = Some (ERROR, "Response content: created").
Proof.
  pose proof (make_request_and_the_status _ scripted (qb_api uploader) POST "invoice"
                "tok" "cid" JNull (start [created_201] []) _ _ eq_refl) as H.
  cbv zeta in H. destruct H as (_ & H & _).
  destruct (H ltac:(discriminate) ltac:(left; reflexivity) created_body eq_refl)
    as [Hv Hl].
  split; [exact Hv |]. rewrite Hl. apply last_snoc.
Defined.

(** An invoice without a customer name goes out in one request. *)
Lemma nameless_invoice_goes_out_in_one_request :
  sent (snd (create_invoice scripted repr (qb_api uploader)
               (Invoice.to_quickbooks_json nameless) "tok" "cid" silent))
  = [ build_request (qb_api uploader) POST "invoice" "tok" "cid"
        (Invoice.to_quickbooks_json nameless) ].
Proof.
  exact (invoice_without_customer_is_posted_as_is _ scripted repr (qb_api uploader)
           nameless "tok" "cid" silent eq_refl).
Defined.

(** The invoice of Acme is posted under customer 7. *)
Lemma acme_is_posted_under_customer_7 :
  exists payload,
    py_getitem payload "CustomerRef" = inr (JObj [ ("value", JStr "7") ])
    /\ sent (snd (create_invoice scripted repr (qb_api uploader)
                    (Invoice.to_quickbooks_json acme) "tok" "cid" created_with_id))
       = (sent after_customer_lookup
          ++ [build_request (qb_api uploader) POST "invoice" "tok" "cid" payload])%list.
Proof.
  assert (Hr : resolve scripted repr Customer (qb_api uploader)
                 (JStr (Invoice.customer_name acme)) "tok" "cid"
                 (logged_line INFO ("Creating invoice: " +:+ Invoice.invoice_number acme)
                    created_with_id)
               = (inr (JObj [ ("Id", JStr "7") ]), after_customer_lookup))
    by (vm_compute; reflexivity).
  destruct (invoice_is_posted_under_the_resolved_customer _ scripted repr
              (qb_api uploader) acme "tok" "cid" created_with_id _ _
              ltac:(discriminate) Hr) as [H _].
  destruct (H (JStr "7") eq_refl) as (payload & _ & Hp & _ & Hsent).
  exists payload. split; [exact Hp | exact Hsent].
Defined.

(** A batch of one invoice and one bill against a silent platform, with
    no commit raising: both records are what their rows hold. *)
Lemma silent_batch_is_persisted :
  exists rep di db w',
    upload_all scripted clock repr uploader [acme] [rent] "tok" "cid" silent
    = (inr (rep, (di, db)), w')
    /\ Forall (fun i => invoice_rows w' !! Invoice.id i = Some i) di
    /\ Forall (fun b => bill_rows w' !! Bill.id b = Some b) db.
Proof.
  destruct (committed_batch_is_persisted _ scripted clock repr uploader [acme] [rent]
              "tok" "cid" silent)
    as (rep & di & db & w' & H & _ & _ & Hi & Hb & _).
  - split; [reflexivity | constructor].
  - apply NoDup_singleton.
  - apply NoDup_singleton.
  - exists rep, di, db, w'. split; [exact H |]. split; [exact Hi | exact Hb].
Defined.

(** The bill for the rent is posted under vendor 3 and account 5. *)
Lemma rent_is_posted_under_vendor_3_and_account_5 :
  exists payload line,
    sent (snd (create_bill scripted repr (qb_api uploader)
                 (Bill.to_quickbooks_json rent) "tok" "cid" bill_goes_through))
    = (sent after_account_lookup
       ++ [build_request (qb_api uploader) POST "bill" "tok" "cid" payload])%list
    /\ py_getitem payload "VendorRef" = inr (JObj [ ("value", JStr "3") ])
    /\ py_getitem payload "Line" = inr (JList [line])
    /\ py_getitem line "AccountBasedExpenseLineDetail"
       = inr (JObj [ ("AccountRef", JObj [ ("value", JStr "5") ]) ]).
Proof.
  assert (Ha : resolve scripted repr Account (qb_api uploader)
                 (JStr (Bill.expense_account rent)) "tok" "cid" after_vendor_lookup
               = (inr (JObj [ ("Id", JStr "5") ]), after_account_lookup))
    by (vm_compute; reflexivity).
  assert (Hv : resolve scripted repr Vendor (qb_api uploader)
                 (JStr (Bill.vendor_name rent)) "tok" "cid"
                 (logged_line INFO ("Creating bill: " +:+ Bill.bill_number rent)
                    bill_goes_through)
               = (inr (JObj [ ("Id", JStr "3") ]), after_vendor_lookup))
    by (vm_compute; reflexivity).
  pose proof (bill_is_posted_under_the_resolved_references _ scripted repr
                (qb_api uploader) rent "tok" "cid" bill_goes_through _ _ _ (JStr "5")
                Ha eq_refl) as H.
  cbv zeta in H. destruct H as [H _].
  destruct (H _ (JStr "3") ltac:(discriminate) Hv eq_refl)
    as (payload & Hsent & Hvendor & Hline & _).
  exists payload. eexists. split; [exact Hsent |]. split; [exact Hvendor |].
  split; [exact Hline | reflexivity].
Defined.

(** Two stored tokens with other secrets have the same dict. *)
Lemma other_secrets_same_dict :
  QuickBooksToken.to_dict (stored_token "at-1" "rt-1")
  = QuickBooksToken.to_dict (stored_token "at-2" "rt-2").
Proof.
  apply token_dict_hides_the_tokens; split; discriminate.
Defined.

(** An invoice created on the platform in a turn whose COMMIT is
    refused: the report counts it, the statistics do not. *)
Lemma created_and_forgotten :
  exists r i2 w2,
    invoice_turn scripted clock repr uploader fresh_result "tok" "cid"
      (acme, created_then_locked)
    = (inr r, (i2, w2))
    /\ (successful r + failed r = 1)%nat
    /\ get_upload_statistics w2 = get_upload_statistics created_then_locked
    /\ last (logged w2)
       = Some (ERROR, "Database commit error for invoice INV-1: database is locked").
Proof.
  destruct (proj1 (uncommitted_turn_leaves_the_statistics _ scripted clock repr)
              uploader fresh_result "tok" "cid" acme created_then_locked
              "database is locked" eq_refl eq_refl)
    as (r & i2 & w2 & Ht & _ & Hcount & _ & _ & Hstat & _ & _ & Hlog).
  exists r, i2, w2. split; [exact Ht |]. split; [exact Hcount |].
  split; [exact Hstat | exact Hlog].
Defined.

(** A lookup that times out: the resolver raises and sends nothing
    more. *)
Lemma lookup_timeout_creates_nothing :
  fst (resolve scripted repr Customer (qb_api uploader) (JStr "Acme") "tok" "cid" silent)
  = inl (Raise Exception
           ("Customer operation failed: Request timeout: "
            +:+ "query?query=SELECT * FROM Customer WHERE Name = 'Acme'"))
  /\ length (sent (snd (resolve scripted repr Customer (qb_api uploader) (JStr "Acme")
                          "tok" "cid" silent))) = 1%nat.
Proof.
  destruct (proj1 (failed_lookup_creates_nothing _ scripted repr Customer
                     (qb_api uploader) (JStr "Acme") "tok" "cid" silent
                     after_lookup_timeout)
              (Raise Exception
                 ("Request timeout: "
                  +:+ "query?query=SELECT * FROM Customer WHERE Name = 'Acme'")))
    as [Hr Hs].
  - vm_compute. reflexivity.
  - split; [rewrite Hr; reflexivity | rewrite Hs; reflexivity].
Defined.

(** A single upload against a silent platform whose commit fails in its
    flush: the exception of the commit comes out. *)
Lemma single_upload_raises_disk_full :
  fst (upload_single_invoice scripted clock repr uploader "tok" "cid"
         (acme, silent_then_disk_full))
  = inl (Raise Exception "disk full").
Proof.
  assert (Hc : create_invoice scripted repr (qb_api uploader)
                 (Invoice.to_quickbooks_json acme) "tok" "cid" silent_then_disk_full
               = (inl (Raise Exception silence_message), after_silence_then_disk_full))
    by (vm_compute; reflexivity).
  destruct (proj1 (failed_single_upload_depends_on_its_commit _ scripted clock repr)
              uploader "tok" "cid" acme _ _ _ Hc) as (_ & H & _).
  destruct (H "disk full" true eq_refl eq_refl) as [Hu _].
  rewrite Hu. reflexivity.
Defined.

(** A single upload and a turn of the batch in a world without commit
    faults leave the same record. *)
Lemma single_upload_and_turn_agree :
  exists out r i' w1 w2,
    upload_single_invoice scripted clock repr uploader "tok" "cid" (acme, created_with_id)
    = (inr out, (i', w1))
    /\ invoice_turn scripted clock repr uploader fresh_result "tok" "cid"
         (acme, created_with_id)
       = (inr r, (i', w2))
    /\ db_of w1 = db_of w2.
Proof.
  destruct (proj1 (single_upload_agrees_with_a_batch_turn _ scripted clock repr)
              uploader fresh_result "tok" "cid" acme created_with_id
              ltac:(split; [reflexivity | constructor]))
    as (out & r & i' & w1 & w2 & Hu & Ht & Hdb & _).
  exists out, r, i', w1, w2. split; [exact Hu |]. split; [exact Ht | exact Hdb].
Defined.

(** A token that expired last year is expired at every reading of the
    clock of the examples. *)
Lemma old_token_stays_expired :
  fst (is_expired clock old_token (start [] [])) = inr true
  /\ fst (is_expired clock old_token (clock_read (start [] []))) = inr true.
Proof.
  destruct (token_expiry_is_monotone _ clock old_token (start [] [])) as (_ & _ & H).
  split; [reflexivity |].
  exact (H (clock_read (start [] [])) eq_refl eq_refl).
Defined.

(** A code exchanged without a company id: the POST has gone out, and
    the call raises. *)
Lemma exchange_without_company_id :
  posted (snd (get_access_token scripted_idp oauth "code-1" None
                 (idp_start [HttpResponds token_reply])))
  = [exchange_request oauth "code-1"]
  /\ fst (get_access_token scripted_idp oauth "code-1" None
            (idp_start [HttpResponds token_reply]))
     = inl (Raise Exception "Token exchange failed: Company ID (realmId) not provided").
Proof.
  destruct (code_exchange_checks_after_posting _ scripted_idp oauth "code-1" None
              (idp_start [HttpResponds token_reply])) as (Hposted & _ & _ & H).
  split; [exact Hposted |].
  destruct (H token_reply [] _ (JStr "at-1") eq_refl eq_refl eq_refl eq_refl eq_refl)
    as [Hnone _].
  apply Hnone. left. reflexivity.
Defined.

(** A refresh whose reply carries no refresh token hands the old one
    back. *)
Lemma refresh_hands_the_old_token_back :
  exists v,
    fst (refresh_access_token scripted_idp oauth "rt-0"
           (idp_start [HttpResponds token_reply])) = inr v
    /\ py_getitem v "refresh_token" = inr (JStr "rt-0").
Proof.
  destruct (token_refresh_keeps_the_old_refresh_token _ scripted_idp oauth "rt-0"
              (idp_start [HttpResponds token_reply])) as (_ & _ & _ & H).
  destruct (H token_reply [] _ (JStr "at-1") eq_refl eq_refl eq_refl eq_refl eq_refl)
    as (v & Hv & _ & Hold).
  exists v. split; [exact Hv | exact (Hold eq_refl)].
Defined.

(** A batch against a silent platform commits twice and leaves the
    session usable. *)
Lemma silent_batch_commits_twice :
  exists rep docs w',
    upload_all scripted clock repr uploader [acme] [rent] "tok" "cid" silent
    = (inr (rep, docs), w')
    /\ session w' = Active
    /\ db_faults w' = [].
Proof.
  destruct (batch_commits_once_per_document _ scripted clock repr)
    as (Hret & _ & _ & Hruns).
  destruct (Hruns uploader [acme] [rent] "tok" "cid" silent)
    as (rep & docs & w' & H); [split; [discriminate | constructor] |].
  destruct (Hret uploader [acme] [rent] "tok" "cid" silent w' rep docs eq_refl H)
    as [Hs Hf].
  exists rep, docs, w'. split; [exact H |]. split; [exact Hs | exact Hf].
Defined.

(** The details of that batch carry the ids of its documents. *)
Lemma silent_batch_details_follow_the_input :
  exists rep di db w',
    upload_all scripted clock repr uploader [acme] [rent] "tok" "cid" silent
    = (inr (rep, (di, db)), w')
    /\ map detail_id (details (report_invoices rep)) = [inr (JInt 1)]
    /\ map detail_id (details (report_bills rep)) = [inr (JInt 1)].
Proof.
  destruct (report_details_follow_the_input _ scripted clock repr uploader [acme] [rent]
              "tok" "cid" silent) as [Hdetails Hruns].
  destruct Hruns as (rep & [di db] & w' & H); [split; [discriminate | constructor] |].
  destruct (Hdetails rep di db w' H) as (Hi & Hb & _).
  exists rep, di, db, w'. split; [exact H |]. split; [exact Hi | exact Hb].
Defined.

(** A batch of one invoice that goes through: the stamp is the first
    reading of the clock, and the clock is read once more for the attempt
    and once for the UPDATE of the commit. *)
Lemma created_batch_is_stamped_first :
  exists rep docs w',
    upload_all scripted clock repr uploader [acme] [] "tok" "cid" created_with_id
    = (inr (rep, docs), w')
    /\ upload_timestamp (report_summary rep) = datetime_isoformat (clock 0)
    /\ clock_reads w' = (2 + total_successful (report_summary rep))%nat.
Proof.
  destruct (report_is_stamped_at_the_start _ scripted clock repr uploader [acme] []
              "tok" "cid" created_with_id) as (Hstamp & _ & _ & Hruns).
  destruct Hruns as (rep & docs & w' & H); [split; [discriminate | constructor] |].
  destruct (Hstamp rep docs w' H) as (Ht & _ & Hclock).
  exists rep, docs, w'. split; [exact H |]. split; [exact Ht |].
  rewrite (Hclock eq_refl). simpl. lia.
Defined.
